(** * ExplainedNRS: the trainer and its utilities, embedded in Rocq

    The development follows the two Python modules it verifies:
    - [GeneralUtils]  is [modules/utils/general_utils.py]
      ([news_sampling], [gather_dict], [load_batch_data]);
    - [NCTrainer]     is [modules/trainer/nc_trainer.py]
      ([run_model], [_train_epoch], [topic_evaluation]).

    Python dictionaries whose iteration order is observable are association
    lists; dictionaries used as finite maps are [gmap]s.  Objects that the
    code mutates in place live in an explicit store and are named by
    locations, so that aliasing is visible. *)

From Stdlib Require Import ZArith QArith List Lia String Ascii.
From stdpp Require Import gmap strings list fin_maps pretty.

Local Open Scope string_scope.
Local Open Scope list_scope.

(** ** Numbers

    Losses, weights and scores are floating-point numbers in the source.
    The embedding is parametric in the carrier: only the operations the code
    uses are required, and the few algebraic laws a theorem needs are stated
    separately in [ScalarLaws]. *)

Class Scalar (T : Type) := {
  s_zero : T;
  s_add : T -> T -> T;
  s_mul : T -> T -> T;
  s_div : T -> T -> T;
  s_of_Z : Z -> T
}.

Class ScalarLaws (T : Type) `{Scalar T} : Prop := {
  s_add_assoc : forall a b c : T, s_add a (s_add b c) = s_add (s_add a b) c;
  s_add_0_l : forall a : T, s_add s_zero a = a;
  s_add_0_r : forall a : T, s_add a s_zero = a
}.

(** The integers, for concrete runs. *)
#[global] Instance Z_scalar : Scalar Z := {
  s_zero := 0%Z;
  s_add := Z.add;
  s_mul := Z.mul;
  s_div := Z.div;
  s_of_Z := fun z => z
}.

(** The rationals, where [/] is exact. *)
#[global] Instance Q_scalar : Scalar Q := {
  s_zero := 0%Q;
  s_add := Qplus;
  s_mul := Qmult;
  s_div := Qdiv;
  s_of_Z := inject_Z
}.

(** Python exceptions that the embedded functions can raise. *)
Inductive exn : Type :=
  | KeyError (key : string)
  | IndexError
  | TypeError
  | ZeroDivisionError
  | ValueError (msg : string).

(** Computations that either raise or return. *)
Definition result (A : Type) : Type := exn + A.

Definition ret {A} (a : A) : result A := inr a.
Definition raise {A} (e : exn) : result A := inl e.
Definition bind {A B} (m : result A) (k : A -> result B) : result B :=
  match m with
  | inl e => inl e
  | inr a => k a
  end.

Declare Scope py_scope.
Delimit Scope py_scope with py.
Notation "'do' x <- m ; k" := (bind m (fun x => k))
  (at level 10, x name, m at level 100, k at level 200) : py_scope.
Local Open Scope py_scope.

(** [d[key]] on an ordered dictionary: the first binding of [key]. *)
Fixpoint assoc {V} (key : string) (d : list (string * V)) : option V :=
  match d with
  | [] => None
  | (k, v) :: d' => if String.eqb k key then Some v else assoc key d'
  end.

Definition getitem {V} (d : list (string * V)) (key : string) : result V :=
  match assoc key d with
  | Some v => ret v
  | None => raise (KeyError key)
  end.

(** [config.get(key, default)] on a typed configuration entry: [None] is an
    absent key. *)
Definition config_get {A} (entry : option A) (dflt : A) : A :=
  match entry with
  | Some a => a
  | None => dflt
  end.

(** [d[key] = v] and [d.update(other)] on an ordered dictionary: a key that
    is present keeps its position. *)
Fixpoint dict_set {V} (d : list (string * V)) (key : string) (v : V) : list (string * V) :=
  match d with
  | [] => [(key, v)]
  | (k, x) :: d' => if String.eqb k key then (k, v) :: d' else (k, x) :: dict_set d' key v
  end.

Definition dict_update_ordered {V} (d other : list (string * V)) : list (string * V) :=
  foldl (fun acc kv => dict_set acc (fst kv) (snd kv)) d other.

(** [s.endswith(suffix)] *)
Definition endswith (s suffix : string) : bool :=
  let n := String.length s in
  let m := String.length suffix in
  Nat.leb m n && String.eqb (substring (n - m) m s) suffix.

(** [s.replace(old, new)] for a non-empty [old]: occurrences are replaced
    from the left and do not overlap.  [skip] counts the characters of a
    matched occurrence that are still to be dropped. *)
Fixpoint replace_from (old new : string) (skip : nat) (s : string) : string :=
  match s with
  | EmptyString => EmptyString
  | String c s' =>
      match skip with
      | S k => replace_from old new k s'
      | O =>
          if String.prefix old s
          then String.append new (replace_from old new (String.length old - 1) s')
          else String c (replace_from old new 0 s')
      end
  end.

Definition replace (s old new : string) : string := replace_from old new 0 s.

(** [x in s] for strings: [x] occurs in [s]. *)
Fixpoint is_substring (x s : string) : bool :=
  String.prefix x s ||
  match s with
  | EmptyString => false
  | String _ s' => is_substring x s'
  end.

(** ** modules/utils/general_utils.py *)
Module GeneralUtils.

(** *** news_sampling *)

(** [random.sample] draws without replacement.  The model is CPython's pool
    algorithm: step [i] picks position [randbelow (n - i)] of the pool and
    moves the last live element into the hole.  The generator is the stream
    [draws]: the [i]-th call of [randbelow m] returns [draws i mod m].
    CPython takes this branch for populations up to its set-size bound, 21
    elements for [k <= 5]; for larger ones it draws positions of the
    population and redraws those already chosen. *)
Fixpoint sample_pool (draws : nat -> nat) (i k : nat) (pool : list Z) : list Z :=
  match k with
  | O => []
  | S k' =>
      let n := length pool in
      let j := draws i mod n in
      match pool !! j, pool !! (n - 1) with
      | Some x, Some last => x :: sample_pool draws (S i) k' (take (n - 1) (<[j := last]> pool))
      | _, _ => []
      end
  end.

Definition random_sample (draws : nat -> nat) (population : list Z) (k : Z) : result (list Z) :=
  if ((k <? 0) || (Z.of_nat (length population) <? k))%Z
  then raise (ValueError "Sample larger than population or is negative")
  else ret (sample_pool draws 0 (Z.to_nat k) population).

(** [[0] * n]: the empty list for [n <= 0]. *)
Definition zeros (n : Z) : list Z := replicate (Z.to_nat n) 0%Z.

Definition news_sampling (draws : nat -> nat) (news : list Z) (ratio : Z) : result (list Z) :=
  if (Z.of_nat (length news) <? ratio)%Z
  then ret (news ++ zeros (ratio - Z.of_nat (length news)))
  else random_sample draws news ratio.

(** *** gather_dict *)

Section Gather.
Context {K : Type} `{Countable K} {V : Type}.

(** [d.update(other)]: the bindings of [other] win. *)
Definition dict_update (d other : gmap K V) : gmap K V := other ∪ d.

(** The process group as one rank sees it: [peers] has one partial mapping
    per rank, and [rank] is the caller's own position. *)
Record process_group := {
  peers : list (gmap K V);
  rank : nat
}.

(** [all_gather_object(object_list, obj)]: slot [i] of the output list is
    assigned rank [i]'s object, for every rank of the group; the caller's own
    slot receives [obj].  The slots past the size of the group keep what they
    held, and the assignment to a slot that a shorter list does not have
    raises [IndexError]. *)
Definition all_gather_object (g : process_group) (object_list : list (gmap K V))
    (obj : gmap K V) : result (list (gmap K V)) :=
  let gathered := <[rank g := obj]> (peers g) in
  if Nat.ltb (length object_list) (length gathered)
  then raise IndexError
  else ret (gathered ++ drop (length gathered) object_list).

(** [dist] is [None] when [torch.distributed.is_initialized()] is false.
    The result is the caller's [dict_object] after the in-place updates,
    which is also the object returned. *)
Definition gather_dict (dist : option process_group) (dict_object : gmap K V)
    (process_num : nat) : result (gmap K V) :=
  match dist with
  | Some g =>
      let dicts_object := replicate process_num (∅ : gmap K V) in
      do dicts_object <- all_gather_object g dicts_object dict_object;
      ret (foldl (fun d i => dict_update d (default ∅ (dicts_object !! i)))
                 dict_object (seq 0 process_num))
  | None => ret dict_object
  end.
End Gather.

(** *** load_batch_data *)

Inductive device : Type :=
  | Cpu
  | Cuda (index : nat).

(** A tensor: its contents and the device that holds them. *)
Record tensor (T : Type) := Tensor {
  t_data : T;
  t_device : device
}.
Arguments Tensor {T} _ _.
Arguments t_data {T} _.
Arguments t_device {T} _.

(** [v.to(device)] *)
Definition to_device {T} (dev : device) (v : tensor T) : tensor T :=
  Tensor (t_data v) dev.

(** [dist_initialized] is [torch.distributed.is_initialized()]. *)
Definition load_batch_data {T} (dist_initialized : bool)
    (batch_dict : list (string * tensor T)) (dev : device) (multi_gpu : bool)
    : list (string * tensor T) :=
  if dist_initialized && multi_gpu
  then batch_dict
  else map (fun kv => (fst kv, to_device dev (snd kv))) batch_dict.

(** *** get_project_root *)

(** [sep.join(l)] *)
Fixpoint join (sep : string) (l : list string) : string :=
  match l with
  | [] => EmptyString
  | [x] => x
  | x :: l' => String.append x (String.append sep (join sep l'))
  end.

(** [t.index(x)] on a tuple. *)
Fixpoint py_index (x : string) (l : list string) : result nat :=
  match l with
  | [] => raise (ValueError "tuple.index(x): x not in tuple")
  | y :: l' => if String.eqb y x then ret 0 else do i <- py_index x l'; ret (S i)
  end.

(** [os.path.commonprefix] of two lists of components. *)
Fixpoint commonprefix (a b : list string) : list string :=
  match a, b with
  | x :: a', y :: b' => if String.eqb x y then x :: commonprefix a' b' else []
  | _, _ => []
  end.

(** [os.path.relpath(path, start)] on the components of the two absolute
    paths. *)
Definition relpath (path_list start_list : list string) : string :=
  let i := length (commonprefix start_list path_list) in
  let rel_list := replicate (length start_list - i) ".." ++ drop i path_list in
  match rel_list with
  | [] => "."
  | _ => join "/" rel_list
  end.

(** [get_project_root(project_name=...)] in the working directory whose
    components below the root are [cwd].  [Path(os.getcwd()).parts] is the
    root followed by the components; the path joined from a prefix of the
    parts has the components of that prefix. *)
Definition get_project_root (project_name : option string) (cwd : list string)
    : result string :=
  let project_name := config_get project_name "explainable_nrs" in
  let file_parts := "/" :: cwd in
  do i <- py_index project_name file_parts;
  let abs_path := take (i + 1) file_parts in
  ret (relpath (drop 1 abs_path) cwd).

End GeneralUtils.

(** ** modules/trainer/nc_trainer.py *)
Module NCTrainer.
Import GeneralUtils.

Section Trainer.
Context {T : Type} `{Scalar T}.

(** A batch and a model output are dictionaries from field names to
    tensors; the model is an opaque function between them. *)
Definition tensor_dict : Type := list (string * tensor T).
Definition model_fn : Type := tensor_dict -> tensor_dict.

(** The store holds the tensors that are written in place.  [run_model]
    has one, the loss: it is updated after it has been put into the output
    dictionary, so the dictionary must hold a reference, not a value.  The
    other tensors of a call (the moved batch, the model outputs, the scaled
    entropy) are not written after they are created and are carried as
    values. *)
Definition loc : Type := nat.
Definition store : Type := list (tensor T).

Inductive pyref : Type :=
  | Held (t : tensor T)   (* an object owned by the batch or the model output *)
  | Ref (l : loc).        (* an object in the store *)

Definition out_dict : Type := list (string * pyref).

Definition alloc (st : store) (t : tensor T) : loc * store :=
  (length st, st ++ [t]).

Definition deref (st : store) (r : pyref) : option (tensor T) :=
  match r with
  | Held t => Some t
  | Ref l => st !! l
  end.

(** [a * t] for a Python float [a] and a tensor [t]: a new tensor. *)
Definition scale (a : T) (t : tensor T) : tensor T :=
  Tensor (s_mul a (t_data t)) (t_device t).

(** [x += t] on the tensor at [l]: [Tensor.__iadd__] writes into the
    object itself. *)
Definition iadd (st : store) (l : loc) (t : tensor T) : result store :=
  match st !! l with
  | Some x => ret (<[l := Tensor (s_add (t_data x) (t_data t)) (t_device x)]> st)
  | None => raise IndexError
  end.

(** The typed part of the configuration that [__init__] reads. *)
Record config := {
  cfg_entropy_constraint : option bool;
  cfg_calculate_entropy : option bool;
  cfg_alpha : option T
}.

(** A data loader: what [len(loader)] answers, its [batch_size], and the
    batches its iterator yields. *)
Record loader := {
  loader_len : nat;
  batch_size : nat;
  batches : list tensor_dict
}.

(** The attributes of the trainer object.  [criterion], [self_model],
    [self_device], [metric_funcs], the scheduler and the distributed runtime
    come from the base trainer and the environment; [train_loader] is the
    loader after [accelerator.prepare]. *)
Record trainer := {
  entropy_constraint : bool;
  calculate_entropy : bool;
  alpha : T;
  len_epoch : nat;
  log_step : nat;
  train_loader : loader;
  valid_loader : option loader;
  do_validation : bool;
  has_lr_scheduler : bool;
  self_model : model_fn;
  self_device : device;
  criterion : tensor T -> tensor T -> tensor T;
  metric_funcs : list (string * (list Z -> list Z -> T));
  dist_initialized : bool
}.

(** [NCTrainer.__init__] (lines 20-33).  [data_train] and [data_valid] are
    the loaders of [data_loader], [prepared] is what [accelerator.prepare]
    returns for the training loader. *)
Definition init (cfg : config) (data_train : loader) (data_valid : option loader)
    (prepared : loader) (model : model_fn) (dev : device)
    (crit : tensor T -> tensor T -> tensor T)
    (mets : list (string * (list Z -> list Z -> T))) (has_sched dist : bool) : trainer :=
  let entropy_constraint := config_get (cfg_entropy_constraint cfg) false in
  let calculate_entropy := config_get (cfg_calculate_entropy cfg) entropy_constraint in
  let alpha := config_get (cfg_alpha cfg) (s_div (s_of_Z 1) (s_of_Z 1000)) in
  {| entropy_constraint := entropy_constraint;
     calculate_entropy := calculate_entropy;
     alpha := alpha;
     len_epoch := loader_len data_train;
     log_step := Nat.sqrt (batch_size data_train);
     train_loader := prepared;
     valid_loader := data_valid;
     do_validation := match data_valid with Some _ => true | None => false end;
     has_lr_scheduler := has_sched;
     self_model := model;
     self_device := dev;
     criterion := crit;
     metric_funcs := mets;
     dist_initialized := dist |}.

(** [NCTrainer.run_model] (lines 43-51).  [model] is [None] for the default
    argument; [st] is the store before the call. *)
Definition run_model (self : trainer) (batch_dict : tensor_dict) (model : option model_fn)
    (multi_gpu : bool) (st : store) : result (out_dict * store) :=
  let batch_dict := load_batch_data (dist_initialized self) batch_dict (self_device self) multi_gpu in
  let output := match model with
                | Some m => m batch_dict
                | None => self_model self batch_dict
                end in
  do predicted <- getitem output "predicted";
  do label <- getitem batch_dict "label";
  let (loss, st) := alloc st (criterion self predicted label) in
  let out := [("label", Held label); ("loss", Ref loss); ("predict", Held predicted)] in
  do st <- (if entropy_constraint self
            then do entropy <- getitem output "entropy";
                 iadd st loss (scale (alpha self) entropy)
            else ret st);
  do out <- (if calculate_entropy self
             then do attention <- getitem output "attention";
                  do entropy <- getitem output "entropy";
                  ret (dict_update_ordered out
                         [("attention_weight", Held attention); ("entropy", Held entropy)])
             else ret out);
  ret (out, st).

(** The output that [run_model] obtains from the model it is given. *)
Definition model_output (self : trainer) (batch_dict : tensor_dict) (model : option model_fn)
    (multi_gpu : bool) : tensor_dict :=
  let batch_dict := load_batch_data (dist_initialized self) batch_dict (self_device self) multi_gpu in
  match model with
  | Some m => m batch_dict
  | None => self_model self batch_dict
  end.

(** [out_dict[key]] read by a caller after [run_model] returned: the
    contents of the object that the dictionary refers to. *)
Definition field (r : out_dict * store) (key : string) : result (tensor T) :=
  do ref <- getitem (fst r) key;
  match deref (snd r) ref with
  | Some t => ret t
  | None => raise IndexError
  end.

Definition out_field (r : out_dict * store) (key : string) : option (tensor T) :=
  match assoc key (fst r) with
  | Some ref => deref (snd r) ref
  | None => None
  end.

(** *** The epoch loop

    The optimizer, the gradient engine, the metric trackers, the writer and
    the progress bar are collaborators: a call to one of them is recorded as
    an event, in program order. *)
Inductive phase : Type := Train | Valid.

Inductive event : Type :=
  | ModelTrain
  | ModelEval
  | MetricsReset (p : phase)
  | ZeroGrad
  | Backward (loss : tensor T)
  | OptimizerStep
  | WriterSetStep (step : Z) (mode : string)
  | MetricsUpdate (p : phase) (name : string) (value : T) (n : nat)
  | BarDescription (epoch : Z) (loss : T)
  | AddHistograms
  | SchedulerStep.

(** [len(t)], [t.cpu().tolist()] and [torch.argmax(t, dim=1).cpu().tolist()]
    on the contents of a tensor. *)
Variable tensor_len : tensor T -> nat.
Variable tolist : tensor T -> list Z.
Variable argmax_tolist : tensor T -> list Z.

Record epoch_state := {
  trace : list event;
  tensors : store;
  labels : list Z;
  predicts : list Z
}.

Definition emit (evs : list event) (s : epoch_state) : epoch_state :=
  {| trace := trace s ++ evs; tensors := tensors s; labels := labels s; predicts := predicts s |}.

(** [NCTrainer.update_metrics] (lines 54-61): the updates it sends to the
    tracker [p].  An argument left at its default is [None]. *)
Definition update_metrics (self : trainer) (p : phase) (out : option (out_dict * store))
    (predicts labels : option (list Z)) : result (list event) :=
  match predicts, labels with
  | Some predicts, Some labels =>
      ret (map (fun met => MetricsUpdate p (fst met) (snd met predicts labels) (length labels))
               (metric_funcs self))
  | _, _ =>
      match out with
      | None => raise TypeError
      | Some r =>
          do label <- field r "label";
          let n := tensor_len label in
          do loss <- field r "loss";
          let evs := [MetricsUpdate p "loss" (t_data loss) n] in
          if calculate_entropy self
          then do entropy <- field r "entropy";
               if Nat.eqb n 0 then raise ZeroDivisionError
               else ret (evs ++ [MetricsUpdate p "doc_entropy"
                                   (s_div (t_data entropy) (s_of_Z (Z.of_nat n))) n])
          else ret evs
      end
  end.

(** One iteration of the body of the training loop (lines 74-84). *)
Definition train_step (self : trainer) (epoch : Z) (batch_idx : nat)
    (batch_dict : tensor_dict) (s : epoch_state) : result epoch_state :=
  let s := emit [ZeroGrad] s in
  do r <- run_model self batch_dict (Some (self_model self)) true (tensors s);
  do loss <- field r "loss";
  let s := {| trace := trace s ++ [Backward loss; OptimizerStep;
                 WriterSetStep ((epoch - 1) * Z.of_nat (len_epoch self) + Z.of_nat batch_idx) "train"];
              tensors := snd r; labels := labels s; predicts := predicts s |} in
  do evs <- update_metrics self Train (Some r) None None;
  let s := emit evs s in
  do label <- field r "label";
  do predict <- field r "predict";
  let s := {| trace := trace s; tensors := tensors s;
              labels := labels s ++ tolist label;
              predicts := predicts s ++ argmax_tolist predict |} in
  if Nat.eqb (log_step self) 0 then raise ZeroDivisionError
  else ret (if Nat.eqb (batch_idx mod log_step self) 0
            then emit [BarDescription epoch (t_data loss)] s
            else s).

(** The [for] loop of [_train_epoch] over the batches that the loader's
    iterator yields (lines 73-86); [batch_idx] is the counter of
    [enumerate]. *)
Fixpoint train_batches (self : trainer) (epoch : Z) (batch_idx : nat)
    (bs : list tensor_dict) (s : epoch_state) : result epoch_state :=
  match bs with
  | [] => ret s
  | batch_dict :: rest =>
      do s <- train_step self epoch batch_idx batch_dict s;
      if Nat.eqb batch_idx (len_epoch self) then ret s
      else train_batches self epoch (S batch_idx) rest s
  end.

(** The loop of [evaluate] (lines 101-106). *)
Fixpoint evaluate_batches (self : trainer) (model : model_fn) (epoch : Z) (n_loader : nat)
    (batch_idx : nat) (bs : list tensor_dict) (s : epoch_state) : result epoch_state :=
  match bs with
  | [] => ret s
  | batch_dict :: rest =>
      do r <- run_model self batch_dict (Some model) false (tensors s);
      let s := {| trace := trace s ++ [WriterSetStep
                     ((epoch - 1) * Z.of_nat n_loader + Z.of_nat batch_idx) "evaluate"];
                  tensors := snd r; labels := labels s; predicts := predicts s |} in
      do evs <- update_metrics self Valid (Some r) None None;
      let s := emit evs s in
      do label <- field r "label";
      do predict <- field r "predict";
      let s := {| trace := trace s; tensors := tensors s;
                  labels := labels s ++ tolist label;
                  predicts := predicts s ++ argmax_tolist predict |} in
      evaluate_batches self model epoch n_loader (S batch_idx) rest s
  end.

(** [NCTrainer.evaluate] (lines 97-109): the events and tensors it adds to
    those of the caller; its lists of labels and predictions are its own. *)
Definition evaluate (self : trainer) (ld : loader) (model : model_fn) (epoch : Z)
    (s0 : epoch_state) : result epoch_state :=
  let s := {| trace := trace s0 ++ [ModelEval; MetricsReset Valid];
              tensors := tensors s0; labels := []; predicts := [] |} in
  do s <- evaluate_batches self model epoch (loader_len ld) 0 (batches ld) s;
  do evs <- update_metrics self Valid None (Some (predicts s)) (Some (labels s));
  ret (emit [AddHistograms] (emit evs s)).

(** [NCTrainer._train_epoch] (lines 69-94), up to the log it returns. *)
Definition _train_epoch (self : trainer) (epoch : Z) : result epoch_state :=
  let s := {| trace := [ModelTrain; MetricsReset Train];
              tensors := []; labels := []; predicts := [] |} in
  do s <- train_batches self epoch 0 (batches (train_loader self)) s;
  do evs <- update_metrics self Train None (Some (predicts s)) (Some (labels s));
  let s := emit evs s in
  do s <- (if do_validation self
           then match valid_loader self with
                | Some ld =>
                    do v <- evaluate self ld (self_model self) epoch s;
                    ret {| trace := trace v; tensors := tensors v;
                           labels := labels s; predicts := predicts s |}
                | None => raise TypeError
                end
           else ret s);
  ret (if has_lr_scheduler self then emit [SchedulerStep] s else s).

(** The number of [optimizer.step()] calls in a trace. *)
Definition is_optimizer_step (e : event) : bool :=
  match e with
  | OptimizerStep => true
  | _ => false
  end.

Definition optimizer_steps (tr : list event) : nat :=
  length (List.filter is_optimizer_step tr).
End Trainer.

Arguments tensor_dict : clear implicits.
Arguments model_fn : clear implicits.
Arguments store : clear implicits.
Arguments pyref : clear implicits.
Arguments out_dict : clear implicits.
Arguments config : clear implicits.
Arguments trainer : clear implicits.
Arguments loader : clear implicits.
Arguments event : clear implicits.
Arguments epoch_state : clear implicits.

(** *** topic_evaluation *)

Section TopicEvaluation.
Context {T : Type} `{Scalar T}.

(** A two-dimensional array: [shape1] is its number of columns. *)
Record ndarray := NdArray {
  shape1 : nat;
  rows : list (list T)
}.

(** Arrays are objects: [copy.deepcopy] creates a new one, and an indexed
    assignment writes into the object it is applied to. *)
Definition arrays : Type := list ndarray.

Definition deepcopy (arrs : arrays) (l : nat) : result (nat * arrays) :=
  match arrs !! l with
  | Some a => ret (length arrs, arrs ++ [a])
  | None => raise IndexError
  end.

(** [a[:, index] = 0] on the contents of an array; NumPy rejects an index
    that is not below the number of columns. *)
Definition zero_columns (index : list nat) (a : ndarray) : ndarray :=
  NdArray (shape1 a) (map (fun row => foldl (fun r j => <[j := s_zero]> r) row index) (rows a)).

Definition setitem_columns (arrs : arrays) (l : nat) (index : list nat) : result arrays :=
  match arrs !! l with
  | Some a =>
      if forallb (fun j => Nat.ltb j (shape1 a)) index
      then ret (<[l := zero_columns index a]> arrs)
      else raise IndexError
  | None => raise IndexError
  end.

(** An entry of [os.scandir(post_word_dict_dir)] with the dictionary that
    [read_json] loads from it. *)
Record dir_entry := {
  entry_name : string;
  entry_json : gmap string nat
}.

(** [[v for k, v in word_dict.items() if k not in post_word_dict]] *)
Definition removed_index (word_dict : list (string * nat)) (post_word_dict : gmap string nat)
    : list nat :=
  map snd (List.filter (fun kv => match post_word_dict !! fst kv with
                                  | Some _ => false
                                  | None => true
                                  end) word_dict).

(** The loop over the directory (lines 137-144): [topic_dist] is the location
    of the original distribution, [topic_dists] maps variant names to
    locations. *)
Fixpoint add_variants (word_dict : list (string * nat)) (topic_dist : nat)
    (entries : list dir_entry) (topic_dists : list (string * nat)) (arrs : arrays)
    : result (list (string * nat) * arrays) :=
  match entries with
  | [] => ret (topic_dists, arrs)
  | path :: rest =>
      if negb (endswith (entry_name path) ".json")
      then add_variants word_dict topic_dist rest topic_dists arrs
      else
        let post_word_dict := entry_json path in
        let removed := removed_index word_dict post_word_dict in
        do c <- deepcopy arrs topic_dist;
        let (topic_dist_copy, arrs) := c in
        do arrs <- setitem_columns arrs topic_dist_copy removed;
        add_variants word_dict topic_dist rest
          (dict_set topic_dists (replace (entry_name path) ".json" "") topic_dist_copy) arrs
  end.

(** Lines 135-144. *)
Definition build_topic_dists (word_dict : list (string * nat)) (topic_dist : nat)
    (post_word_dict_dir : option (list dir_entry)) (arrs : arrays)
    : result (list (string * nat) * arrays) :=
  let topic_dists := [("original", topic_dist)] in
  match post_word_dict_dir with
  | Some entries => add_variants word_dict topic_dist entries topic_dists arrs
  | None => ret (topic_dists, arrs)
  end.

(** [{v: k for k, v in word_dict.items()}] *)
Definition reverse_dict (word_dict : list (string * nat)) : gmap nat string :=
  foldl (fun m kv => <[snd kv := fst kv]> m) ∅ word_dict.

(** A configuration value that is a string or a list of strings. *)
Inductive str_or_list : Type :=
  | PyStr (s : string)
  | PyList (l : list string).

(** [x in c]; [None] is not iterable. *)
Definition py_in (x : string) (c : option str_or_list) : result bool :=
  match c with
  | None => raise TypeError
  | Some (PyStr s) => ret (is_substring x s)
  | Some (PyList l) => ret (existsb (String.eqb x) l)
  end.

(** [for m in c]: a string yields its characters. *)
Fixpoint chars (s : string) : list string :=
  match s with
  | EmptyString => []
  | String c s' => String c EmptyString :: chars s'
  end.

Definition py_iter (c : str_or_list) : list string :=
  match c with
  | PyStr s => chars s
  | PyList l => l
  end.

Record eval_config := {
  topic_evaluation_method : option str_or_list;
  top_n_cfg : option Z;
  coherence_method : option str_or_list;
  save_topic_info_cfg : option bool;
  sort_score_cfg : option bool;
  post_word_dict_dir : option (list dir_entry)
}.

(** The collaborators of [topic_evaluation]: functions of the repository and
    of its libraries that are called but not defined in the trainer. *)
Record collaborators := {
  get_topic_list : ndarray -> Z -> gmap nat string -> list (list string);
  compute_npmi : list (list Z) -> Z -> list T;
  compute_coherence : list (list string) -> string -> Z -> list T;
  save_topic_info : list (list string) -> list (string * list T) -> bool -> list (string * T);
  round_mean : list T -> T;            (* np.round(np.mean(c), 4) *)
  np_round4 : T -> T;                  (* np.round(x, 4) *)
  cos : list T -> list T -> T;         (* cosine of two vectors *)
  embeddings : list (list T);          (* model.embedding_layer.embedding.weight *)
  head_num : Z;                        (* model.head_num *)
  is_main_process : bool;
  getcwd : list string                 (* os.getcwd(), its components below the root *)
}.

(** [sklearn.metrics.pairwise.cosine_similarity(X)]: the matrix of the
    pairwise cosines of the rows of [X]; an empty [X] is rejected. *)
Definition cosine_similarity (co : collaborators) (X : list (list T)) : result (list (list T)) :=
  match X with
  | [] => raise (ValueError "Found array with 0 sample(s)")
  | _ => ret (map (fun x => map (cos co x) X) X)
  end.

(** [np.triu(M, k)]: the entries with [column - row < k] become zero. *)
Definition np_triu (M : list (list T)) (k : nat) : list (list T) :=
  imap (fun i row => imap (fun j x => if Nat.ltb j (i + k) then s_zero else x) row) M.

(** [sum] of a list and [np.sum] of a matrix. *)
Definition py_sum (l : list T) : T := foldl s_add s_zero l.
Definition np_sum (M : list (list T)) : T := py_sum (concat M).

(** [embeddings[i]] for a list of row indices [i]. *)
Fixpoint take_rows (E : list (list T)) (i : list nat) : result (list (list T)) :=
  match i with
  | [] => ret []
  | j :: i' =>
      match E !! j with
      | Some row => do rest <- take_rows E i'; ret (row :: rest)
      | None => raise IndexError
      end
  end.

(** [[f(x) for x in l]] for an [f] that can raise. *)
Fixpoint for_each {A B} (f : A -> result B) (l : list A) : result (list B) :=
  match l with
  | [] => ret []
  | x :: l' => do y <- f x; do ys <- for_each f l'; ret (y :: ys)
  end.

(** Lines 173-176: the embedding similarity of the topics in [topic_list]. *)
Definition w2v_sim (co : collaborators) (word_dict : list (string * nat)) (top_n : Z)
    (topic_list : list (list string)) : result T :=
  let count := s_div (s_of_Z (head_num co * top_n * (top_n - 1))) (s_of_Z 2) in
  do topic_index <- for_each (for_each (getitem word_dict)) topic_list;
  do sims <- for_each (fun i => do X <- take_rows (embeddings co) i;
                                 do K <- cosine_similarity co X;
                                 ret (np_sum (np_triu K 1))) topic_index;
  match topic_index with
  | [] => if (head_num co * top_n * (top_n - 1) =? 0)%Z then raise ZeroDivisionError
          else ret (s_div (py_sum sims) count)
  | _ => ret (s_div (py_sum sims) count)
  end.
(** The truth value of [topic_scores]: [None] and the empty dictionary are
    false. *)
Definition truthy {A} (topic_scores : option (list A)) : bool :=
  match topic_scores with
  | Some (_ :: _) => true
  | _ => false
  end.

(** The body of the loop over the variants (lines 149-177) for the variant
    [key] whose distribution is the array at [dist].  [topic_result] and
    [topic_scores] are the two variables that live across iterations.  The
    default of [ref_data_path] (line 150) is evaluated before the lookup, so
    [get_project_root()] is called in every iteration.  The files written
    when [save_topic_info] is set are not part of the state. *)
Definition evaluate_variant (co : collaborators) (cfg : eval_config)
    (word_dict : list (string * nat)) (arrs : arrays) (key : string) (dist : nat)
    (topic_result : list (string * T)) (topic_scores : option (list (string * list T)))
    : result (list (string * T) * option (list (string * list T))) :=
  let method := topic_evaluation_method cfg in
  let top_n := config_get (top_n_cfg cfg) 10%Z in
  let methods := config_get (coherence_method cfg) (PyStr "c_npmi") in
  let save := config_get (save_topic_info_cfg cfg) false && is_main_process co in
  do a <- (match arrs !! dist with
           | Some a => ret a
           | None => raise IndexError
           end);
  let topic_list := get_topic_list co a top_n (reverse_dict word_dict) in
  do project_root <- get_project_root None (getcwd co);
  do fast <- py_in "fast_eval" method;
  do topic_scores <-
    (if fast
     then do topic_index <-
            for_each (for_each (fun word => do v <- getitem word_dict word;
                                            ret (Z.of_nat v - 1)%Z)) topic_list;
          ret (Some [(String.append key "_c_npmi", compute_npmi co topic_index top_n)])
     else ret topic_scores);
  do slow <- py_in "slow_eval" method;
  let topic_scores :=
    if slow
    then Some (foldl (fun d m => dict_set d (String.append key "_m")
                                   (compute_coherence co topic_list m top_n))
                     [] (py_iter methods))
    else topic_scores in
  let topic_result :=
    if (slow || fast) && truthy topic_scores
    then if save
         then dict_update_ordered topic_result
                (save_topic_info co topic_list (default [] topic_scores)
                   (config_get (sort_score_cfg cfg) true))
         else dict_update_ordered topic_result
                (map (fun mc => (fst mc, round_mean co (snd mc))) (default [] topic_scores))
    else topic_result in
  do w2v <- py_in "w2v_sim" method;
  do topic_result <-
    (if w2v
     then do sim <- w2v_sim co word_dict top_n topic_list;
          ret (dict_update_ordered topic_result
                 [(String.append key "_w2v_sim", np_round4 co sim)])
     else ret topic_result);
  ret (topic_result, topic_scores).

(** The loop over [topic_dists.items()] (line 148). *)
Fixpoint evaluate_variants (co : collaborators) (cfg : eval_config)
    (word_dict : list (string * nat)) (arrs : arrays) (topic_dists : list (string * nat))
    (topic_result : list (string * T)) (topic_scores : option (list (string * list T)))
    : result (list (string * T)) :=
  match topic_dists with
  | [] => ret topic_result
  | (key, dist) :: rest =>
      do r <- evaluate_variant co cfg word_dict arrs key dist topic_result topic_scores;
      evaluate_variants co cfg word_dict arrs rest (fst r) (snd r)
  end.

(** [NCTrainer.topic_evaluation] (lines 125-180).  [topic_dist] is the array
    that [get_topic_dist] returns; it is the first object of the store. *)
Definition topic_evaluation (co : collaborators) (cfg : eval_config)
    (word_dict : list (string * nat)) (topic_dist : ndarray) : result (list (string * T)) :=
  do b <- build_topic_dists word_dict 0 (post_word_dict_dir cfg) [topic_dist];
  do topic_result <- evaluate_variants co cfg word_dict (snd b) (fst b) [] None;
  if Nat.eqb (length topic_result) 0
  then raise (ValueError "No correct topic evaluation method is specified!")
  else ret topic_result.

(** The topic lists that the loop extracts, by variant name (line 149). *)
Definition variant_topics (co : collaborators) (cfg : eval_config)
    (word_dict : list (string * nat)) (b : list (string * nat) * arrays)
    : list (string * option (list (list string))) :=
  map (fun kd => (fst kd,
                  option_map (fun a => get_topic_list co a (config_get (top_n_cfg cfg) 10%Z)
                                         (reverse_dict word_dict))
                             (snd b !! snd kd)))
      (fst b).
(** *** The properties, in the words of the specification *)

(** The sum of the cosines of the unordered pairs of vectors of a topic: the
    entries of the similarity matrix above its diagonal. *)
Fixpoint upper_pairs_sum (co : collaborators) (X : list (list T)) : T :=
  match X with
  | [] => s_zero
  | x :: X' => s_add (py_sum (map (cos co x) X')) (upper_pairs_sum co X')
  end.

(** Modelled from the spec: the embedding-similarity score, the pair sums of
    all topics divided by [num_topics * top_n * (top_n - 1) / 2], where
    [num_topics] is the number of topics of the collection. *)
Definition spec_w2v_sim (co : collaborators) (topics : list (list (list T))) (top_n : Z) : T :=
  s_div (py_sum (map (upper_pairs_sum co) topics))
        (s_div (s_of_Z (Z.of_nat (length topics) * top_n * (top_n - 1))) (s_of_Z 2)).

(** The score with the divisor of line 174, [model.head_num * top_n *
    (top_n - 1) / 2]. *)
Definition head_w2v_sim (co : collaborators) (topics : list (list (list T))) (top_n : Z) : T :=
  s_div (py_sum (map (upper_pairs_sum co) topics))
        (s_div (s_of_Z (head_num co * top_n * (top_n - 1))) (s_of_Z 2)).

(** [A] is the filtered copy of [D] for a whitelist: it has the shape of
    [D], zero weight in the column of every word of the vocabulary that is
    not in the whitelist, and the weight of [D] in every column all of whose
    words are in the whitelist. *)
Definition filtered_copy (word_dict : list (string * nat)) (post_word_dict : gmap string nat)
    (D A : ndarray) : Prop :=
  shape1 A = shape1 D /\
  length (rows A) = length (rows D) /\
  forall (i : nat) (row : list T), rows D !! i = Some row ->
    exists row', rows A !! i = Some row' /\ length row' = length row /\
      (forall word v, (word, v) ∈ word_dict -> post_word_dict !! word = None ->
         v < length row -> row' !! v = Some s_zero) /\
      (forall v, (forall word, (word, v) ∈ word_dict -> is_Some (post_word_dict !! word)) ->
         row' !! v = row !! v).

(** The file is read by the loop and names the variant [key]. *)
Definition names_variant (path : dir_entry) (key : string) : Prop :=
  endswith (entry_name path) ".json" = true /\
  key = replace (entry_name path) ".json" "".

(** The words of a topic can be looked up and their vectors read. *)
Definition readable_topic (co : collaborators) (word_dict : list (string * nat))
    (topic : list string) : Prop :=
  topic <> [] /\
  Forall (fun word => exists v, assoc word word_dict = Some v /\ v < length (embeddings co))
         topic.

(** The directory entry is a file that the loop reads. *)
Definition is_json (path : dir_entry) : bool := endswith (entry_name path) ".json".

(** A recognized evaluation method is configured. *)
Definition recognized (method : option str_or_list) : bool :=
  match method with
  | None => false
  | Some (PyStr s) =>
      is_substring "fast_eval" s || is_substring "slow_eval" s || is_substring "w2v_sim" s
  | Some (PyList l) =>
      existsb (String.eqb "fast_eval") l || existsb (String.eqb "slow_eval") l
      || existsb (String.eqb "w2v_sim") l
  end.
End TopicEvaluation.

Arguments ndarray : clear implicits.
Arguments arrays : clear implicits.
Arguments collaborators : clear implicits.

End NCTrainer.

(** ** Reading the trace of an epoch *)
Module TraceReading.
Import GeneralUtils NCTrainer.

Section Readers.
Context {T : Type} `{Scalar T}.

(** The calls that only report: updates of a metric tracker and the text of
    the progress bar. *)
Definition is_report (e : event T) : bool :=
  match e with
  | MetricsUpdate _ _ _ _ | BarDescription _ _ => true
  | _ => false
  end.

(** The calls that [evaluate] makes: on the model, on the tracker of the
    validation metrics, and on the writer in mode ["evaluate"]. *)
Definition is_eval_event (e : event T) : bool :=
  match e with
  | ModelEval | MetricsReset Valid | MetricsUpdate Valid _ _ _ | AddHistograms => true
  | WriterSetStep _ mode => String.eqb mode "evaluate"
  | _ => false
  end.

Definition is_zero_grad (e : event T) : bool :=
  match e with
  | ZeroGrad => true
  | _ => false
  end.

Definition is_backward (e : event T) : bool :=
  match e with
  | Backward _ => true
  | _ => false
  end.

Definition is_scheduler_step (e : event T) : bool :=
  match e with
  | SchedulerStep => true
  | _ => false
  end.

Definition count_events (p : event T -> bool) (tr : list (event T)) : nat :=
  length (List.filter p tr).

(** The steps given to [writer.set_step] in mode ["train"], in order. *)
Definition train_step_of (e : event T) : option Z :=
  match e with
  | WriterSetStep step mode => if String.eqb mode "train" then Some step else None
  | _ => None
  end.

Definition train_writer_steps (tr : list (event T)) : list Z :=
  omap train_step_of tr.
End Readers.

End TraceReading.

(** ** modules/utils/general_utils.py, the other functions *)
Module GeneralUtilsRest.
Import GeneralUtils NCTrainer.

(** *** convert_dict_to_numpy *)

(** [d[i]] on a dictionary with integer keys. *)
Definition int_getitem {V} (d : gmap Z V) (i : Z) : result V :=
  match d !! i with
  | Some v => ret v
  | None => raise (KeyError (pretty i))
  end.

(** [np.array([dict_object[i] for i in range(len(dict_object))])].  The
    comprehension is evaluated first; [np_array] is [np.array] on the list
    it gives, which builds the array or raises. *)
Definition convert_dict_to_numpy {V A} (np_array : list V -> result A)
    (dict_object : gmap Z V) : result A :=
  do values <- for_each (fun i => int_getitem dict_object (Z.of_nat i))
                 (seq 0 (size dict_object));
  np_array values.

(** *** write_to_file *)

Definition newline : string := String (ascii_of_nat 10) EmptyString.

(** The files, by path.  A file is opened for writing with mode ["w"], which
    empties it, or with mode ["a"], which keeps what it holds. *)
Inductive open_mode : Type := ModeW | ModeA.

Definition open_file (fs : gmap string string) (file : string) (mode : open_mode) : string :=
  match mode with
  | ModeW => EmptyString
  | ModeA => default EmptyString (fs !! file)
  end.

(** The [text] argument: a [str], a [list] of strings, or neither. *)
Inductive text_arg : Type :=
  | Str (s : string)
  | Lines (l : list string)
  | OtherText.

Definition write_to_file (fs : gmap string string) (file : string) (text : text_arg)
    (mode : open_mode) : gmap string string :=
  let w := open_file fs file mode in
  let w := match text with
           | Str s => String.append w s
           | Lines l => String.append w (join newline l)
           | OtherText => w
           end in
  <[file := w]> fs.

(** *** del_index_column *)

(** A data frame as the list of its columns, each with its name.
    [str.contains("^Unnamed")] holds for the names that start with
    "Unnamed". *)
Definition del_index_column {C} (df : list (string * C)) : list (string * C) :=
  List.filter (fun col => negb (String.prefix "Unnamed" (fst col))) df.

End GeneralUtilsRest.

(** ** news_recommendation/experiment/preprocess/tokenize_text.py *)
Module TokenizeText.
Import GeneralUtils GeneralUtilsRest.

(** [c.isspace()] for a character below 256. *)
Definition is_space (c : ascii) : bool :=
  let n := nat_of_ascii c in
  (Nat.leb 9 n && Nat.leb n 13) || (Nat.leb 28 n && Nat.leb n 32)
  || Nat.eqb n 133 || Nat.eqb n 160.

(** [s.split()]: the maximal runs of characters that are not white space.
    [cur] is the run being read. *)
Fixpoint split_from (cur : string) (s : string) : list string :=
  match s with
  | EmptyString =>
      match cur with
      | EmptyString => []
      | _ => [cur]
      end
  | String c s' =>
      if is_space c
      then match cur with
           | EmptyString => split_from EmptyString s'
           | _ => cur :: split_from EmptyString s'
           end
      else split_from (String.append cur (String c EmptyString)) s'
  end.

Definition split (s : string) : list string := split_from EmptyString s.

(** The body of the loop of [save_jsonl] (lines 10-15) on the rows that
    [zip] yields from [line_no] on; [outfile] is what has been written. *)
Fixpoint write_rows (dumps : string -> string -> string) (line_no : nat)
    (rows : list (string * string)) (outfile : string) : string :=
  match rows with
  | [] => outfile
  | (doc, doc_idx) :: rest =>
      let json_doc := dumps doc_idx doc in
      let outfile := if Nat.eqb line_no 0
                     then String.append outfile json_doc
                     else String.append outfile (String.append newline json_doc) in
      write_rows dumps (S line_no) rest outfile
  end.

(** [save_jsonl(doc_df, path)]; [dumps doc_idx doc] is
    [json.dumps({"id": doc_idx, "text": doc})]. *)
Definition save_jsonl (dumps : string -> string -> string) (fs : gmap string string)
    (docs news_id : list string) (path : string) : gmap string string :=
  <[path := write_rows dumps 0 (zip docs news_id) (open_file fs path ModeW)]> fs.

(** A row of the data frame. *)
Record news := {
  title : string;
  abstract : string;
  body : string
}.

(** [tokenize_mind] on the rows that loading and cleaning give (lines
    20-21): each row with its [tokenized_text]. *)
Definition tokenize_mind (word_tokenize : string -> list string) (ori_dict : gmap string nat)
    (df : list news) : list (news * string) :=
  map (fun r =>
         let tokenized_text :=
           String.append (title r) (String.append " " (String.append (abstract r)
             (String.append " " (body r)))) in
         (r, join " " (List.filter (fun s => match ori_dict !! s with
                                             | Some _ => true
                                             | None => false
                                             end)
                                   (word_tokenize tokenized_text))))
      df.

(** [count_tokens(df)] *)
Definition count_tokens (df : list (news * string)) : nat :=
  foldl (fun count texts => count + length (split texts)) 0 (map snd df).

(** A token: a non-empty string without white space. *)
Fixpoint has_space (s : string) : bool :=
  match s with
  | EmptyString => false
  | String c s' => is_space c || has_space s'
  end.

Definition is_token (s : string) : Prop := s <> EmptyString /\ has_space s = false.

(** The text of a row that [tokenize_mind] tokenizes, and the tokens of it
    that are in the dictionary. *)
Definition row_text (r : news) : string :=
  String.append (title r) (String.append " " (String.append (abstract r)
    (String.append " " (body r)))).

Definition dictionary_tokens (word_tokenize : string -> list string)
    (ori_dict : gmap string nat) (r : news) : list string :=
  List.filter (fun s => match ori_dict !! s with
                        | Some _ => true
                        | None => false
                        end)
              (word_tokenize (row_text r)).

End TokenizeText.

(** ** A small concrete trainer

    Integer-valued tensors, a model with constant outputs and a loader whose
    iterator yields one batch more than [len(loader)] reports. *)
Module Fixture.
Import GeneralUtils NCTrainer.

Definition batch : tensor_dict Z :=
  [("news", Tensor 5%Z Cpu); ("label", Tensor 1%Z Cpu)].

Definition model : model_fn Z :=
  fun _ => [("predicted", Tensor 7%Z (Cuda 0));
            ("attention", Tensor 2%Z (Cuda 0));
            ("entropy", Tensor 3%Z (Cuda 0))].

Definition crit (predicted label : tensor Z) : tensor Z :=
  Tensor (t_data predicted - t_data label)%Z (t_device predicted).

Definition cfg : config Z :=
  {| cfg_entropy_constraint := Some true;
     cfg_calculate_entropy := None;
     cfg_alpha := Some 2%Z |}.

(** [len(train_loader)] is 2. *)
Definition data_train : loader Z :=
  {| loader_len := 2; batch_size := 4; batches := [batch; batch] |}.

(** The prepared loader yields three batches. *)
Definition prepared : loader Z :=
  {| loader_len := 2; batch_size := 4; batches := [batch; batch; batch] |}.

Definition self : trainer Z :=
  init cfg data_train None prepared model (Cuda 0) crit [] false false.

Definition tensor_len (t : tensor Z) : nat := 1.
Definition tolist (t : tensor Z) : list Z := [t_data t].
Definition argmax_tolist (t : tensor Z) : list Z := [0%Z].
(** Modelled from the spec: [get_topic_list] of [modules.utils] is not among
    the sources.  Per topic it ranks the vocabulary indices of non-zero
    weight by descending weight, ties by lower index, keeps the first
    [top_n] and names them through the index-to-word dictionary. *)
Fixpoint insert_desc (p : nat * Z) (l : list (nat * Z)) : list (nat * Z) :=
  match l with
  | [] => [p]
  | q :: l' => if (snd q <=? snd p)%Z then p :: l else q :: insert_desc p l'
  end.

Definition rank_row (row : list Z) : list (nat * Z) :=
  foldr insert_desc [] (List.filter (fun p => negb (snd p =? 0)%Z) (imap pair row)).

Definition get_topic_list (dist : ndarray Z) (top_n : Z) (index_to_word : gmap nat string)
    : list (list string) :=
  map (fun row => omap (fun p => index_to_word !! fst p) (take (Z.to_nat top_n) (rank_row row)))
      (rows dist).

(** The rows of the embedding matrix are unit vectors, whose cosine is their
    dot product. *)
Definition dot {T} `{Scalar T} (x y : list T) : T := foldl s_add s_zero (zip_with s_mul x y).

Definition co : collaborators Z :=
  {| NCTrainer.get_topic_list := get_topic_list;
     compute_npmi := fun _ _ => [];
     compute_coherence := fun _ _ _ => [];
     save_topic_info := fun _ _ _ => [];
     round_mean := foldl Z.add 0%Z;
     np_round4 := fun x => x;
     cos := dot;
     embeddings := [[1; 0]; [0; 1]; [0; 1]]%Z;
     head_num := 1%Z;
     is_main_process := true;
     getcwd := ["home"; "explainable_nrs"; "src"] |}.

(** The same embedding matrix over the rationals. *)
Definition co_rational : collaborators Q :=
  {| NCTrainer.get_topic_list := fun _ _ _ => [];
     compute_npmi := fun _ _ => [];
     compute_coherence := fun _ _ _ => [];
     save_topic_info := fun _ _ _ => [];
     round_mean := foldl Qplus 0%Q;
     np_round4 := fun x => x;
     cos := dot;
     embeddings := [[1; 0]; [0; 1]; [0; 1]]%Q;
     head_num := 1%Z;
     is_main_process := true;
     getcwd := ["home"; "explainable_nrs"; "src"] |}.

Definition word_dict : list (string * nat) := [("apple", 0); ("pear", 1); ("plum", 2)].

Definition topic_dist : ndarray Z := NdArray 3 [[5; 3; 1]%Z].

(** A whitelist without "apple", in a file of the given name. *)
Definition whitelist (name : string) : dir_entry :=
  {| entry_name := name; entry_json := {["pear" := 1; "plum" := 2]} |}.

Definition eval_cfg (method : option str_or_list) (dir : option (list dir_entry)) : eval_config :=
  {| topic_evaluation_method := method;
     top_n_cfg := Some 2%Z;
     coherence_method := None;
     save_topic_info_cfg := None;
     sort_score_cfg := None;
     post_word_dict_dir := dir |}.
End Fixture.

(** ** More concrete inputs *)
Module FixtureRest.
Import GeneralUtils NCTrainer GeneralUtilsRest TokenizeText.

(** A trainer with a validation loader and a scheduler, whose training
    loader yields as many batches as it reports. *)
Definition self_full : trainer Z :=
  init Fixture.cfg Fixture.data_train (Some Fixture.data_train) Fixture.data_train
    Fixture.model (Cuda 0) Fixture.crit [] true false.

Definition start : epoch_state Z :=
  {| trace := [ModelTrain]; tensors := []; labels := []; predicts := [] |}.

(** A coherence that tells the method "c_npmi" from every other one. *)
Definition co_slow : collaborators Z :=
  {| NCTrainer.get_topic_list := Fixture.get_topic_list;
     compute_npmi := fun _ _ => [];
     compute_coherence := fun _ m _ => if String.eqb m "c_npmi" then [1%Z] else [0%Z];
     save_topic_info := fun _ _ _ => [];
     round_mean := foldl Z.add 0%Z;
     np_round4 := fun x => x;
     cos := Fixture.dot;
     embeddings := [[1; 0]; [0; 1]; [0; 1]]%Z;
     head_num := 1%Z;
     is_main_process := true;
     getcwd := ["home"; "explainable_nrs"; "src"] |}.

(** The collaborators of the trainer in a working directory outside the
    project. *)
Definition co_elsewhere : collaborators Z :=
  {| NCTrainer.get_topic_list := Fixture.get_topic_list;
     compute_npmi := fun _ _ => [];
     compute_coherence := fun _ _ _ => [];
     save_topic_info := fun _ _ _ => [];
     round_mean := foldl Z.add 0%Z;
     np_round4 := fun x => x;
     cos := Fixture.dot;
     embeddings := [[1; 0]; [0; 1]; [0; 1]]%Z;
     head_num := 1%Z;
     is_main_process := true;
     getcwd := ["tmp"; "runs"] |}.

(** A whitelist with the whole vocabulary, and a distribution of two
    columns. *)
Definition full_whitelist : dir_entry :=
  {| entry_name := "all.json"; entry_json := {["apple" := 0; "pear" := 1; "plum" := 2]} |}.

Definition narrow_dist : ndarray Z := NdArray 2 [[5; 3]%Z].

(** Dictionaries from ids to values: one with the keys 0 and 1, one with a
    gap at 1, and the two halves that two ranks hold of a vector. *)
Definition dense : gmap Z nat := {[0%Z := 5%nat; 1%Z := 7%nat]}.
Definition gapped : gmap Z nat := {[0%Z := 5%nat; 2%Z := 7%nat]}.
Definition halves : list (gmap Z nat) := [{[0%Z := 10%nat]}; {[1%Z := 20%nat]}].

(** An [np.array] that takes lists of at most three numbers. *)
Definition np_array (l : list nat) : result (list nat) :=
  if Nat.leb (length l) 3 then ret l else raise (ValueError "too long").

(** Two news with a dictionary of three words. *)
Definition ori_dict : gmap string nat := {["rain" := 1; "snow" := 2; "wind" := 3]}.

Definition df : list news :=
  [ {| title := "rain and snow"; abstract := "wind"; body := "no sun" |};
    {| title := "sun"; abstract := "snow snow"; body := "ice" |} ].

End FixtureRest.

(** * Properties *)

#[global] Instance Z_scalar_laws : ScalarLaws Z.
Proof. split; simpl; intros; lia. Qed.

(** Fractions are not reduced by [Qplus], so its monoid laws hold for
    Leibniz equality. *)
#[global] Instance Q_scalar_laws : ScalarLaws Q.
Proof.
  split; cbn [s_add s_zero Q_scalar].
  - intros [an ad] [bn bd] [cn cd]. unfold Qplus. cbn [Qnum Qden].
    f_equal; [|apply Pos.mul_assoc]. rewrite !Pos2Z.inj_mul. ring.
  - intros [an ad]. unfold Qplus. cbn [Qnum Qden]. f_equal. ring.
  - intros [an ad]. unfold Qplus. cbn [Qnum Qden]. f_equal; [ring|apply Pos.mul_1_r].
Qed.

(** ** Facts about general_utils.py *)
Module GeneralUtilsFacts.
Import GeneralUtils.

(** *** news_sampling *)

Lemma sample_pool_length (draws : nat -> nat) (k : nat) :
  forall (i : nat) (pool : list Z),
    k <= length pool -> length (sample_pool draws i k pool) = k.
Proof.
  induction k as [|k IH]; intros i pool Hk; [reflexivity|].
  cbn [sample_pool].
  assert (Hj : draws i mod length pool < length pool)
    by (apply Nat.mod_upper_bound; lia).
  destruct (lookup_lt_is_Some_2 pool _ Hj) as [x Hx].
  destruct (lookup_lt_is_Some_2 pool (length pool - 1) ltac:(lia)) as [y Hy].
  rewrite Hx, Hy. cbn [length]. f_equal.
  apply IH. rewrite length_take, length_insert. lia.
Qed.




Example news_sampling_pads : news_sampling (fun i => i) [4; 5]%Z 5%Z = inr [4; 5; 0; 0; 0]%Z.
Proof. reflexivity. Qed.

Example news_sampling_samples : news_sampling (fun i => i + 1) [7; 8; 9]%Z 2%Z = inr [8; 7]%Z.
Proof. reflexivity. Qed.

(** *** gather_dict *)

Section GatherFacts.
Context {K : Type} `{Countable K} {V : Type}.

(** The loop over [range(process_num)] visits the gathered dictionaries in
    rank order. *)
Lemma update_loop_foldl (ds : list (gmap K V)) (d0 : gmap K V) :
  foldl (fun d i => dict_update d (default ∅ (ds !! i))) d0 (seq 0 (length ds))
  = foldl dict_update d0 ds.
Proof.
  rewrite <- (foldl_fmap dict_update d0 (seq 0 (length ds)) (fun i => default ∅ (ds !! i))).
  f_equal. apply list_eq. intros i. rewrite list_lookup_fmap.
  destruct (ds !! i) as [d|] eqn:Hd.
  - rewrite lookup_seq_lt by (by eapply lookup_lt_Some). simpl. by rewrite Hd.
  - rewrite lookup_seq_ge; [done|]. by apply lookup_ge_None.
Qed.

(** A key of the folded dictionary is bound by the last dictionary of the
    list that has it, and by the initial dictionary if none has it. *)
Lemma foldl_update_lookup (ds : list (gmap K V)) (d0 : gmap K V) (k : K) (v : V) :
  foldl dict_update d0 ds !! k = Some v <->
  (exists i d, ds !! i = Some d /\ d !! k = Some v /\
     forall j d', i < j -> ds !! j = Some d' -> d' !! k = None) \/
  (d0 !! k = Some v /\ forall j d', ds !! j = Some d' -> d' !! k = None).
Proof.
  induction ds as [|x ds IH] using rev_ind.
  - simpl. split.
    + intros Hk. right. split; [done|]. intros j d' Hj. by rewrite lookup_nil in Hj.
    + intros [(i & d & Hi & _)|[Hk _]]; [by rewrite lookup_nil in Hi|done].
  - rewrite foldl_snoc. unfold dict_update at 1.
    rewrite lookup_union_Some_raw, IH. clear IH. split.
    + intros [Hx|[Hx [(i & d & Hi & Hd & Hlast)|[Hd Hnone]]]].
      * left. exists (length ds), x. split; [by rewrite list_lookup_middle|].
        split; [done|]. intros j d' Hlt Hj.
        apply lookup_lt_Some in Hj. rewrite length_app in Hj. simpl in Hj. lia.
      * left. exists i, d. split; [by apply lookup_app_l_Some|]. split; [done|].
        intros j d' Hlt Hj. apply lookup_app_Some in Hj as [Hj|[Hge Hj]].
        -- by eapply Hlast.
        -- apply list_lookup_singleton_Some in Hj as [_ <-]. done.
      * right. split; [done|]. intros j d' Hj.
        apply lookup_app_Some in Hj as [Hj|[Hge Hj]].
        -- by eapply Hnone.
        -- apply list_lookup_singleton_Some in Hj as [_ <-]. done.
    + intros [(i & d & Hi & Hd & Hlast)|[Hd Hnone]].
      * apply lookup_app_Some in Hi as [Hi|[Hge Hi]].
        -- right. split.
           ++ apply (Hlast (length ds) x); [by eapply lookup_lt_Some|].
              by rewrite list_lookup_middle.
           ++ left. exists i, d. split; [done|]. split; [done|].
              intros j d' Hlt Hj. apply (Hlast j d' Hlt). by apply lookup_app_l_Some.
        -- apply list_lookup_singleton_Some in Hi as [_ <-]. by left.
      * right. split.
        -- apply (Hnone (length ds) x). by rewrite list_lookup_middle.
        -- right. split; [done|]. intros j d' Hj.
           apply (Hnone j d'). by apply lookup_app_l_Some.
Qed.

Lemma size_union_list_disjoint (ds : list (gmap K V)) :
  map_disjoint_list ds -> size (⋃ ds) = sum_list (size <$> ds).
Proof.
  induction ds as [|d ds IH]; intros Hdisj; simpl.
  - apply map_size_empty.
  - apply map_disjoint_list_cons in Hdisj as [Hd Hds].
    rewrite map_size_disj_union, IH; [done|done|].
    apply map_disjoint_union_list_r. eapply Forall_impl; [exact Hd|].
    intros m Hm. by symmetry.
Qed.

(** C3.  When every rank [i] of the group contributes [parts !! i], the
    caller being one of them, [gather_dict] returns a mapping that binds each
    key to the value of the highest rank whose part has the key.  When the
    parts are pairwise disjoint this is their union, and no key is lost or
    counted twice. *)
Theorem gather_dict_last_writer_wins (parts : list (gmap K V)) (r : nat) (own : gmap K V) :
  parts !! r = Some own ->
  exists merged : gmap K V,
    gather_dict (Some {| peers := parts; rank := r |}) own (length parts) = inr merged /\
    (forall (k : K) (v : V),
       merged !! k = Some v <->
       exists i d, parts !! i = Some d /\ d !! k = Some v /\
         forall j d', i < j -> parts !! j = Some d' -> d' !! k = None) /\
    (map_disjoint_list parts ->
       merged = ⋃ parts /\
       size merged = sum_list (size <$> parts) /\
       forall i d, parts !! i = Some d -> d ⊆ merged).
Proof.
  intros Hown. unfold gather_dict, all_gather_object. cbn [peers rank].
  rewrite list_insert_id by done.
  rewrite length_replicate, Nat.ltb_irrefl. cbn [bind ret].
  rewrite drop_ge, app_nil_r by (by rewrite length_replicate).
  eexists. split; [reflexivity|].
  rewrite update_loop_foldl.
  assert (Hchar : forall k v,
    foldl dict_update own parts !! k = Some v <->
    exists i d, parts !! i = Some d /\ d !! k = Some v /\
      forall j d', i < j -> parts !! j = Some d' -> d' !! k = None).
  { intros k v. rewrite foldl_update_lookup. split; [|by left].
    intros [Hl|[Hk Hnone]]; [done|].
    rewrite (Hnone r own Hown) in Hk. discriminate. }
  split; [exact Hchar|].
  intros Hdisj.
  assert (Heq : foldl dict_update own parts = ⋃ parts).
  { apply map_eq. intros k. apply option_eq. intros v.
    rewrite Hchar, lookup_union_list_Some by done. split.
    - intros (i & d & Hi & Hd & _). exists d. split; [|done].
      by eapply list_elem_of_lookup_2.
    - intros (d & Hin & Hd). apply list_elem_of_lookup in Hin as [i Hi].
      exists i, d. split; [done|]. split; [done|].
      intros j d' Hlt Hj.
      assert (Hdd : d ##ₘ d') by (apply (Hdisj i j); [lia|done|done]).
      destruct (d' !! k) as [v'|] eqn:Hd'; [|done].
      exfalso. eapply map_disjoint_spec; eauto. }
  split; [exact Heq|]. split.
  - rewrite Heq. by apply size_union_list_disjoint.
  - intros i d Hi. apply map_subseteq_spec. intros k v Hd.
    rewrite Heq. eapply lookup_union_list_Some_2; [|done|done].
    by eapply list_elem_of_lookup_2.
Qed.

(** C9.  Without an initialized distributed runtime [gather_dict] returns
    its argument: the same keys with the same values. *)
Theorem gather_dict_single_process (dict_object : gmap K V) (process_num : nat) :
  gather_dict None dict_object process_num = inr dict_object.
Proof. reflexivity. Qed.
End GatherFacts.

(** Three ranks with disjoint keys: the union. *)
Example gather_three_ranks :
  gather_dict (Some {| peers := [{[1 := 10]}; {[2 := 20]}; {[3 := 30]}]; rank := 1 |})
    ({[2 := 20]} : gmap nat nat) 3
  = inr ({[1 := 10; 2 := 20; 3 := 30]} : gmap nat nat).
Proof. by vm_compute. Qed.

(** A key held by ranks 0 and 2: rank 2 wins, also on rank 0. *)
Example gather_overlap :
  gather_dict (Some {| peers := [{[1 := 10]}; {[2 := 20]}; {[1 := 30]}]; rank := 0 |})
    ({[1 := 10]} : gmap nat nat) 3 = inr ({[1 := 30; 2 := 20]} : gmap nat nat).
Proof. by vm_compute. Qed.

Lemma gather_dict_last_writer_wins_witness :
  exists merged : gmap nat nat,
    gather_dict (Some {| peers := [{[1 := 10]}; {[2 := 20]}; {[1 := 30]}]; rank := 0 |})
      {[1 := 10]} 3 = inr merged /\
    merged !! 1 = Some 30.
Proof.
  destruct (gather_dict_last_writer_wins
              ([{[1 := 10]}; {[2 := 20]}; {[1 := 30]}] : list (gmap nat nat)) 0 {[1 := 10]}
              eq_refl) as (merged & Hrun & Hlast & _).
  exists merged. split; [exact Hrun|].
  apply Hlast. exists 2, {[1 := 30]}. split; [reflexivity|]. split; [reflexivity|].
  intros j d' Hlt Hj. destruct j as [|[|[|j]]]; try lia; discriminate.
Defined.

(** *** load_batch_data *)

(** C6, as the code has it.  The transfer is skipped, and the batch returned
    as it is, only when the distributed runtime is initialized and
    [multi_gpu] is set; in every other case the result has the same keys and
    contents, with every tensor on the compute device. *)
Theorem load_batch_data_placement {T : Type} (dist_initialized : bool)
    (batch_dict : list (string * tensor T)) (dev : device) (multi_gpu : bool) :
  (dist_initialized = true /\ multi_gpu = true ->
     load_batch_data dist_initialized batch_dict dev multi_gpu = batch_dict) /\
  (dist_initialized = false \/ multi_gpu = false ->
     let out := load_batch_data dist_initialized batch_dict dev multi_gpu in
     map fst out = map fst batch_dict /\
     map (fun kv => t_data (snd kv)) out = map (fun kv => t_data (snd kv)) batch_dict /\
     Forall (fun kv => t_device (snd kv) = dev) out).
Proof.
  unfold load_batch_data. split.
  - intros [-> ->]. reflexivity.
  - intros Hoff.
    assert (dist_initialized && multi_gpu = false) as ->
      by (destruct Hoff as [-> | ->]; [reflexivity|apply andb_false_r]).
    cbv zeta. split; [|split].
    + rewrite map_map. reflexivity.
    + rewrite map_map. reflexivity.
    + apply Forall_forall. intros kv Hin.
      apply list_elem_of_In, in_map_iff in Hin as (kv' & <- & _). reflexivity.
Qed.

Lemma load_batch_data_placement_witness :
  load_batch_data true [("label", Tensor 1%Z Cpu)] (Cuda 0) true = [("label", Tensor 1%Z Cpu)] /\
  Forall (fun kv => t_device (snd kv) = Cuda 0)
    (load_batch_data false [("label", Tensor 1%Z Cpu)] (Cuda 0) true).
Proof.
  split.
  - apply (proj1 (load_batch_data_placement true [("label", Tensor 1%Z Cpu)] (Cuda 0) true)).
    split; reflexivity.
  - apply (proj2 (load_batch_data_placement false [("label", Tensor 1%Z Cpu)] (Cuda 0) true)).
    left; reflexivity.
Defined.

(** With [multi_gpu] set but no distributed runtime, the batch is moved all
    the same. *)
Lemma load_batch_data_multi_gpu_moves :
  load_batch_data false [("label", Tensor 1%Z Cpu)] (Cuda 0) true
    = [("label", Tensor 1%Z (Cuda 0))] /\
  load_batch_data false [("label", Tensor 1%Z Cpu)] (Cuda 0) true
    <> [("label", Tensor 1%Z Cpu)].
Proof. split; [reflexivity|discriminate]. Qed.

End GeneralUtilsFacts.

(** ** Facts about nc_trainer.py *)
Module NCTrainerFacts.
Import GeneralUtils NCTrainer.

Lemma bind_inr {A B} (m : result A) (k : A -> result B) (b : B) :
  bind m k = inr b -> exists a, m = inr a /\ k a = inr b.
Proof. destruct m as [e|a]; simpl; [discriminate|eauto]. Qed.

Lemma getitem_inr {V} (d : list (string * V)) (key : string) (v : V) :
  getitem d key = inr v <-> assoc key d = Some v.
Proof.
  unfold getitem, ret, raise. destruct (assoc key d); split; intros Heq;
    try discriminate; congruence.
Qed.

(** Inverts the hypotheses [bind m k = inr b] of a run that returned. *)
Ltac invert_run :=
  repeat match goal with
  | Hrun : bind _ _ = inr _ |- _ =>
      let a := fresh "a" in
      let Ha := fresh "Ha" in
      apply bind_inr in Hrun as (a & Ha & Hrun)
  | Hrun : ret _ = inr _ |- _ => injection Hrun as Hrun; subst
  | Hrun : raise _ = inr _ |- _ => discriminate Hrun
  end.

(** Allocation appends to the store: the new object is at the old length. *)
Lemma store_lookup_new {A} (st : list A) (x : A) : (st ++ [x]) !! length st = Some x.
Proof. by apply list_lookup_middle. Qed.

Lemma store_insert_new {A} (st : list A) (x y : A) :
  <[length st := y]> (st ++ [x]) = st ++ [y].
Proof. rewrite insert_app_r_alt by lia. by rewrite Nat.sub_diag. Qed.

Section TrainerFacts.
Context {T : Type} `{Scalar T}.
Implicit Types (self : trainer T) (batch_dict : tensor_dict T) (model : option (model_fn T)).
Implicit Types (st : store T).

(** [run_model] returns whenever the batch has a label and the model output
    has the fields that the flags ask for; this is what it returns. *)
Lemma run_model_returns self batch_dict model (multi_gpu : bool) st (predicted label entropy attention : tensor T) :
  assoc "predicted" (model_output self batch_dict model multi_gpu) = Some predicted ->
  assoc "label" (load_batch_data (dist_initialized self) batch_dict (self_device self) multi_gpu)
    = Some label ->
  (entropy_constraint self || calculate_entropy self = true ->
     assoc "entropy" (model_output self batch_dict model multi_gpu) = Some entropy) ->
  (calculate_entropy self = true ->
     assoc "attention" (model_output self batch_dict model multi_gpu) = Some attention) ->
  let raw := criterion self predicted label in
  run_model self batch_dict model multi_gpu st =
  inr ([("label", Held label); ("loss", Ref (length st)); ("predict", Held predicted)]
         ++ (if calculate_entropy self
             then [("attention_weight", Held attention); ("entropy", Held entropy)]
             else []),
       st ++ [if entropy_constraint self
              then Tensor (s_add (t_data raw) (s_mul (alpha self) (t_data entropy))) (t_device raw)
              else raw]).
Proof.
  intros Hp Hl He Ha raw. unfold run_model, model_output, iadd, store, loc in *.
  set (b := load_batch_data _ _ _ _) in *.
  set (output := match model with Some m => m b | None => self_model self b end) in *.
  apply getitem_inr in Hp, Hl. rewrite Hp, Hl. cbn [bind ret alloc].
  destruct (entropy_constraint self) eqn:Hec, (calculate_entropy self) eqn:Hce;
    cbn [orb] in He;
    repeat match goal with
    | Hx : true = true -> _ |- _ => specialize (Hx eq_refl); apply getitem_inr in Hx; rewrite Hx
    end; cbn [bind ret]; unfold iadd, scale;
    rewrite ?store_lookup_new; cbn [bind ret t_data t_device];
    rewrite ?store_insert_new; reflexivity.
Qed.
(** C2.  The loss that a caller reads from the returned dictionary is the
    tensor that [loss += alpha * entropy] has written into: with
    [entropy_constraint] set it holds the criterion loss plus
    [alpha * entropy], without it it is the tensor the criterion returned. *)
Theorem run_model_loss_carries_regularization self batch_dict model (multi_gpu : bool) st
    (predicted label entropy attention : tensor T) :
  assoc "predicted" (model_output self batch_dict model multi_gpu) = Some predicted ->
  assoc "label" (load_batch_data (dist_initialized self) batch_dict (self_device self) multi_gpu)
    = Some label ->
  (entropy_constraint self || calculate_entropy self = true ->
     assoc "entropy" (model_output self batch_dict model multi_gpu) = Some entropy) ->
  (calculate_entropy self = true ->
     assoc "attention" (model_output self batch_dict model multi_gpu) = Some attention) ->
  exists (r : out_dict T * store T) (loss : tensor T),
    run_model self batch_dict model multi_gpu st = inr r /\
    out_field r "loss" = Some loss /\
    (entropy_constraint self = true ->
       t_data loss = s_add (t_data (criterion self predicted label))
                           (s_mul (alpha self) (t_data entropy))) /\
    (entropy_constraint self = false -> loss = criterion self predicted label).
Proof.
  intros Hp Hl He Ha.
  pose proof (run_model_returns self batch_dict model multi_gpu st _ _ _ _ Hp Hl He Ha) as Hrun.
  cbv zeta in Hrun. eexists. eexists. split; [exact Hrun|].
  split.
  - unfold out_field, deref, store, loc in *. cbn [fst snd].
    destruct (calculate_entropy self); cbn; apply store_lookup_new.
  - destruct (entropy_constraint self); split; intros Hflag;
      try discriminate Hflag; reflexivity.
Qed.

(** C7.  [calculate_entropy] is [entropy_constraint] unless the
    configuration sets it, and the dictionary that [run_model] returns has
    the fields [attention_weight] and [entropy] exactly when it is set. *)
Theorem calculate_entropy_default_and_fields :
  (forall (cfg : config T) (data_train : loader T) (data_valid : option (loader T))
          (prepared : loader T) (m : model_fn T) (dev : device)
          (crit : tensor T -> tensor T -> tensor T)
          (mets : list (string * (list Z -> list Z -> T))) (has_sched dist : bool),
     let self := init cfg data_train data_valid prepared m dev crit mets has_sched dist in
     (cfg_calculate_entropy cfg = None -> calculate_entropy self = entropy_constraint self) /\
     (forall b : bool, cfg_calculate_entropy cfg = Some b -> calculate_entropy self = b)) /\
  (forall self batch_dict model (multi_gpu : bool) st
          (predicted label entropy attention : tensor T),
     assoc "predicted" (model_output self batch_dict model multi_gpu) = Some predicted ->
     assoc "label" (load_batch_data (dist_initialized self) batch_dict (self_device self)
                      multi_gpu) = Some label ->
     (entropy_constraint self || calculate_entropy self = true ->
        assoc "entropy" (model_output self batch_dict model multi_gpu) = Some entropy) ->
     (calculate_entropy self = true ->
        assoc "attention" (model_output self batch_dict model multi_gpu) = Some attention) ->
     exists r : out_dict T * store T,
       run_model self batch_dict model multi_gpu st = inr r /\
       (calculate_entropy self = true ->
          out_field r "attention_weight" = Some attention /\
          out_field r "entropy" = Some entropy) /\
       (calculate_entropy self = false ->
          assoc "attention_weight" (fst r) = None /\ assoc "entropy" (fst r) = None)).
Proof.
  split.
  - intros cfg data_train data_valid prepared m dev crit mets has_sched dist self.
    subst self. unfold init. cbn [calculate_entropy entropy_constraint].
    split.
    + intros ->. reflexivity.
    + intros b ->. reflexivity.
  - intros self batch_dict model multi_gpu st predicted label entropy attention Hp Hl He Ha.
    pose proof (run_model_returns self batch_dict model multi_gpu st _ _ _ _ Hp Hl He Ha) as Hrun.
    cbv zeta in Hrun. eexists. split; [exact Hrun|].
    destruct (calculate_entropy self); split; intros Hflag; try discriminate Hflag;
      split; reflexivity.
Qed.
End TrainerFacts.

(** *** The epoch loop *)

Section EpochFacts.
Context {T : Type} `{Scalar T}.
Variable tensor_len : tensor T -> nat.
Variable tolist : tensor T -> list Z.
Variable argmax_tolist : tensor T -> list Z.
Implicit Types (self : trainer T) (s : epoch_state T) (tr : list (event T)).

Lemma optimizer_steps_app tr tr' :
  optimizer_steps (tr ++ tr') = optimizer_steps tr + optimizer_steps tr'.
Proof. unfold optimizer_steps. by rewrite List.filter_app, length_app. Qed.

Lemma update_metrics_no_step self (p : phase) (out : option (out_dict T * store T))
    (ps ls : option (list Z)) tr :
  update_metrics tensor_len self p out ps ls = inr tr -> optimizer_steps tr = 0.
Proof.
  assert (Hmets : forall (xs ys : list Z),
    optimizer_steps (map (fun met => MetricsUpdate p (fst met) (snd met xs ys) (length ys))
                         (metric_funcs self)) = 0).
  { intros xs ys. induction (metric_funcs self) as [|m ms IH]; [reflexivity|exact IH]. }
  unfold update_metrics. intros Hrun.
  destruct ps as [xs|], ls as [ys|]; try (injection Hrun as <-; apply Hmets);
    (destruct out as [r|]; [|discriminate Hrun]); invert_run;
    (destruct (calculate_entropy self); invert_run; [|reflexivity]);
    (destruct (Nat.eqb _ 0); invert_run); reflexivity.
Qed.

(** Every iteration of the training loop that completes performs exactly
    one [optimizer.step()]. *)
Lemma train_step_optimizer_steps self (epoch : Z) (batch_idx : nat)
    (batch_dict : tensor_dict T) s s' :
  train_step tensor_len tolist argmax_tolist self epoch batch_idx batch_dict s = inr s' ->
  optimizer_steps (trace s') = S (optimizer_steps (trace s)).
Proof.
  unfold train_step. intros Hrun. invert_run.
  destruct (Nat.eqb (log_step self) 0); invert_run.
  match goal with
  | Hm : update_metrics _ _ _ _ _ _ = inr ?evs |- _ =>
      apply update_metrics_no_step in Hm; rename Hm into Hevs
  end.
  destruct (Nat.eqb (batch_idx mod log_step self) 0);
    cbn [trace emit]; rewrite !optimizer_steps_app, ?Hevs; cbn; lia.
Qed.

(** The loop stops after the iteration whose index is [len_epoch], that is
    after [len_epoch + 1] iterations, or earlier when the batches run out. *)
Lemma train_batches_optimizer_steps self (epoch : Z) (bs : list (tensor_dict T)) :
  forall (batch_idx : nat) s s',
    batch_idx <= len_epoch self ->
    train_batches tensor_len tolist argmax_tolist self epoch batch_idx bs s = inr s' ->
    optimizer_steps (trace s') =
    optimizer_steps (trace s) + Nat.min (length bs) (S (len_epoch self - batch_idx)).
Proof.
  induction bs as [|b bs IH]; intros batch_idx s s' Hle Hrun; cbn [train_batches] in Hrun.
  - invert_run. cbn. lia.
  - invert_run.
    match goal with
    | Hs : train_step _ _ _ _ _ _ _ _ = inr _ |- _ =>
        apply train_step_optimizer_steps in Hs; rename Hs into Hstep
    end.
    destruct (Nat.eqb_spec batch_idx (len_epoch self)) as [->|Hne].
    + invert_run. rewrite Hstep, Nat.sub_diag. cbn [length]. lia.
    + apply IH in Hrun; [|lia]. rewrite Hrun, Hstep. cbn [length].
      replace (S (len_epoch self - batch_idx)) with (S (S (len_epoch self - S batch_idx))) by lia.
      lia.
Qed.

Lemma evaluate_batches_no_step self (m : model_fn T) (epoch : Z) (n : nat)
    (bs : list (tensor_dict T)) :
  forall (batch_idx : nat) s s',
    evaluate_batches tensor_len tolist argmax_tolist self m epoch n batch_idx bs s = inr s' ->
    optimizer_steps (trace s') = optimizer_steps (trace s).
Proof.
  induction bs as [|b bs IH]; intros batch_idx s s' Hrun; cbn [evaluate_batches] in Hrun.
  - invert_run. reflexivity.
  - invert_run. apply IH in Hrun. rewrite Hrun. cbn [trace emit].
    match goal with
    | Hm : update_metrics _ _ _ _ _ _ = inr ?evs |- _ =>
        apply update_metrics_no_step in Hm; rename Hm into Hevs
    end.
    rewrite !optimizer_steps_app, Hevs. cbn. lia.
Qed.

Lemma evaluate_no_step self (ld : loader T) (m : model_fn T) (epoch : Z) s s' :
  evaluate tensor_len tolist argmax_tolist self ld m epoch s = inr s' ->
  optimizer_steps (trace s') = optimizer_steps (trace s).
Proof.
  unfold evaluate. intros Hrun. invert_run.
  repeat match goal with
  | Hv : evaluate_batches _ _ _ _ _ _ _ _ _ _ = inr _ |- _ =>
      apply evaluate_batches_no_step in Hv; rename Hv into Heval
  | Hm : update_metrics _ _ _ _ _ _ = inr ?evs |- _ =>
      apply update_metrics_no_step in Hm; rename Hm into Hevs
  end.
  cbn [trace emit] in *. rewrite !optimizer_steps_app, Hevs, Heval.
  rewrite optimizer_steps_app. cbn. lia.
Qed.

(** The optimizer steps of an epoch that completes: one per batch, and at
    most [len_epoch + 1]. *)
Lemma train_epoch_optimizer_steps self (epoch : Z) s' :
  _train_epoch tensor_len tolist argmax_tolist self epoch = inr s' ->
  optimizer_steps (trace s') =
  Nat.min (length (batches (train_loader self))) (S (len_epoch self)).
Proof.
  intros Hrun. unfold _train_epoch in Hrun.
  apply bind_inr in Hrun as (s1 & Hloop & Hrun).
  apply bind_inr in Hrun as (evs & Hevs & Hrun).
  apply bind_inr in Hrun as (s2 & Hval & Hrun).
  apply train_batches_optimizer_steps in Hloop; [|lia].
  apply update_metrics_no_step in Hevs.
  cbn [trace] in Hloop. rewrite Nat.sub_0_r in Hloop.
  assert (H2 : optimizer_steps (trace s2) = optimizer_steps (trace s1)).
  { destruct (do_validation self).
    - destruct (valid_loader self) as [ld|]; [|discriminate Hval].
      apply bind_inr in Hval as (v & Hv & Hval). injection Hval as <-.
      apply evaluate_no_step in Hv. cbn [trace emit] in *.
      rewrite Hv, optimizer_steps_app, Hevs. lia.
    - injection Hval as <-. cbn [trace emit]. rewrite optimizer_steps_app, Hevs. lia. }
  injection Hrun as <-.
  destruct (has_lr_scheduler self); cbn [trace emit];
    rewrite ?optimizer_steps_app, H2, Hloop; cbn; lia.
Qed.

(** C1, what the code does.  When the iterator of the loader yields more
    than [len_epoch] batches, an epoch that completes has performed
    [len_epoch + 1] optimizer steps: the test [batch_idx == len_epoch] is made
    after the step of the iteration with index [len_epoch]. *)
Theorem train_epoch_steps_past_len_epoch self (epoch : Z) s' :
  len_epoch self < length (batches (train_loader self)) ->
  _train_epoch tensor_len tolist argmax_tolist self epoch = inr s' ->
  optimizer_steps (trace s') = S (len_epoch self).
Proof.
  intros Hmore Hrun. rewrite (train_epoch_optimizer_steps _ _ _ Hrun). lia.
Qed.
End EpochFacts.

(** *** The embedding similarity *)

Section SimilarityFacts.
Context {T : Type} `{ScalarLaws T}.
Implicit Types (co : collaborators T) (X : list (list T)) (l : list T).

Lemma foldl_add_acc l (a : T) : foldl s_add a l = s_add a (py_sum l).
Proof.
  unfold py_sum. revert a. induction l as [|x l IH]; intros a; cbn [foldl].
  - by rewrite s_add_0_r.
  - rewrite (IH (s_add a x)), (IH (s_add s_zero x)), s_add_0_l. by rewrite s_add_assoc.
Qed.

Lemma py_sum_cons (x : T) l : py_sum (x :: l) = s_add x (py_sum l).
Proof. unfold py_sum at 1. cbn [foldl]. by rewrite foldl_add_acc, s_add_0_l. Qed.

Lemma py_sum_app l l' : py_sum (l ++ l') = s_add (py_sum l) (py_sum l').
Proof. unfold py_sum at 1. by rewrite foldl_app, foldl_add_acc. Qed.

Lemma py_sum_zeros (n : nat) : py_sum (replicate n (s_zero : T)) = s_zero.
Proof. induction n as [|n IH]; [reflexivity|]. cbn [replicate]. by rewrite py_sum_cons, IH, s_add_0_l. Qed.

(** A row of [np.triu]: the first [n] entries are zero, the others are kept. *)
Lemma triu_row l : forall n : nat,
  imap (fun j x => if Nat.ltb j n then s_zero else x) l
  = replicate (Nat.min n (length l)) s_zero ++ drop n l.
Proof.
  induction l as [|x l IH]; intros n.
  - by rewrite Nat.min_0_r, drop_nil.
  - rewrite imap_cons. destruct n as [|n].
    + cbn. f_equal. rewrite (imap_ext _ (fun _ x => x)); [|done].
      clear. induction l as [|y l IH]; [done|]. rewrite imap_cons. by f_equal.
    + cbn [Nat.ltb Nat.leb length Nat.min replicate drop app]. f_equal.
      rewrite <- IH. by apply imap_ext.
Qed.

(** The rows of the similarity matrix from the one of index [length pre]
    on: above the diagonal they hold the pairs of [X]. *)
Lemma np_sum_triu_rows co (f : nat -> nat) X : forall pre : list (list T),
  (forall i, f i = length pre + i) ->
  py_sum (concat (imap (fun i row => imap (fun j x => if Nat.ltb j (f i + 1) then s_zero else x) row)
                       (map (fun x => map (cos co x) (pre ++ X)) X)))
  = upper_pairs_sum co X.
Proof.
  revert f. induction X as [|x X IH]; intros f pre Hf; [reflexivity|].
  cbn [map]. rewrite imap_cons. cbn [concat upper_pairs_sum].
  rewrite py_sum_app. f_equal.
  - rewrite triu_row, py_sum_app, py_sum_zeros, s_add_0_l.
    rewrite skipn_map, Hf, Nat.add_0_r.
    replace (length pre + 1) with (length (pre ++ [x])) by (rewrite length_app; cbn; lia).
    by rewrite (cons_middle x pre X), app_assoc, drop_app_length.
  - rewrite <- (IH (f ∘ S) (pre ++ [x])).
    + by rewrite <- app_assoc.
    + intros i. cbn. rewrite Hf, length_app. cbn. lia.
Qed.

Lemma np_sum_triu_cosine co X :
  np_sum (np_triu (map (fun x => map (cos co x) X) X) 1) = upper_pairs_sum co X.
Proof. unfold np_sum, np_triu. by apply (np_sum_triu_rows co (fun i => i) X []). Qed.

Lemma cosine_similarity_nonempty co X :
  X <> [] -> cosine_similarity co X = inr (map (fun x => map (cos co x) X) X).
Proof. destruct X; [done|reflexivity]. Qed.

Lemma for_each_similarity co : forall (topic_index : list (list nat)) (vectors : list (list (list T))),
  for_each (take_rows (embeddings co)) topic_index = inr vectors ->
  Forall (fun X => X <> []) vectors ->
  for_each (fun i => do X <- take_rows (embeddings co) i;
                     do K <- cosine_similarity co X;
                     ret (np_sum (np_triu K 1))) topic_index
  = inr (map (upper_pairs_sum co) vectors).
Proof.
  induction topic_index as [|i rest IH]; intros vectors Hrows Hne; cbn [for_each] in *.
  - invert_run. reflexivity.
  - invert_run. apply Forall_cons in Hne as [Hx Hne].
    match goal with Hi : take_rows _ i = inr ?X |- _ => rewrite Hi end.
    cbn [bind]. rewrite (cosine_similarity_nonempty co _ Hx). cbn [bind ret].
    match goal with
    | Hr : for_each (take_rows _) rest = inr _ |- _ => rewrite (IH _ Hr Hne)
    end.
    cbn [bind ret map]. by rewrite np_sum_triu_cosine.
Qed.

(** A comprehension that returns has one result per item. *)
Lemma for_each_length {A B} (f : A -> result B) : forall (l : list A) (out : list B),
  for_each f l = inr out -> length out = length l.
Proof.
  induction l as [|x l IH]; intros out Hrun; cbn [for_each] in Hrun.
  - by injection Hrun as <-.
  - apply bind_inr in Hrun as (y & _ & Hrun). apply bind_inr in Hrun as (ys & Hys & Hrun).
    injection Hrun as <-. cbn [length]. by rewrite (IH _ Hys).
Qed.

Lemma w2v_sim_head co (word_dict : list (string * nat)) (top_n : Z)
    (topic_list : list (list string)) (topic_index : list (list nat))
    (vectors : list (list (list T))) :
  for_each (for_each (getitem word_dict)) topic_list = inr topic_index ->
  for_each (take_rows (embeddings co)) topic_index = inr vectors ->
  Forall (fun X => X <> []) vectors ->
  (topic_list = [] -> (head_num co * top_n * (top_n - 1))%Z <> 0%Z) ->
  w2v_sim co word_dict top_n topic_list = inr (head_w2v_sim co vectors top_n).
Proof.
  intros Hidx Hrows Hne Hcount. unfold w2v_sim, head_w2v_sim.
  rewrite Hidx. cbn [bind]. rewrite (for_each_similarity co _ _ Hrows Hne). cbn [bind].
  destruct topic_index as [|i rest]; [|reflexivity].
  destruct topic_list as [|t ts].
  - destruct (Z.eqb_spec (head_num co * top_n * (top_n - 1)) 0) as [Hz|_]; [|reflexivity].
    by destruct (Hcount eq_refl).
  - cbn [for_each] in Hidx. apply bind_inr in Hidx as (y & _ & Hidx).
    apply bind_inr in Hidx as (ys & _ & Hidx). discriminate Hidx.
Qed.

(** C8, as the code has it.  For topics whose words are in the vocabulary,
    with indices that are rows of the embedding matrix, each topic with at
    least one word, and a divisor that is not zero when there is no topic:
    the score is the sum over the topics of the cosines above the diagonal of
    each topic's similarity matrix, where [vectors] are the word vectors of
    the topics, divided by [head_num * top_n * (top_n - 1) / 2] for the
    [head_num] of the model.  It is the score of the specification, which
    divides by [num_topics * top_n * (top_n - 1) / 2], when the number of
    topics is [head_num]. *)
Theorem w2v_sim_is_upper_triangle_mean co (word_dict : list (string * nat)) (top_n : Z)
    (topic_list : list (list string)) (topic_index : list (list nat))
    (vectors : list (list (list T))) :
  for_each (for_each (getitem word_dict)) topic_list = inr topic_index ->
  for_each (take_rows (embeddings co)) topic_index = inr vectors ->
  Forall (fun X => X <> []) vectors ->
  (topic_list = [] -> (head_num co * top_n * (top_n - 1))%Z <> 0%Z) ->
  w2v_sim co word_dict top_n topic_list = inr (head_w2v_sim co vectors top_n) /\
  length vectors = length topic_list /\
  (head_num co = Z.of_nat (length topic_list) ->
   w2v_sim co word_dict top_n topic_list = inr (spec_w2v_sim co vectors top_n)).
Proof.
  intros Hidx Hrows Hne Hcount.
  pose proof (w2v_sim_head co word_dict top_n topic_list topic_index vectors
                Hidx Hrows Hne Hcount) as Hhead.
  assert (Hlen : length vectors = length topic_list).
  { rewrite (for_each_length _ _ _ Hrows). exact (for_each_length _ _ _ Hidx). }
  split; [exact Hhead|]. split; [exact Hlen|].
  intros Hnum. rewrite Hhead. unfold head_w2v_sim, spec_w2v_sim. by rewrite Hnum, Hlen.
Qed.
End SimilarityFacts.

(** *** topic_evaluation: the final check *)

Section ReportFacts.
Context {T : Type} `{Scalar T}.
Implicit Types (co : collaborators T) (cfg : eval_config) (arrs : arrays T).

Lemma recognized_false_py_in (method : option str_or_list) :
  recognized method = false ->
  method = None \/
  (py_in "fast_eval" method = inr false /\
   py_in "slow_eval" method = inr false /\
   py_in "w2v_sim" method = inr false).
Proof.
  destruct method as [[s|l]|]; [| |by left]; cbn [recognized py_in];
    intros Hr; apply orb_false_elim in Hr as [Hr Hw];
    apply orb_false_elim in Hr as [Hf Hs]; right; unfold ret; by rewrite Hf, Hs, Hw.
Qed.

(** Without a recognized method an iteration of the loop adds nothing to
    [topic_result]. *)
Lemma evaluate_variant_unrecognized co cfg (word_dict : list (string * nat)) arrs
    (key : string) (dist : nat) (topic_result : list (string * T))
    (topic_scores : option (list (string * list T)))
    (r : list (string * T) * option (list (string * list T))) :
  recognized (topic_evaluation_method cfg) = false ->
  evaluate_variant co cfg word_dict arrs key dist topic_result topic_scores = inr r ->
  fst r = topic_result.
Proof.
  intros Hr Hrun. unfold evaluate_variant in Hrun.
  apply bind_inr in Hrun as (a & _ & Hrun).
  apply bind_inr in Hrun as (project_root & _ & Hrun).
  destruct (recognized_false_py_in _ Hr) as [Hnone|(Hf & Hs & Hw)].
  - rewrite Hnone in Hrun. discriminate Hrun.
  - rewrite Hf in Hrun. cbn [bind ret] in Hrun.
    rewrite Hs in Hrun. cbn [bind ret orb andb] in Hrun.
    rewrite Hw in Hrun. cbn [bind ret] in Hrun.
    injection Hrun as <-. reflexivity.
Qed.

Lemma evaluate_variants_unrecognized co cfg (word_dict : list (string * nat)) arrs
    (topic_dists : list (string * nat)) :
  recognized (topic_evaluation_method cfg) = false ->
  forall (topic_scores : option (list (string * list T))) (report : list (string * T)),
    evaluate_variants co cfg word_dict arrs topic_dists [] topic_scores = inr report ->
    report = [].
Proof.
  intros Hr. induction topic_dists as [|[key dist] rest IH]; intros topic_scores report Hrun;
    cbn [evaluate_variants] in Hrun.
  - by injection Hrun as <-.
  - apply bind_inr in Hrun as (r & Hstep & Hrun).
    apply (evaluate_variant_unrecognized _ _ _ _ _ _ _ _ _ Hr) in Hstep.
    rewrite Hstep in Hrun. by eapply IH.
Qed.

(** C5.  When no recognized method is configured [topic_evaluation] raises;
    a report that it returns is not empty, and then a recognized method is
    configured. *)
Theorem topic_evaluation_needs_a_method co cfg (word_dict : list (string * nat))
    (topic_dist : ndarray T) :
  (recognized (topic_evaluation_method cfg) = false ->
     exists e : exn, topic_evaluation co cfg word_dict topic_dist = inl e) /\
  (forall report : list (string * T),
     topic_evaluation co cfg word_dict topic_dist = inr report ->
     report <> [] /\ recognized (topic_evaluation_method cfg) = true).
Proof.
  assert (Hnonempty : forall report,
    topic_evaluation co cfg word_dict topic_dist = inr report -> report <> []).
  { intros report Hrun. unfold topic_evaluation in Hrun.
    apply bind_inr in Hrun as (b & _ & Hrun). apply bind_inr in Hrun as (tr & _ & Hrun).
    destruct tr; [discriminate Hrun|]. by injection Hrun as <-. }
  assert (Hraise : recognized (topic_evaluation_method cfg) = false ->
    exists e : exn, topic_evaluation co cfg word_dict topic_dist = inl e).
  { intros Hr. destruct (topic_evaluation co cfg word_dict topic_dist) as [e|report] eqn:Hrun;
      [by exists e|].
    exfalso. unfold topic_evaluation in Hrun.
    apply bind_inr in Hrun as (b & _ & Hrun). apply bind_inr in Hrun as (tr & Hloop & Hrun).
    apply (evaluate_variants_unrecognized _ _ _ _ _ Hr) in Hloop. subst tr.
    discriminate Hrun. }
  split; [exact Hraise|].
  intros report Hrun. split; [by apply Hnonempty|].
  destruct (recognized (topic_evaluation_method cfg)) eqn:Hr; [reflexivity|].
  destruct (Hraise eq_refl) as [e He]. rewrite He in Hrun. discriminate Hrun.
Qed.

(** The error of a configuration whose method names none of the three
    evaluations, when the variants can be built and the working directory is
    in the project. *)
Lemma topic_evaluation_value_error co cfg (word_dict : list (string * nat))
    (topic_dist : ndarray T) (c : str_or_list) (project_root : string) :
  topic_evaluation_method cfg = Some c ->
  recognized (Some c) = false ->
  post_word_dict_dir cfg = None ->
  get_project_root None (getcwd co) = inr project_root ->
  topic_evaluation co cfg word_dict topic_dist
  = inl (ValueError "No correct topic evaluation method is specified!").
Proof.
  intros Hm Hr Hdir Hroot. unfold topic_evaluation, build_topic_dists. rewrite Hdir.
  cbn [bind ret fst snd evaluate_variants]. unfold evaluate_variant. rewrite Hm, Hroot.
  destruct (recognized_false_py_in _ Hr) as [?|(Hf & Hs & Hw)]; [done|].
  cbn [lookup list_lookup bind ret]. rewrite Hf. cbn [bind ret]. rewrite Hs.
  cbn [bind ret orb andb]. rewrite Hw. reflexivity.
Qed.
End ReportFacts.

(** *** topic_evaluation: the filtered variants *)

Section VariantFacts.
Context {T : Type} `{Scalar T}.
Implicit Types (arrs : arrays T) (D : ndarray T) (word_dict : list (string * nat)).
Implicit Types (topic_dists : list (string * nat)) (entries : list dir_entry).

Lemma assoc_dict_set_ne {V} (d : list (string * V)) (k k0 : string) (v : V) :
  k <> k0 -> assoc k0 (dict_set d k v) = assoc k0 d.
Proof.
  intros Hne. induction d as [|[k' x] d IH]; cbn [dict_set assoc].
  - destruct (String.eqb_spec k k0); [done|reflexivity].
  - destruct (String.eqb_spec k' k) as [->|Hk]; cbn [assoc].
    + destruct (String.eqb_spec k k0); [done|reflexivity].
    + by rewrite IH.
Qed.

Lemma elem_of_dict_set {V} (d : list (string * V)) (k : string) (v : V) (kv : string * V) :
  kv ∈ dict_set d k v -> kv ∈ d \/ kv = (k, v).
Proof.
  induction d as [|[k' x] d IH]; cbn [dict_set].
  - intros Hin. apply list_elem_of_singleton in Hin. by right.
  - destruct (String.eqb_spec k' k) as [->|Hk]; intros Hin;
      apply elem_of_cons in Hin as [->|Hin].
    + by right.
    + left. by apply elem_of_cons; right.
    + left. by apply elem_of_cons; left.
    + destruct (IH Hin) as [?|?]; [left; by apply elem_of_cons; right|by right].
Qed.

(** The loop leaves every array that existed before it as it was; a binding
    of [topic_dists] that it adds points to a new array, the zeroed copy of
    the original for one of the files. *)
Lemma add_variants_frame word_dict (topic_dist : nat) D entries :
  forall topic_dists arrs (r : list (string * nat) * arrays T),
    arrs !! topic_dist = Some D ->
    add_variants word_dict topic_dist entries topic_dists arrs = inr r ->
    (forall l a, arrs !! l = Some a -> snd r !! l = Some a) /\
    (forall key l, (key, l) ∈ fst r ->
       (key, l) ∈ topic_dists \/
       (length arrs <= l /\
        exists path, path ∈ entries /\ names_variant path key /\
          snd r !! l = Some (zero_columns (removed_index word_dict (entry_json path)) D))) /\
    (forall key, (forall path, path ∈ entries -> ~ names_variant path key) ->
       assoc key (fst r) = assoc key topic_dists).
Proof.
  induction entries as [|path rest IH]; intros topic_dists arrs r HD Hrun;
    cbn [add_variants] in Hrun; unfold arrays in *.
  - injection Hrun as <-. cbn [fst snd]. split; [done|]. split; [by left|done].
  - destruct (endswith (entry_name path) ".json") eqn:Hjson; cbn [negb] in Hrun.
    + unfold deepcopy, arrays in Hrun. rewrite HD in Hrun.
      cbn beta iota delta [bind ret] in Hrun.
      unfold setitem_columns, arrays in Hrun. rewrite store_lookup_new in Hrun.
      destruct (forallb _ _); [|discriminate Hrun]. cbn beta iota delta [bind ret] in Hrun.
      rewrite store_insert_new in Hrun.
      set (Z' := zero_columns (removed_index word_dict (entry_json path)) D) in *.
      apply IH in Hrun as (Hframe & Hnew & Hkeep); [|by apply lookup_app_l_Some].
      split; [|split].
      * intros l a Hl. apply Hframe. by apply lookup_app_l_Some.
      * intros key l Hin. destruct (Hnew key l Hin) as [Hold|(Hge & p & Hp & Hname & Harr)].
        -- apply elem_of_dict_set in Hold as [Hold|Heq]; [by left|].
           injection Heq as -> ->. right. split; [done|].
           exists path. split; [by apply elem_of_cons; left|]. split; [done|].
           apply Hframe. apply store_lookup_new.
        -- right. rewrite length_app in Hge. split; [lia|].
           exists p. split; [by apply elem_of_cons; right|done].
      * intros key Hno. rewrite Hkeep.
        -- apply assoc_dict_set_ne. intros Heq.
           apply (Hno path); [by apply elem_of_cons; left|done].
        -- intros p Hp. apply Hno. by apply elem_of_cons; right.
    + apply IH in Hrun as (Hframe & Hnew & Hkeep); [|done].
      split; [done|]. split.
      * intros key l Hin. destruct (Hnew key l Hin) as [?|(Hge & p & Hp & Hrest)]; [by left|].
        right. split; [done|]. exists p. split; [by apply elem_of_cons; right|done].
      * intros key Hno. apply Hkeep. intros p Hp. apply Hno. by apply elem_of_cons; right.
Qed.

(** The loop returns when every index to be zeroed is a column of the
    distribution. *)
Lemma add_variants_returns word_dict (topic_dist : nat) D entries :
  (forall path, path ∈ entries -> endswith (entry_name path) ".json" = true ->
     Forall (fun j => j < shape1 D) (removed_index word_dict (entry_json path))) ->
  forall topic_dists arrs,
    arrs !! topic_dist = Some D ->
    exists r, add_variants word_dict topic_dist entries topic_dists arrs = inr r.
Proof.
  induction entries as [|path rest IH]; intros Hrange topic_dists arrs HD;
    cbn [add_variants]; unfold arrays in *.
  - by eexists.
  - destruct (endswith (entry_name path) ".json") eqn:Hjson; cbn [negb].
    + unfold deepcopy, arrays. rewrite HD. cbn beta iota delta [bind ret].
      unfold setitem_columns, arrays. rewrite store_lookup_new.
      assert (forallb (fun j => Nat.ltb j (shape1 D))
                (removed_index word_dict (entry_json path)) = true) as ->.
      { apply forallb_forall. intros j Hj. apply Nat.ltb_lt.
        assert (Hall := Hrange path ltac:(by apply elem_of_cons; left) Hjson).
        rewrite Forall_forall in Hall. apply Hall. by apply list_elem_of_In. }
      cbn beta iota delta [bind ret]. rewrite store_insert_new. apply IH.
      * intros p Hp. apply Hrange. by apply elem_of_cons; right.
      * by apply lookup_app_l_Some.
    + apply IH; [|done]. intros p Hp. apply Hrange. by apply elem_of_cons; right.
Qed.

(** [a[:, index] = 0] on one row. *)
Lemma zero_row_lookup (index : list nat) : forall (row : list T) (v : nat),
  length (foldl (fun r j => <[j := s_zero]> r) row index) = length row /\
  (v ∈ index -> v < length row ->
     foldl (fun r j => <[j := s_zero]> r) row index !! v = Some s_zero) /\
  (v ∉ index -> foldl (fun r j => <[j := s_zero]> r) row index !! v = row !! v).
Proof.
  induction index as [|j index IH]; intros row v; cbn [foldl].
  - split; [done|]. split; [|done]. intros Hin. by apply elem_of_nil in Hin.
  - destruct (IH (<[j := s_zero]> row) v) as (Hlen & Hin & Hout).
    rewrite length_insert in Hlen, Hin. split; [done|]. split.
    + intros Hv Hlt. destruct (decide (v ∈ index)) as [Hi|Hi]; [by apply Hin|].
      rewrite (Hout Hi). apply elem_of_cons in Hv as [->|Hv]; [|done].
      by apply list_lookup_insert_eq.
    + intros Hv. apply not_elem_of_cons in Hv as [Hne Hv].
      rewrite (Hout Hv). by apply list_lookup_insert_ne.
Qed.

Lemma removed_index_elem word_dict (post_word_dict : gmap string nat) (word : string) (v : nat) :
  (word, v) ∈ word_dict -> post_word_dict !! word = None ->
  v ∈ removed_index word_dict post_word_dict.
Proof.
  intros Hin Hpost. unfold removed_index. apply list_elem_of_In, in_map_iff.
  exists (word, v). split; [done|]. apply filter_In. split; [by apply list_elem_of_In|].
  cbn [fst]. by rewrite Hpost.
Qed.

(** The contents of a filtered copy: the shape of the original, zero in the
    column of every word that is not in the whitelist, the original weight in
    every column that is not removed. *)
Lemma zero_columns_contents word_dict (post_word_dict : gmap string nat) D :
  let A := zero_columns (removed_index word_dict post_word_dict) D in
  shape1 A = shape1 D /\
  length (rows A) = length (rows D) /\
  forall (i : nat) (row : list T), rows D !! i = Some row ->
    exists row', rows A !! i = Some row' /\ length row' = length row /\
      (forall word v, (word, v) ∈ word_dict -> post_word_dict !! word = None ->
         v < length row -> row' !! v = Some s_zero) /\
      (forall v, v ∉ removed_index word_dict post_word_dict -> row' !! v = row !! v).
Proof.
  cbv zeta. unfold zero_columns. cbn [shape1 rows]. split; [done|].
  split; [by rewrite length_map|].
  intros i row Hrow. eexists. split.
  - change (map ?f ?l) with (f <$> l). rewrite list_lookup_fmap, Hrow. reflexivity.
  - split; [apply zero_row_lookup; exact 0|]. split.
    + intros word v Hin Hpost Hlt.
      apply (zero_row_lookup _ row v); [|done]. by eapply removed_index_elem.
    + intros v Hv. by apply zero_row_lookup.
Qed.
End VariantFacts.

Section OriginalVariant.
Context {T : Type} `{Scalar T}.
Implicit Types (arrs : arrays T) (D : ndarray T) (word_dict : list (string * nat)).

Lemma removed_index_not_elem word_dict (post_word_dict : gmap string nat) (v : nat) :
  (forall word, (word, v) ∈ word_dict -> is_Some (post_word_dict !! word)) ->
  v ∉ removed_index word_dict post_word_dict.
Proof.
  intros Hall Hin. unfold removed_index in Hin.
  apply list_elem_of_In, in_map_iff in Hin as ([word v'] & Hv & Hin). cbn [snd] in Hv. subst v'.
  apply filter_In in Hin as [Hin Hpost]. cbn [fst] in Hpost.
  destruct (Hall word) as [x Hx]; [by apply list_elem_of_In|]. by rewrite Hx in Hpost.
Qed.

Lemma zero_columns_filtered_copy word_dict (post_word_dict : gmap string nat) D :
  filtered_copy word_dict post_word_dict D
    (zero_columns (removed_index word_dict post_word_dict) D).
Proof.
  destruct (zero_columns_contents word_dict post_word_dict D) as (Hshape & Hlen & Hrows).
  split; [done|]. split; [done|]. intros i row Hrow.
  destruct (Hrows i row Hrow) as (row' & Hrow' & Hl & Hzero & Hkeep).
  exists row'. split; [done|]. split; [done|]. split; [done|].
  intros v Hall. apply Hkeep. by apply removed_index_not_elem.
Qed.

Lemma assoc_variant_topics (co : collaborators T) (cfg : eval_config) word_dict
    (topic_dists : list (string * nat)) arrs (key : string) :
  assoc key (variant_topics co cfg word_dict (topic_dists, arrs))
  = option_map (fun l => option_map
                  (fun a => get_topic_list co a (config_get (top_n_cfg cfg) 10%Z)
                              (reverse_dict word_dict)) (arrs !! l))
               (assoc key topic_dists).
Proof.
  unfold variant_topics. cbn [fst snd].
  induction topic_dists as [|[k l] rest IH]; [reflexivity|].
  cbn [map assoc fst snd]. destruct (String.eqb k key); [reflexivity|exact IH].
Qed.

(** An iteration of the evaluation loop reads the store only at the array of
    its variant. *)
Lemma evaluate_variant_frame (co : collaborators T) (cfg : eval_config) word_dict
    arrs (arrs' : arrays T) (key : string) (dist : nat)
    (topic_result : list (string * T)) (topic_scores : option (list (string * list T))) :
  arrs' !! dist = arrs !! dist ->
  evaluate_variant co cfg word_dict arrs' key dist topic_result topic_scores
  = evaluate_variant co cfg word_dict arrs key dist topic_result topic_scores.
Proof. intros Heq. unfold evaluate_variant. by rewrite Heq. Qed.

(** The first variant stays the first one unless a file has its name. *)
Lemma add_variants_head word_dict (topic_dist : nat) (entries : list dir_entry)
    (key : string) (l : nat) :
  (forall path, path ∈ entries -> ~ names_variant path key) ->
  forall (rest : list (string * nat)) arrs (r : list (string * nat) * arrays T),
    add_variants word_dict topic_dist entries ((key, l) :: rest) arrs = inr r ->
    exists rest', fst r = (key, l) :: rest'.
Proof.
  induction entries as [|path others IH]; intros Hno rest arrs r Hrun;
    cbn [add_variants] in Hrun.
  - injection Hrun as <-. by eexists.
  - assert (Hothers : forall p, p ∈ others -> ~ names_variant p key)
      by (intros p Hp; apply Hno; by apply elem_of_cons; right).
    destruct (endswith (entry_name path) ".json") eqn:Hjson; cbn [negb] in Hrun;
      [|by eapply IH].
    apply bind_inr in Hrun as ([c arrs1] & _ & Hrun).
    apply bind_inr in Hrun as (arrs2 & _ & Hrun).
    cbn [dict_set] in Hrun.
    destruct (String.eqb_spec key (replace (entry_name path) ".json" "")) as [Heq|Hne].
    + exfalso. apply (Hno path); [by apply elem_of_cons; left|done].
    + by eapply IH.
Qed.

(** C4, as the code has it.  When the index of every word that a whitelist
    leaves out is a column of the distribution, building the variants
    returns and leaves the original distribution as it was.  Every variant
    other than the original is a new array, the filtered copy of the original
    for the whitelist of one of the files.  When no file whose name ends in
    ".json" has a name that is "original" once every ".json" in it is
    removed, "original" is the first variant of the evaluation loop, the
    topics extracted for it are those extracted when no filtered variant is
    built, and so is the result of its iteration of the loop, which computes
    its scores. *)
Theorem build_topic_dists_keeps_original word_dict (topic_dist : nat) D
    (dir : option (list dir_entry)) arrs :
  arrs !! topic_dist = Some D ->
  (forall entries path, dir = Some entries -> path ∈ entries ->
     endswith (entry_name path) ".json" = true ->
     Forall (fun j => j < shape1 D) (removed_index word_dict (entry_json path))) ->
  exists (topic_dists : list (string * nat)) (arrs' : arrays T),
    build_topic_dists word_dict topic_dist dir arrs = inr (topic_dists, arrs') /\
    arrs' !! topic_dist = Some D /\
    (forall key l, (key, l) ∈ topic_dists ->
       (key = "original" /\ l = topic_dist) \/
       (length arrs <= l /\
        exists entries path A, dir = Some entries /\ path ∈ entries /\
          names_variant path key /\ arrs' !! l = Some A /\
          filtered_copy word_dict (entry_json path) D A)) /\
    ((forall entries path, dir = Some entries -> path ∈ entries ->
        ~ names_variant path "original") ->
     (exists rest, topic_dists = ("original", topic_dist) :: rest) /\
     forall (co : collaborators T) (cfg : eval_config),
       assoc "original" (variant_topics co cfg word_dict (topic_dists, arrs'))
       = assoc "original" (variant_topics co cfg word_dict ([("original", topic_dist)], arrs)) /\
       forall (topic_result : list (string * T))
              (topic_scores : option (list (string * list T))),
         evaluate_variant co cfg word_dict arrs' "original" topic_dist topic_result topic_scores
         = evaluate_variant co cfg word_dict arrs "original" topic_dist
             topic_result topic_scores).
Proof.
  intros HD Hrange. unfold build_topic_dists. destruct dir as [entries|].
  - destruct (add_variants_returns word_dict topic_dist D entries
                (fun path Hin => Hrange entries path eq_refl Hin)
                [("original", topic_dist)] arrs HD) as [[topic_dists arrs'] Hrun].
    exists topic_dists, arrs'. split; [exact Hrun|].
    destruct (add_variants_frame word_dict topic_dist D entries _ _ _ HD Hrun)
      as (Hframe & Hnew & Hkeep). cbn [fst snd] in *.
    split; [by apply Hframe|]. split.
    + intros key l Hin. destruct (Hnew key l Hin) as [Hold|(Hge & path & Hp & Hname & Harr)].
      * apply list_elem_of_singleton in Hold. injection Hold as -> ->. by left.
      * right. split; [done|].
        exists entries, path, (zero_columns (removed_index word_dict (entry_json path)) D).
        split; [done|]. split; [done|]. split; [done|]. split; [exact Harr|].
        apply zero_columns_filtered_copy.
    + intros Hno.
      assert (Hno' : forall path, path ∈ entries -> ~ names_variant path "original")
        by (intros path Hin; by apply (Hno entries)).
      split; [exact (add_variants_head _ _ _ _ _ Hno' _ _ _ Hrun)|].
      intros co cfg. split.
      * rewrite !assoc_variant_topics, (Hkeep "original" Hno').
        cbn [assoc String.eqb Ascii.eqb Bool.eqb option_map].
        by rewrite (Hframe _ _ HD), HD.
      * intros topic_result topic_scores. apply evaluate_variant_frame.
        by rewrite (Hframe _ _ HD), HD.
  - exists [("original", topic_dist)], arrs. split; [reflexivity|]. split; [done|]. split.
    + intros key l Hin. apply list_elem_of_singleton in Hin. injection Hin as -> ->. by left.
    + intros _. split; [by eexists|]. intros co cfg. split; reflexivity.
Qed.
End OriginalVariant.

(** *** Runs of the concrete trainer *)

Example endswith_json :
  endswith "stop_words.json" ".json" = true /\ endswith "notes.txt" ".json" = false.
Proof. split; reflexivity. Qed.

Example replace_json : replace "stop_words.json" ".json" "" = "stop_words".
Proof. reflexivity. Qed.

(** [str.replace] removes every occurrence: a second file names the variant
    "original". *)
Example replace_json_twice : replace "original.json.json" ".json" "" = "original".
Proof. reflexivity. Qed.

Example substring_in : is_substring "w2v_sim" "fast_eval,w2v_sim" = true.
Proof. reflexivity. Qed.

(** The loader reports two batches and yields three: three optimizer
    steps. *)
Lemma train_epoch_steps_past_len_epoch_witness :
  exists s' : epoch_state Z,
    _train_epoch Fixture.tensor_len Fixture.tolist Fixture.argmax_tolist
      Fixture.self 1%Z = inr s' /\
    length (batches (train_loader Fixture.self)) = 3 /\
    len_epoch Fixture.self = 2 /\
    optimizer_steps (trace s') = 3.
Proof.
  eexists. split; [vm_compute; reflexivity|]. split; [reflexivity|]. split; [reflexivity|].
  apply (train_epoch_steps_past_len_epoch Fixture.tensor_len Fixture.tolist
           Fixture.argmax_tolist Fixture.self 1%Z).
  - vm_compute. lia.
  - vm_compute. reflexivity.
Defined.

(** Criterion loss 6, [alpha] 2, entropy 3: the caller reads 12. *)
Lemma run_model_loss_carries_regularization_witness :
  exists (r : out_dict Z * store Z) (loss : tensor Z),
    run_model Fixture.self Fixture.batch None true [] = inr r /\
    out_field r "loss" = Some loss /\
    t_data loss = 12%Z.
Proof.
  destruct (run_model_loss_carries_regularization Fixture.self Fixture.batch None true []
              (Tensor 7%Z (Cuda 0)) (Tensor 1%Z (Cuda 0))
              (Tensor 3%Z (Cuda 0)) (Tensor 2%Z (Cuda 0)))
    as (r & loss & Hrun & Hloss & Hon & _); try reflexivity.
  exists r, loss. split; [exact Hrun|]. split; [exact Hloss|]. exact (Hon eq_refl).
Defined.

Lemma calculate_entropy_default_and_fields_witness :
  calculate_entropy Fixture.self = entropy_constraint Fixture.self /\
  exists r : out_dict Z * store Z,
    run_model Fixture.self Fixture.batch None true [] = inr r /\
    out_field r "attention_weight" = Some (Tensor 2%Z (Cuda 0)) /\
    out_field r "entropy" = Some (Tensor 3%Z (Cuda 0)).
Proof.
  destruct (@calculate_entropy_default_and_fields Z Z_scalar) as [Hdefault Hfields].
  split.
  - exact (proj1 (Hdefault Fixture.cfg Fixture.data_train None Fixture.prepared Fixture.model
                    (Cuda 0) Fixture.crit [] false false) eq_refl).
  - destruct (Hfields Fixture.self Fixture.batch None true []
                (Tensor 7%Z (Cuda 0)) (Tensor 1%Z (Cuda 0))
                (Tensor 3%Z (Cuda 0)) (Tensor 2%Z (Cuda 0)))
      as (r & Hrun & Hon & _); try reflexivity.
    exists r. split; [exact Hrun|]. exact (Hon eq_refl).
Defined.

(** Without the flags the dictionary has three fields and the raw loss. *)
Example run_model_plain :
  run_model (init {| cfg_entropy_constraint := None; cfg_calculate_entropy := None;
                     cfg_alpha := None |}
               Fixture.data_train None Fixture.prepared Fixture.model (Cuda 0) Fixture.crit
               [] false false)
    Fixture.batch None true []
  = inr ([("label", Held (Tensor 1%Z (Cuda 0))); ("loss", Ref 0);
          ("predict", Held (Tensor 7%Z (Cuda 0)))],
         [Tensor 6%Z (Cuda 0)]).
Proof. reflexivity. Qed.

(** One topic of three words whose pairs have the cosines 0, 0 and 1, one
    head, [top_n = 3]: the score is a third. *)
Lemma w2v_sim_is_upper_triangle_mean_witness :
  w2v_sim Fixture.co_rational Fixture.word_dict 3%Z [["apple"; "pear"; "plum"]]
  = inr (spec_w2v_sim Fixture.co_rational [[[1; 0]; [0; 1]; [0; 1]]]%Q 3%Z) /\
  (spec_w2v_sim Fixture.co_rational [[[1; 0]; [0; 1]; [0; 1]]]%Q 3%Z == 1 # 3)%Q.
Proof.
  split; [|reflexivity].
  apply (w2v_sim_is_upper_triangle_mean Fixture.co_rational Fixture.word_dict 3%Z
           [["apple"; "pear"; "plum"]] [[0; 1; 2]]).
  - reflexivity.
  - reflexivity.
  - repeat constructor; discriminate.
  - discriminate.
  - reflexivity.
Defined.

(** Two topics and a model with one head: the score is two thirds, the
    score of the specification one third. *)
Lemma w2v_sim_divides_by_head_num :
  exists sim : Q,
    w2v_sim Fixture.co_rational Fixture.word_dict 3%Z
      [["apple"; "pear"; "plum"]; ["apple"; "pear"; "plum"]] = inr sim /\
    (sim == 2 # 3)%Q /\
    for_each (take_rows (embeddings Fixture.co_rational)) [[0; 1; 2]; [0; 1; 2]]
    = inr [[[1; 0]; [0; 1]; [0; 1]]; [[1; 0]; [0; 1]; [0; 1]]]%Q /\
    (spec_w2v_sim Fixture.co_rational
       [[[1; 0]; [0; 1]; [0; 1]]; [[1; 0]; [0; 1]; [0; 1]]]%Q 3%Z == 1 # 3)%Q /\
    ~ (sim == spec_w2v_sim Fixture.co_rational
                [[[1; 0]; [0; 1]; [0; 1]]; [[1; 0]; [0; 1]; [0; 1]]]%Q 3%Z)%Q.
Proof.
  eexists. split; [vm_compute; reflexivity|].
  split; [reflexivity|]. split; [reflexivity|]. split; [reflexivity|].
  vm_compute. discriminate.
Qed.

(** An unknown method raises, a known one reports. *)
Lemma topic_evaluation_needs_a_method_witness :
  (exists e : exn,
     topic_evaluation Fixture.co (Fixture.eval_cfg (Some (PyStr "npmi")) None)
       Fixture.word_dict Fixture.topic_dist = inl e) /\
  topic_evaluation Fixture.co (Fixture.eval_cfg (Some (PyList ["w2v_sim"])) None)
    Fixture.word_dict Fixture.topic_dist = inr [("original_w2v_sim", 0%Z)] /\
  [("original_w2v_sim", 0%Z)] <> [] /\
  recognized (Some (PyList ["w2v_sim"])) = true.
Proof.
  split.
  - apply (proj1 (topic_evaluation_needs_a_method Fixture.co
                    (Fixture.eval_cfg (Some (PyStr "npmi")) None)
                    Fixture.word_dict Fixture.topic_dist)).
    reflexivity.
  - split; [vm_compute; reflexivity|].
    apply (proj2 (topic_evaluation_needs_a_method Fixture.co
                    (Fixture.eval_cfg (Some (PyList ["w2v_sim"])) None)
                    Fixture.word_dict Fixture.topic_dist)).
    vm_compute. reflexivity.
Defined.

Example topic_evaluation_none_raises :
  topic_evaluation Fixture.co (Fixture.eval_cfg None None) Fixture.word_dict Fixture.topic_dist
  = inl TypeError.
Proof. reflexivity. Qed.

(** A whitelist file [fruit.json]: the original keeps its topics. *)
Lemma build_topic_dists_keeps_original_witness :
  exists (topic_dists : list (string * nat)) (arrs' : arrays Z),
    build_topic_dists Fixture.word_dict 0 (Some [Fixture.whitelist "fruit.json"])
      [Fixture.topic_dist] = inr (topic_dists, arrs') /\
    arrs' !! 0 = Some Fixture.topic_dist /\
    assoc "original" (variant_topics Fixture.co (Fixture.eval_cfg None None) Fixture.word_dict
                        (topic_dists, arrs'))
    = Some (Some [["apple"; "pear"]]).
Proof.
  destruct (build_topic_dists_keeps_original Fixture.word_dict 0 Fixture.topic_dist
              (Some [Fixture.whitelist "fruit.json"]) [Fixture.topic_dist] eq_refl)
    as (topic_dists & arrs' & Hrun & Horig & _ & Hsame).
  - intros entries path [= <-] Hin Hjson.
    apply list_elem_of_singleton in Hin. subst path. vm_compute. repeat constructor.
  - exists topic_dists, arrs'. split; [exact Hrun|]. split; [exact Horig|].
    destruct Hsame as [_ Hsame].
    + intros entries path [= <-] Hin [_ Hname].
      apply list_elem_of_singleton in Hin. subst path. vm_compute in Hname.
      discriminate Hname.
    + rewrite (proj1 (Hsame Fixture.co (Fixture.eval_cfg None None))).
      vm_compute. reflexivity.
Defined.

(** A whitelist file [original.json]: the variant named "original" is the
    filtered copy, and its topics and its score are those of the copy. *)
Lemma original_variant_overwritten :
  exists b0 b1 : list (string * nat) * arrays Z,
    build_topic_dists Fixture.word_dict 0 None [Fixture.topic_dist] = inr b0 /\
    build_topic_dists Fixture.word_dict 0 (Some [Fixture.whitelist "original.json"])
      [Fixture.topic_dist] = inr b1 /\
    option_map (fun l => snd b0 !! l) (assoc "original" (fst b0))
      = Some (Some (NdArray 3 [[5; 3; 1]%Z])) /\
    option_map (fun l => snd b1 !! l) (assoc "original" (fst b1))
      = Some (Some (NdArray 3 [[0; 3; 1]%Z])) /\
    assoc "original" (variant_topics Fixture.co (Fixture.eval_cfg None None) Fixture.word_dict b0)
      = Some (Some [["apple"; "pear"]]) /\
    assoc "original" (variant_topics Fixture.co (Fixture.eval_cfg None None) Fixture.word_dict b1)
      = Some (Some [["pear"; "plum"]]) /\
    topic_evaluation Fixture.co (Fixture.eval_cfg (Some (PyList ["w2v_sim"])) None)
      Fixture.word_dict Fixture.topic_dist = inr [("original_w2v_sim", 0%Z)] /\
    topic_evaluation Fixture.co
      (Fixture.eval_cfg (Some (PyList ["w2v_sim"])) (Some [Fixture.whitelist "original.json"]))
      Fixture.word_dict Fixture.topic_dist = inr [("original_w2v_sim", 1%Z)].
Proof.
  eexists. eexists. split; [vm_compute; reflexivity|]. split; [vm_compute; reflexivity|].
  repeat split; vm_compute; reflexivity.
Qed.

End NCTrainerFacts.

(** ** Facts about the other functions of general_utils.py *)
Module GeneralUtilsRestFacts.
Import GeneralUtils NCTrainer GeneralUtilsRest GeneralUtilsFacts NCTrainerFacts.

(** *** convert_dict_to_numpy *)

(** A comprehension returns when its function returns for every item. *)
Lemma for_each_inr {A B} (f : A -> result B) (l : list A) (out : list B) :
  for_each f l = inr out <-> Forall2 (fun x y => f x = inr y) l out.
Proof.
  revert out. induction l as [|x l IH]; intros out; cbn [for_each].
  - split.
    + intros [= <-]. constructor.
    + intros Hall. by apply Forall2_nil_inv_l in Hall as ->.
  - split.
    + intros Hrun. apply bind_inr in Hrun as (y & Hy & Hrun).
      apply bind_inr in Hrun as (ys & Hys & Hrun). injection Hrun as <-.
      constructor; [done|]. by apply IH.
    + intros Hall. apply Forall2_cons_inv_l in Hall as (y & ys & Hy & Hys & ->).
      rewrite Hy. cbn [bind]. apply IH in Hys. rewrite Hys. reflexivity.
Qed.

(** It raises what its function raises for the first item that fails. *)
Lemma for_each_inl {A B} (f : A -> result B) (l1 l2 : list A) (x : A) (e : exn) :
  Forall (fun a => exists b, f a = inr b) l1 -> f x = inl e ->
  for_each f (l1 ++ x :: l2) = inl e.
Proof.
  intros Hall Hx. induction Hall as [|a l1 [b Hb] _ IH]; cbn [for_each app].
  - by rewrite Hx.
  - rewrite Hb. cbn [bind]. by rewrite IH.
Qed.

(** *** gather_dict on every rank *)

Section GatherRanks.
Context {K : Type} `{Countable K} {V : Type}.

Lemma gather_dict_foldl (parts : list (gmap K V)) (r : nat) (own : gmap K V) :
  parts !! r = Some own ->
  gather_dict (Some {| peers := parts; rank := r |}) own (length parts)
  = inr (foldl dict_update ∅ parts).
Proof.
  intros Hown. unfold gather_dict, all_gather_object. cbn [peers rank].
  rewrite list_insert_id by done.
  rewrite length_replicate, Nat.ltb_irrefl. cbn [bind ret].
  rewrite drop_ge, app_nil_r by (by rewrite length_replicate). rewrite update_loop_foldl. f_equal.
  apply map_eq. intros k. apply option_eq. intros v.
  rewrite !foldl_update_lookup. split.
  - intros [Hl|[Hk Hnone]]; [by left|].
    rewrite (Hnone r own Hown) in Hk. discriminate.
  - intros [Hl|[Hk _]]; [by left|]. by rewrite lookup_empty in Hk.
Qed.

(** X4.  Every rank of the group obtains the same mapping from
    [gather_dict]: the result does not depend on which rank calls. *)
Theorem gather_dict_same_on_every_rank (parts : list (gmap K V)) (r1 r2 : nat)
    (own1 own2 : gmap K V) :
  parts !! r1 = Some own1 -> parts !! r2 = Some own2 ->
  exists merged : gmap K V,
    gather_dict (Some {| peers := parts; rank := r1 |}) own1 (length parts) = inr merged /\
    gather_dict (Some {| peers := parts; rank := r2 |}) own2 (length parts) = inr merged.
Proof.
  intros H1 H2. exists (foldl dict_update ∅ parts).
  split; by apply gather_dict_foldl.
Qed.

Lemma foldl_update_empty (d : gmap K V) (k : nat) :
  foldl dict_update d (replicate k (∅ : gmap K V)) = d.
Proof.
  induction k as [|k IH]; cbn [replicate foldl]; [done|].
  unfold dict_update at 2. by rewrite (left_id_L ∅ (∪)).
Qed.

(** X26.  A [process_num] below the size of the group makes [gather_dict]
    raise [IndexError]; a [process_num] above it gives what the size of the
    group gives, the slots that no rank fills staying empty. *)
Theorem gather_dict_process_num (parts : list (gmap K V)) (r : nat) (own : gmap K V)
    (process_num : nat) :
  parts !! r = Some own ->
  (process_num < length parts ->
   gather_dict (Some {| peers := parts; rank := r |}) own process_num = inl IndexError) /\
  (length parts <= process_num ->
   gather_dict (Some {| peers := parts; rank := r |}) own process_num
   = gather_dict (Some {| peers := parts; rank := r |}) own (length parts)).
Proof.
  intros Hown. unfold gather_dict, all_gather_object. cbn [peers rank].
  rewrite list_insert_id by done. rewrite !length_replicate. split; intros Hn.
  - apply Nat.ltb_lt in Hn. by rewrite Hn.
  - rewrite Nat.ltb_irrefl.
    destruct (Nat.ltb_spec process_num (length parts)) as [?|_]; [lia|].
    cbn [bind ret]. f_equal.
    rewrite (drop_ge (replicate (length parts) _)), app_nil_r
      by (by rewrite length_replicate).
    rewrite drop_replicate. set (k := process_num - length parts).
    replace process_num with (length (parts ++ replicate k (∅ : gmap K V)))
      by (rewrite length_app, length_replicate; lia).
    by rewrite !update_loop_foldl, foldl_app, foldl_update_empty.
Qed.
End GatherRanks.

Section Convert.
Context {V A : Type}.
Implicit Types (d : gmap Z V) (l : list V) (np_array : list V -> result A).

Lemma int_getitem_inr d (i : Z) (v : V) : int_getitem d i = inr v <-> d !! i = Some v.
Proof.
  unfold int_getitem, ret, raise. destruct (d !! i); split; intros Heq;
    try discriminate; congruence.
Qed.

(** The comprehension returns [l] exactly when [l] has one element per key
    and lists the values of the keys [0], [1], ... in order. *)
Lemma values_in_order d l :
  for_each (fun i => int_getitem d (Z.of_nat i)) (seq 0 (size d)) = inr l <->
  length l = size d /\ forall i : nat, i < size d -> d !! Z.of_nat i = l !! i.
Proof.
  rewrite for_each_inr. split.
  - intros Hall. assert (Hlen := Forall2_length _ _ _ Hall). rewrite length_seq in Hlen.
    split; [done|]. intros i Hi.
    destruct (lookup_lt_is_Some_2 l i ltac:(lia)) as [v Hv].
    rewrite Hv. apply int_getitem_inr.
    eapply (Forall2_lookup_lr _ _ _ i i v Hall); [|done].
    by rewrite lookup_seq_lt.
  - intros [Hlen Hkeys]. apply Forall2_same_length_lookup_2.
    + by rewrite length_seq.
    + intros i x v Hx Hv. apply lookup_seq in Hx as [-> Hi]. cbn.
      apply int_getitem_inr. by rewrite Hkeys.
Qed.

(** X1.  [convert_dict_to_numpy] returns an array exactly when [np.array]
    returns it for the list that has one element per key and lists the
    values of the keys [0], [1], ... in order. *)
Theorem convert_dict_to_numpy_dense np_array d (a : A) :
  convert_dict_to_numpy np_array d = inr a <->
  exists l, length l = size d /\
    (forall i : nat, i < size d -> d !! Z.of_nat i = l !! i) /\
    np_array l = inr a.
Proof.
  unfold convert_dict_to_numpy. split.
  - intros Hrun. apply bind_inr in Hrun as (l & Hl & Hnp).
    apply values_in_order in Hl as [Hlen Hkeys]. by exists l.
  - intros (l & Hlen & Hkeys & Hnp).
    by rewrite (proj2 (values_in_order d l) (conj Hlen Hkeys)).
Qed.

(** X2.  A dictionary that [convert_dict_to_numpy] converts has no key
    outside [0 .. len - 1]: negative ids and ids past the length make it
    raise. *)
Theorem convert_dict_to_numpy_keys np_array d (a : A) (k : Z) :
  convert_dict_to_numpy np_array d = inr a -> is_Some (d !! k) ->
  (0 <= k < Z.of_nat (size d))%Z.
Proof.
  intros Hrun Hk. unfold convert_dict_to_numpy in Hrun.
  apply bind_inr in Hrun as (l & Hl & _). apply values_in_order in Hl as [Hlen Hkeys].
  set (ks := list_to_set (Z.of_nat <$> seq 0 (size d)) : gset Z).
  assert (Hsub : ks ⊆ dom d).
  { intros z Hz. apply elem_of_list_to_set, list_elem_of_fmap in Hz as (i & -> & Hi).
    apply list_elem_of_lookup in Hi as [j Hj]. apply lookup_seq in Hj as [-> Hlt].
    apply elem_of_dom. rewrite Hkeys by done. apply lookup_lt_is_Some. lia. }
  assert (Hsize : size ks = size d).
  { unfold ks. rewrite size_list_to_set, length_fmap, length_seq; [done|].
    apply NoDup_fmap; [apply _|apply NoDup_seq]. }
  assert (Heq : ks = dom d).
  { apply set_subseteq_size_eq; [done|]. rewrite size_dom. lia. }
  apply elem_of_dom in Hk. rewrite <- Heq in Hk.
  apply elem_of_list_to_set, list_elem_of_fmap in Hk as (i & -> & Hi).
  apply list_elem_of_lookup in Hi as [j Hj]. apply lookup_seq in Hj as [-> Hlt]. lia.
Qed.

(** X3.  A dictionary with a gap below its length is not converted: the
    first missing index is the key of the [KeyError], and [np.array] is not
    reached. *)
Theorem convert_dict_to_numpy_missing_key np_array d (i : nat) :
  i < size d -> d !! Z.of_nat i = None ->
  (forall j : nat, j < i -> is_Some (d !! Z.of_nat j)) ->
  convert_dict_to_numpy np_array d = inl (KeyError (pretty (Z.of_nat i))).
Proof.
  intros Hi Hnone Hbelow. unfold convert_dict_to_numpy.
  replace (seq 0 (size d)) with (seq 0 i ++ i :: seq (S i) (size d - S i)).
  - rewrite (for_each_inl _ _ _ i (KeyError (pretty (Z.of_nat i)))); [reflexivity| |].
    + apply Forall_forall. intros j Hj. apply list_elem_of_In, in_seq in Hj.
      destruct (Hbelow j ltac:(lia)) as [v Hv]. exists v. by apply int_getitem_inr.
    + unfold int_getitem. by rewrite Hnone.
  - change (i :: seq (S i) (size d - S i)) with (seq i (S (size d - S i))).
    rewrite <- seq_app. f_equal. lia.
Qed.
(** The vector of a list, indexed from 0, converts back to the list. *)
Lemma size_map_seqZ l (start : Z) : size (map_seqZ start l : gmap Z V) = length l.
Proof.
  revert start. induction l as [|x l IH]; intros start; cbn [map_seqZ length].
  - apply map_size_empty.
  - rewrite map_size_insert_None, IH; [done|]. apply lookup_map_seqZ_None. lia.
Qed.

Lemma convert_map_seqZ np_array l :
  convert_dict_to_numpy np_array (map_seqZ 0 l : gmap Z V) = np_array l.
Proof.
  unfold convert_dict_to_numpy.
  rewrite (proj2 (values_in_order (map_seqZ 0 l) l)); [reflexivity|].
  rewrite size_map_seqZ. split; [done|].
  intros i Hi. rewrite lookup_map_seqZ_0 by lia. by rewrite Nat2Z.id.
Qed.

(** *** gather_dict, then convert_dict_to_numpy *)

(** X5.  When the ranks together hold the vector [values], every index on at
    least one rank and every copy with the value of the vector, gathering and
    converting gives on every rank what [np.array] gives for [values]. *)
Theorem gather_then_convert np_array (parts : list (gmap Z V)) (r : nat) (own : gmap Z V)
    (values : list V) :
  parts !! r = Some own ->
  (forall (k : Z) (v : V),
     (exists part, part ∈ parts /\ part !! k = Some v) <->
     (0 <= k)%Z /\ values !! Z.to_nat k = Some v) ->
  exists merged : gmap Z V,
    gather_dict (Some {| peers := parts; rank := r |}) own (length parts) = inr merged /\
    convert_dict_to_numpy np_array merged = np_array values.
Proof.
  intros Hown Hcover. eexists. split; [by apply gather_dict_foldl|].
  assert (foldl dict_update ∅ parts = map_seqZ 0 values) as ->; [|apply convert_map_seqZ].
  apply map_eq. intros k. apply option_eq. intros v.
  rewrite foldl_update_lookup, lookup_map_seqZ_Some, Z.sub_0_r. split.
  - intros [(i & d & Hi & Hd & _)|[Hk _]]; [|by rewrite lookup_empty in Hk].
    apply Hcover. exists d. split; [by eapply list_elem_of_lookup_2|done].
  - intros Hv. left.
    assert (Hsome : is_Some (foldl dict_update ∅ parts !! k)).
    { apply Hcover in Hv as (d & Hin & Hd).
      apply list_elem_of_lookup in Hin as [i Hi].
      destruct (foldl dict_update ∅ parts !! k) as [w|] eqn:Hw; [by eexists|].
      exfalso. revert Hw. clear -Hi Hd. revert i Hi.
      induction parts as [|x ps IH] using rev_ind; intros i Hi Hw.
      - by rewrite lookup_nil in Hi.
      - rewrite foldl_snoc in Hw. unfold dict_update in Hw.
        apply lookup_union_None in Hw as [Hx Hrest].
        apply lookup_app_Some in Hi as [Hi|[_ Hi]].
        + by eapply IH.
        + apply list_lookup_singleton_Some in Hi as [_ ->]. congruence. }
    destruct Hsome as [w Hw]. pose proof Hw as Hw'.
    apply foldl_update_lookup in Hw as [(i & d & Hi & Hd & Hlast)|[Hk _]];
      [|by rewrite lookup_empty in Hk].
    assert (w = v) as ->.
    { assert (Hwv : (0 <= k)%Z /\ values !! Z.to_nat k = Some w).
      { apply Hcover. exists d. split; [by eapply list_elem_of_lookup_2|done]. }
      destruct Hwv as [_ Hwv]. destruct Hv as [_ Hv]. congruence. }
    exists i, d. done.
Qed.
End Convert.

(** *** news_sampling: the other ratios, and sampling without replacement *)

(** X6.  A ratio of zero gives the empty list, a negative ratio makes
    [random.sample] raise, whatever the list. *)
Theorem news_sampling_nonpositive (draws : nat -> nat) (news : list Z) (ratio : Z) :
  (ratio <= 0)%Z ->
  news_sampling draws news ratio =
  (if (ratio =? 0)%Z then inr []
   else inl (ValueError "Sample larger than population or is negative")).
Proof.
  intros Hle. unfold news_sampling, random_sample.
  destruct (Z.ltb_spec (Z.of_nat (length news)) ratio); [lia|].
  destruct (Z.eqb_spec ratio 0) as [->|Hne].
  - destruct (Z.ltb_spec (Z.of_nat (length news)) 0); [lia|]. reflexivity.
  - destruct (Z.ltb_spec ratio 0); [reflexivity|lia].
Qed.

Lemma news_sampling_nonpositive_witness :
  news_sampling (fun i => i) [4; 5]%Z 0%Z = inr [] /\
  news_sampling (fun i => i) [4; 5]%Z (-1)%Z
    = inl (ValueError "Sample larger than population or is negative").
Proof.
  split.
  - apply (news_sampling_nonpositive (fun i => i) [4; 5]%Z 0%Z). lia.
  - apply (news_sampling_nonpositive (fun i => i) [4; 5]%Z (-1)%Z). lia.
Defined.

(** One step of the pool algorithm takes an element out of the pool. *)
Lemma sample_step_permutation (pool : list Z) (j : nat) (x last : Z) :
  pool !! j = Some x -> pool !! (length pool - 1) = Some last ->
  x :: take (length pool - 1) (<[j := last]> pool) ≡ₚ pool.
Proof.
  intros Hx Hlast.
  assert (Hj := lookup_lt_Some _ _ _ Hx).
  assert (Hpool : pool = take (length pool - 1) pool ++ [last]).
  { rewrite <- (take_drop (length pool - 1) pool) at 1. f_equal.
    rewrite (drop_S _ _ _ Hlast). replace (S (length pool - 1)) with (length pool) by lia.
    by rewrite drop_all. }
  destruct (decide (j = length pool - 1)) as [->|Hne].
  - rewrite list_insert_id by done. rewrite Hpool at 3.
    assert (x = last) as -> by congruence. by rewrite Permutation_cons_append.
  - rewrite take_insert_lt by lia.
    set (t := take (length pool - 1) pool) in *.
    assert (Ht : t !! j = Some x) by (unfold t; rewrite lookup_take_lt by lia; done).
    rewrite Hpool. rewrite insert_take_drop by (by eapply lookup_lt_Some).
    rewrite <- (take_drop_middle t j x Ht) at 3.
    rewrite <- (Permutation_cons_append _ last), <- !Permutation_middle.
    apply perm_swap.
Qed.

Lemma sample_pool_submseteq (draws : nat -> nat) (k : nat) :
  forall (i : nat) (pool : list Z), sample_pool draws i k pool ⊆+ pool.
Proof.
  induction k as [|k IH]; intros i pool; cbn [sample_pool].
  - apply submseteq_nil_l.
  - destruct (pool !! (draws i mod length pool)) as [x|] eqn:Hx; [|apply submseteq_nil_l].
    destruct (pool !! (length pool - 1)) as [y|] eqn:Hy; [|apply submseteq_nil_l].
    transitivity (x :: take (length pool - 1) (<[draws i mod length pool := y]> pool)).
    + apply submseteq_skip, IH.
    + apply Permutation_submseteq. by apply sample_step_permutation.
Qed.

(** X7.  For a ratio between 0 and the length of the list, the sample is
    drawn without replacement: it has no more copies of an element than the
    list has, and a sample of the whole list is a permutation of it. *)
Theorem news_sampling_without_replacement (draws : nat -> nat) (news : list Z) (ratio : Z) :
  (0 <= ratio <= Z.of_nat (length news))%Z ->
  exists out : list Z,
    news_sampling draws news ratio = inr out /\
    out ⊆+ news /\
    (ratio = Z.of_nat (length news) -> out ≡ₚ news).
Proof.
  intros [Hlo Hhi]. unfold news_sampling, random_sample.
  destruct (Z.ltb_spec (Z.of_nat (length news)) ratio); [lia|].
  destruct (Z.ltb_spec ratio 0); [lia|]. cbn [orb].
  eexists. split; [reflexivity|]. split; [apply sample_pool_submseteq|].
  intros Hall. apply submseteq_length_Permutation; [apply sample_pool_submseteq|].
  rewrite sample_pool_length by lia. lia.
Qed.

Lemma news_sampling_without_replacement_witness :
  exists out : list Z,
    news_sampling (fun i => i + 1) [7; 8; 7]%Z 3%Z = inr out /\ out ≡ₚ [7; 8; 7]%Z.
Proof.
  destruct (news_sampling_without_replacement (fun i => i + 1) [7; 8; 7]%Z 3%Z)
    as (out & Hrun & _ & Hperm); [cbn; lia|].
  exists out. split; [exact Hrun|]. by apply Hperm.
Defined.

(** *** del_index_column *)

(** X8.  [del_index_column] keeps, in their order and with their contents,
    exactly the columns whose name does not start with "Unnamed"; applying it
    again changes nothing. *)
Theorem del_index_column_keeps_named {C : Type} (df : list (string * C)) :
  (forall col, col ∈ del_index_column df <->
     col ∈ df /\ String.prefix "Unnamed" (fst col) = false) /\
  del_index_column df `sublist_of` df /\
  del_index_column (del_index_column df) = del_index_column df.
Proof.
  unfold del_index_column. split; [|split].
  - intros col. rewrite !list_elem_of_In, filter_In, negb_true_iff. done.
  - induction df as [|col df IH]; cbn [List.filter]; [constructor|].
    destruct (negb _); by constructor.
  - induction df as [|col df IH]; cbn [List.filter]; [done|].
    destruct (negb (String.prefix "Unnamed" (fst col))) eqn:Hcol; [|done].
    cbn [List.filter]. by rewrite Hcol, IH.
Qed.

Example del_index_column_run :
  del_index_column [("Unnamed: 0", [0; 1]); ("title", [5; 6]); ("Unnamed: 0.1", [0; 1])]
  = [("title", [5; 6])].
Proof. reflexivity. Qed.

(** *** get_project_root *)

Lemma py_index_first (x : string) (pre post : list string) :
  x ∉ pre -> py_index x (pre ++ x :: post) = inr (length pre).
Proof.
  induction pre as [|y pre IH]; intros Hnot; cbn [py_index app length].
  - by rewrite String.eqb_refl.
  - apply not_elem_of_cons in Hnot as [Hne Hnot].
    destruct (String.eqb_spec y x) as [->|_]; [done|].
    by rewrite (IH Hnot).
Qed.

Lemma py_index_absent (x : string) (l : list string) :
  x ∉ l -> py_index x l = inl (ValueError "tuple.index(x): x not in tuple").
Proof.
  induction l as [|y l IH]; intros Hnot; cbn [py_index]; [done|].
  apply not_elem_of_cons in Hnot as [Hne Hnot].
  destruct (String.eqb_spec y x) as [->|_]; [done|]. by rewrite (IH Hnot).
Qed.

Lemma commonprefix_app (p rest : list string) : commonprefix (p ++ rest) p = p.
Proof.
  induction p as [|x p IH]; cbn [commonprefix app]; [by destruct rest|].
  by rewrite String.eqb_refl, IH.
Qed.

(** X9.  In a working directory below a directory named [project_name],
    [get_project_root] climbs to the outermost such directory: it returns one
    [".."] per component below it, and ["."] when the working directory is
    that directory.  In any other working directory it raises the
    [ValueError] of [tuple.index]. *)
Theorem get_project_root_climbs (project_name : option string) (cwd : list string) :
  let name := config_get project_name "explainable_nrs" in
  name <> "/" ->
  (forall pre post : list string,
     cwd = pre ++ name :: post -> name ∉ pre ->
     get_project_root project_name cwd =
     inr (match post with
          | [] => "."
          | _ => join "/" (replicate (length post) "..")
          end)) /\
  (name ∉ cwd ->
   get_project_root project_name cwd
   = inl (ValueError "tuple.index(x): x not in tuple")).
Proof.
  intros name Hroot. unfold get_project_root. fold name. split.
  - intros pre post -> Hpre.
    change ("/" :: pre ++ name :: post) with (("/" :: pre) ++ name :: post).
    rewrite (py_index_first name ("/" :: pre) post).
    2:{ apply not_elem_of_cons. split; [done|exact Hpre]. }
    cbn [bind ret length]. replace (S (length pre) + 1) with (S (S (length pre))) by lia.
    assert (Htake : take (S (length pre)) (pre ++ name :: post) = pre ++ [name]).
    { rewrite (cons_middle name pre post), app_assoc.
      apply take_app_length'. rewrite length_app. cbn. lia. }
    cbn [app take drop]. rewrite drop_0, Htake. unfold relpath.
    rewrite (cons_middle name pre post), app_assoc, commonprefix_app.
    rewrite drop_all, app_nil_r, !length_app. cbn [length].
    replace (length pre + 1 + length post - (length pre + 1)) with (length post) by lia.
    by destruct post.
  - intros Hnot. rewrite py_index_absent; [done|].
    apply not_elem_of_cons. split; [done|exact Hnot].
Qed.

Lemma get_project_root_climbs_witness :
  get_project_root None ["home"; "explainable_nrs"; "explainable_nrs"; "experiment"]
    = inr "../.." /\
  get_project_root None ["home"; "explainable_nrs"] = inr "." /\
  get_project_root (Some "nrs") ["home"; "explainable_nrs"]
    = inl (ValueError "tuple.index(x): x not in tuple").
Proof.
  split; [|split].
  - apply (proj1 (get_project_root_climbs None
               ["home"; "explainable_nrs"; "explainable_nrs"; "experiment"] ltac:(discriminate))
             ["home"] ["explainable_nrs"; "experiment"] eq_refl).
    apply not_elem_of_cons. split; [discriminate|apply not_elem_of_nil].
  - apply (proj1 (get_project_root_climbs None ["home"; "explainable_nrs"] ltac:(discriminate))
             ["home"] [] eq_refl).
    apply not_elem_of_cons. split; [discriminate|apply not_elem_of_nil].
  - apply (proj2 (get_project_root_climbs (Some "nrs") ["home"; "explainable_nrs"]
               ltac:(discriminate))).
    repeat (apply not_elem_of_cons; split; [discriminate|]). apply not_elem_of_nil.
Defined.

(** *** write_to_file *)

Lemma string_app_assoc (a b c : string) :
  String.append a (String.append b c) = String.append (String.append a b) c.
Proof.
  induction a as [|x a IH]; [reflexivity|].
  change (String x (String.append a (String.append b c))
          = String x (String.append (String.append a b) c)).
  by f_equal.
Qed.

Lemma string_app_nil_r (a : string) : String.append a EmptyString = a.
Proof.
  induction a as [|x a IH]; [reflexivity|].
  change (String x (String.append a EmptyString) = String x a). by f_equal.
Qed.

(** Writing with mode ["w"] and then with mode ["a"] leaves the
    concatenation of the two texts; a text that is neither a string nor a
    list still empties the file in mode ["w"]; no other file changes. *)
Theorem write_to_file_modes (fs : gmap string string) (file : string) (a b : string) :
  write_to_file (write_to_file fs file (Str a) ModeW) file (Str b) ModeA
    = write_to_file fs file (Str (String.append a b)) ModeW /\
  write_to_file fs file OtherText ModeW !! file = Some EmptyString /\
  (forall (other : string) (text : text_arg) (mode : open_mode),
     other <> file -> write_to_file fs file text mode !! other = fs !! other).
Proof.
  unfold write_to_file, open_file. split; [|split].
  - rewrite lookup_insert_eq. cbn [default String.append]. by rewrite insert_insert_eq.
  - by rewrite lookup_insert_eq.
  - intros other text mode Hne. by rewrite lookup_insert_ne.
Qed.

(** ** Concrete runs *)

(** Keys 0 and 1: the values in the order of the keys. *)
Lemma convert_dict_to_numpy_dense_witness :
  exists l : list nat, length l = size FixtureRest.dense /\
    (forall i : nat, (i < size FixtureRest.dense)%nat ->
       FixtureRest.dense !! Z.of_nat i = l !! i) /\
    FixtureRest.np_array l = inr [5; 7]%nat.
Proof.
  apply (proj1 (convert_dict_to_numpy_dense FixtureRest.np_array FixtureRest.dense
                  [5; 7]%nat)).
  vm_compute. reflexivity.
Defined.

Lemma convert_dict_to_numpy_keys_witness :
  (0 <= 1 < Z.of_nat (size FixtureRest.dense))%Z.
Proof.
  apply (convert_dict_to_numpy_keys FixtureRest.np_array FixtureRest.dense [5; 7]%nat 1%Z).
  - vm_compute. reflexivity.
  - exists 7%nat. vm_compute. reflexivity.
Defined.

(** Keys 0 and 2: the length is 2 and the key 1 is missing. *)
Lemma convert_dict_to_numpy_missing_key_witness :
  convert_dict_to_numpy FixtureRest.np_array FixtureRest.gapped
  = inl (KeyError (pretty (Z.of_nat 1))) /\
  pretty (Z.of_nat 1) = "1".
Proof.
  split; [|vm_compute; reflexivity].
  apply (convert_dict_to_numpy_missing_key FixtureRest.np_array FixtureRest.gapped 1).
  - vm_compute. lia.
  - vm_compute. reflexivity.
  - intros [|j] Hj; [|lia]. exists 5%nat. vm_compute. reflexivity.
Defined.

(** Two ranks with the ids 1 and 2. *)
Lemma gather_dict_same_on_every_rank_witness :
  exists merged : gmap nat nat,
    gather_dict (Some {| peers := [{[1 := 10]}; {[2 := 20]}]; rank := 0 |}) {[1 := 10]} 2
    = inr merged /\
    gather_dict (Some {| peers := [{[1 := 10]}; {[2 := 20]}]; rank := 1 |}) {[2 := 20]} 2
    = inr merged.
Proof.
  apply (gather_dict_same_on_every_rank [{[1 := 10]}; {[2 := 20]}] 0 1); reflexivity.
Defined.

(** Two ranks: one slot raises, three slots give what two give. *)
Lemma gather_dict_process_num_witness :
  gather_dict (Some {| peers := FixtureRest.halves; rank := 0 |}) {[0%Z := 10%nat]} 1
  = inl IndexError /\
  gather_dict (Some {| peers := FixtureRest.halves; rank := 0 |}) {[0%Z := 10%nat]} 3
  = gather_dict (Some {| peers := FixtureRest.halves; rank := 0 |}) {[0%Z := 10%nat]} 2.
Proof.
  split.
  - apply (proj1 (gather_dict_process_num FixtureRest.halves 0 {[0%Z := 10%nat]} 1 eq_refl)).
    vm_compute. lia.
  - apply (proj2 (gather_dict_process_num FixtureRest.halves 0 {[0%Z := 10%nat]} 3 eq_refl)).
    vm_compute. lia.
Defined.

(** Two ranks with one half of the vector [10; 20] each. *)
Lemma gather_then_convert_witness :
  exists merged : gmap Z nat,
    gather_dict (Some {| peers := FixtureRest.halves; rank := 0 |})
      {[0%Z := 10%nat]} 2 = inr merged /\
    convert_dict_to_numpy FixtureRest.np_array merged = FixtureRest.np_array [10; 20]%nat.
Proof.
  apply (gather_then_convert FixtureRest.np_array FixtureRest.halves 0 {[0%Z := 10%nat]}
           [10; 20]%nat);
    [reflexivity|].
  intros k v. split.
  - intros (part & Hin & Hk).
    apply elem_of_cons in Hin as [->|Hin];
      [|apply list_elem_of_singleton in Hin as ->];
      apply lookup_singleton_Some in Hk as [<- <-]; split; (lia || reflexivity).
  - intros [Hk Hv]. destruct (Z.to_nat k) as [|[|n]] eqn:Hn; simpl in Hv.
    + assert (k = 0%Z) as -> by lia. injection Hv as <-.
      exists {[0%Z := 10%nat]}. split; [apply elem_of_cons; by left|].
      apply lookup_singleton_Some. by split.
    + assert (k = 1%Z) as -> by lia. injection Hv as <-.
      exists {[1%Z := 20%nat]}. split; [apply elem_of_cons; right; apply elem_of_cons; by left|].
      apply lookup_singleton_Some. by split.
    + discriminate Hv.
Defined.

End GeneralUtilsRestFacts.

(** ** Facts about tokenize_text.py *)
Module TokenizeTextFacts.
Import GeneralUtils GeneralUtilsRest TokenizeText GeneralUtilsRestFacts.

Lemma has_space_app (a b : string) :
  has_space (String.append a b) = has_space a || has_space b.
Proof.
  induction a as [|c a IH]; [reflexivity|].
  change (is_space c || has_space (String.append a b)
          = is_space c || has_space a || has_space b).
  by rewrite IH, orb_assoc.
Qed.

(** Reading a token moves it into the run being read. *)
Lemma split_from_token (t : string) :
  has_space t = false ->
  forall cur s : string,
    split_from cur (String.append t s) = split_from (String.append cur t) s.
Proof.
  induction t as [|c t IH]; intros Ht cur s.
  - by rewrite string_app_nil_r.
  - cbn [has_space] in Ht. apply orb_false_elim in Ht as [Hc Ht].
    change (String.append (String c t) s) with (String c (String.append t s)).
    cbn [split_from]. rewrite Hc, (IH Ht).
    rewrite <- string_app_assoc. reflexivity.
Qed.

(** Splitting undoes joining with a space, for tokens. *)
Lemma split_join (l : list string) : Forall is_token l -> split (join " " l) = l.
Proof.
  unfold split. induction l as [|x l IH]; intros Hall; [reflexivity|].
  apply Forall_cons in Hall as [[Hne Hx] Hall].
  destruct l as [|y l].
  - cbn [join]. rewrite <- (string_app_nil_r x), (split_from_token x Hx).
    cbn [String.append split_from]. rewrite string_app_nil_r. by destruct x.
  - change (join " " (x :: y :: l))
      with (String.append x (String " " (join " " (y :: l)))).
    rewrite (split_from_token x Hx). cbn [String.append split_from].
    change (is_space " ") with true. cbv iota.
    rewrite (IH Hall). by destruct x.
Qed.

(** The tokens that [split] returns are tokens. *)
Lemma split_from_tokens (s : string) :
  forall cur : string, has_space cur = false -> Forall is_token (split_from cur s).
Proof.
  induction s as [|c s IH]; intros cur Hcur; cbn [split_from].
  - destruct cur; [constructor|]. by repeat constructor.
  - destruct (is_space c) eqn:Hc.
    + destruct cur; [by apply IH|]. constructor; [done|by apply IH].
    + apply IH. rewrite has_space_app. cbn [has_space]. by rewrite Hcur, Hc.
Qed.

Lemma split_tokens (s : string) : Forall is_token (split s).
Proof. by apply split_from_tokens. Qed.

Lemma foldl_count {A} (f : A -> nat) (l : list A) (n : nat) :
  foldl (fun count x => count + f x) n l = n + sum_list (map f l).
Proof.
  revert n. induction l as [|x l IH]; intros n; simpl; [lia|].
  rewrite IH. lia.
Qed.

Section Tokenize.
Variable word_tokenize : string -> list string.
Variable ori_dict : gmap string nat.
Hypothesis word_tokenize_tokens : forall text, Forall is_token (word_tokenize text).

Lemma dictionary_tokens_tokens (r : news) :
  Forall is_token (dictionary_tokens word_tokenize ori_dict r).
Proof.
  unfold dictionary_tokens. apply Forall_forall. intros t Ht.
  apply list_elem_of_In, filter_In in Ht as [Ht _].
  pose proof (word_tokenize_tokens (row_text r)) as Hall.
  rewrite Forall_forall in Hall. apply Hall. by apply list_elem_of_In.
Qed.

(** X10.  When the tokenizer returns tokens, splitting the [tokenized_text]
    of a row gives back the tokens of the row that are in the dictionary, in
    order: every word of the text is a key of [ori_dict]. *)
Theorem tokenize_mind_keeps_dictionary_tokens (df : list news) (r : news) (text : string) :
  (r, text) ∈ tokenize_mind word_tokenize ori_dict df ->
  split text = dictionary_tokens word_tokenize ori_dict r /\
  forall t : string, t ∈ split text -> is_Some (ori_dict !! t).
Proof.
  intros Hin. unfold tokenize_mind in Hin.
  apply list_elem_of_In, in_map_iff in Hin as (r' & Heq & _).
  injection Heq as -> <-.
  assert (Hsplit : split (join " " (dictionary_tokens word_tokenize ori_dict r))
                   = dictionary_tokens word_tokenize ori_dict r)
    by apply split_join, dictionary_tokens_tokens.
  split; [exact Hsplit|].
  intros t Ht. unfold dictionary_tokens, row_text in *. rewrite Hsplit in Ht.
  apply list_elem_of_In, filter_In in Ht as [_ Ht].
  destruct (ori_dict !! t); [by eexists|discriminate Ht].
Qed.

(** X11.  When the tokenizer returns tokens, [count_tokens] of the frame
    that [tokenize_mind] returns is the number of tokens of its rows that are
    in the dictionary. *)
Theorem count_tokens_tokenize_mind (df : list news) :
  count_tokens (tokenize_mind word_tokenize ori_dict df)
  = sum_list (map (fun r => length (dictionary_tokens word_tokenize ori_dict r)) df).
Proof.
  unfold count_tokens. rewrite foldl_count. cbn [Nat.add].
  unfold tokenize_mind. rewrite !map_map. f_equal.
  apply map_ext. intros r. cbn [snd].
  change (length (split (join " " (dictionary_tokens word_tokenize ori_dict r)))
          = length (dictionary_tokens word_tokenize ori_dict r)).
  by rewrite split_join by apply dictionary_tokens_tokens.
Qed.
End Tokenize.

(** *** save_jsonl *)

Lemma join_snoc (sep : string) (acc : list string) (x : string) :
  acc <> [] ->
  join sep (acc ++ [x]) = String.append (join sep acc) (String.append sep x).
Proof.
  induction acc as [|a acc IH]; intros Hne; [done|].
  destruct acc as [|b acc]; [reflexivity|].
  change (join sep ((a :: b :: acc) ++ [x]))
    with (String.append a (String.append sep (join sep ((b :: acc) ++ [x])))).
  rewrite IH by done.
  change (join sep (a :: b :: acc))
    with (String.append a (String.append sep (join sep (b :: acc)))).
  by rewrite !string_app_assoc.
Qed.

Lemma write_rows_join (dumps : string -> string -> string) (rows : list (string * string)) :
  forall (n : nat) (acc : list string),
    acc <> [] ->
    write_rows dumps (S n) rows (join newline acc)
    = join newline (acc ++ map (fun r => dumps (snd r) (fst r)) rows).
Proof.
  induction rows as [|[doc doc_idx] rows IH]; intros n acc Hne; cbn [write_rows map].
  - by rewrite app_nil_r.
  - cbn [Nat.eqb fst snd]. rewrite <- join_snoc by done.
    rewrite IH by (by destruct acc). by rewrite <- app_assoc.
Qed.

(** X12.  [save_jsonl] leaves in the file the JSON documents of the rows
    that [zip] pairs, separated by newlines, with no newline before the first
    or after the last: what [write_to_file] writes for the list of the
    documents.  What the file held before is gone. *)
Theorem save_jsonl_lines (dumps : string -> string -> string) (fs : gmap string string)
    (docs news_id : list string) (path : string) :
  save_jsonl dumps fs docs news_id path
  = write_to_file fs path
      (Lines (map (fun r => dumps (snd r) (fst r)) (zip docs news_id))) ModeW /\
  save_jsonl dumps fs docs news_id path !! path
  = Some (join newline (map (fun r => dumps (snd r) (fst r)) (zip docs news_id))) /\
  length (zip docs news_id) = Nat.min (length docs) (length news_id).
Proof.
  assert (Hrows : forall rows,
    write_rows dumps 0 rows EmptyString
    = join newline (map (fun r => dumps (snd r) (fst r)) rows)).
  { intros [|[doc doc_idx] rows]; [reflexivity|]. cbn [write_rows Nat.eqb String.append map].
    apply (write_rows_join dumps rows 0 [dumps doc_idx doc]). done. }
  unfold save_jsonl, write_to_file, open_file. rewrite Hrows. cbn [String.append].
  split; [done|]. split; [by rewrite lookup_insert_eq|]. apply length_zip_with.
Qed.
(** ** Concrete runs *)

(** The first row of the frame keeps "rain", "snow" and "wind". *)
Lemma tokenize_mind_keeps_dictionary_tokens_witness :
  split "rain snow wind"
  = dictionary_tokens split FixtureRest.ori_dict
      {| title := "rain and snow"; abstract := "wind"; body := "no sun" |} /\
  forall t : string, t ∈ split "rain snow wind" -> is_Some (FixtureRest.ori_dict !! t).
Proof.
  apply (tokenize_mind_keeps_dictionary_tokens split FixtureRest.ori_dict split_tokens
           FixtureRest.df).
  vm_compute. apply elem_of_cons. by left.
Defined.

(** Three tokens of the first row and two of the second are in the
    dictionary. *)
Lemma count_tokens_tokenize_mind_witness :
  count_tokens (tokenize_mind split FixtureRest.ori_dict FixtureRest.df)
  = sum_list (map (fun r => length (dictionary_tokens split FixtureRest.ori_dict r))
                FixtureRest.df) /\
  count_tokens (tokenize_mind split FixtureRest.ori_dict FixtureRest.df) = 5.
Proof.
  split; [|vm_compute; reflexivity].
  apply (count_tokens_tokenize_mind split FixtureRest.ori_dict split_tokens FixtureRest.df).
Defined.

End TokenizeTextFacts.

(** ** More facts about nc_trainer.py *)
Module NCTrainerRestFacts.
Import GeneralUtils NCTrainer TraceReading NCTrainerFacts GeneralUtilsRestFacts.

Section RunModelFacts.
Context {T : Type} `{Scalar T}.
Implicit Types (self : trainer T) (batch_dict : tensor_dict T) (model : option (model_fn T)).
Implicit Types (st : store T).

(** A run of [run_model] that returned has found the fields it reads. *)
Lemma run_model_inv self batch_dict model (multi_gpu : bool) st (r : out_dict T * store T) :
  run_model self batch_dict model multi_gpu st = inr r ->
  exists predicted label entropy attention : tensor T,
    assoc "predicted" (model_output self batch_dict model multi_gpu) = Some predicted /\
    assoc "label" (load_batch_data (dist_initialized self) batch_dict (self_device self)
                     multi_gpu) = Some label /\
    (entropy_constraint self || calculate_entropy self = true ->
       assoc "entropy" (model_output self batch_dict model multi_gpu) = Some entropy) /\
    (calculate_entropy self = true ->
       assoc "attention" (model_output self batch_dict model multi_gpu) = Some attention).
Proof.
  intros Hrun. unfold run_model, model_output in *.
  set (b := load_batch_data _ _ _ _) in *.
  set (output := match model with Some m => m b | None => self_model self b end) in *.
  apply bind_inr in Hrun as (predicted & Hp & Hrun).
  apply bind_inr in Hrun as (label & Hl & Hrun).
  apply getitem_inr in Hp, Hl. cbn [alloc] in Hrun.
  apply bind_inr in Hrun as (st1 & Hst & Hrun).
  apply bind_inr in Hrun as (out & Hout & _).
  destruct (entropy_constraint self), (calculate_entropy self); cbn [orb].
  - apply bind_inr in Hst as (e & He & _). apply bind_inr in Hout as (a & Ha & _).
    apply getitem_inr in He, Ha. by exists predicted, label, e, a.
  - apply bind_inr in Hst as (e & He & _). apply getitem_inr in He.
    exists predicted, label, e, predicted. repeat split; done.
  - apply bind_inr in Hout as (a & Ha & Hout). apply bind_inr in Hout as (e & He & _).
    apply getitem_inr in He, Ha. by exists predicted, label, e, a.
  - exists predicted, label, predicted, predicted. repeat split; done.
Qed.

(** X13.  [run_model] returns exactly when the model output has
    [predicted], the batch has [label], and the output has the fields that
    the flags ask for: [entropy] when either flag is set, [attention] when
    [calculate_entropy] is set.  Otherwise it raises. *)
Theorem run_model_returns_iff self batch_dict model (multi_gpu : bool) st :
  (exists r, run_model self batch_dict model multi_gpu st = inr r) <->
  is_Some (assoc "predicted" (model_output self batch_dict model multi_gpu)) /\
  is_Some (assoc "label" (load_batch_data (dist_initialized self) batch_dict
                            (self_device self) multi_gpu)) /\
  (entropy_constraint self || calculate_entropy self = true ->
     is_Some (assoc "entropy" (model_output self batch_dict model multi_gpu))) /\
  (calculate_entropy self = true ->
     is_Some (assoc "attention" (model_output self batch_dict model multi_gpu))).
Proof.
  split.
  - intros [r Hrun].
    destruct (run_model_inv _ _ _ _ _ _ Hrun) as (p & l & e & a & Hp & Hl & He & Ha).
    split; [by eexists|]. split; [by eexists|]. split; intros Hflag; eexists; eauto.
  - intros ([p Hp] & [l Hl] & He & Ha).
    assert (exists e, entropy_constraint self || calculate_entropy self = true ->
              assoc "entropy" (model_output self batch_dict model multi_gpu) = Some e)
      as [e He'].
    { destruct (entropy_constraint self || calculate_entropy self).
      - destruct (He eq_refl) as [e Hx]. by exists e.
      - by exists p. }
    assert (exists a, calculate_entropy self = true ->
              assoc "attention" (model_output self batch_dict model multi_gpu) = Some a)
      as [a Ha'].
    { destruct (calculate_entropy self).
      - destruct (Ha eq_refl) as [a Hx]. by exists a.
      - by exists p. }
    eexists. exact (run_model_returns self batch_dict model multi_gpu st p l e a Hp Hl He' Ha').
Qed.

End RunModelFacts.

Section EpochTraceFacts.
Context {T : Type} `{Scalar T}.
Variable tensor_len : tensor T -> nat.
Variable tolist : tensor T -> list Z.
Variable argmax_tolist : tensor T -> list Z.
Implicit Types (self : trainer T) (s : epoch_state T) (tr : list (event T)).

Lemma count_events_app (p : event T -> bool) tr tr' :
  count_events p (tr ++ tr') = count_events p tr + count_events p tr'.
Proof. unfold count_events. by rewrite List.filter_app, length_app. Qed.

Lemma train_writer_steps_app tr tr' :
  train_writer_steps (tr ++ tr') = train_writer_steps tr ++ train_writer_steps tr'.
Proof. unfold train_writer_steps. apply omap_app. Qed.

(** What [update_metrics] sends goes to the tracker it is given. *)
Lemma update_metrics_events self (p : phase) (out : option (out_dict T * store T))
    (ps ls : option (list Z)) tr :
  update_metrics tensor_len self p out ps ls = inr tr ->
  Forall (fun e => exists name value n, e = MetricsUpdate p name value n) tr.
Proof.
  assert (Hmets : forall (xs ys : list Z),
    Forall (fun e => exists name value n, e = MetricsUpdate p name value n)
      (map (fun met => MetricsUpdate p (fst met) (snd met xs ys) (length ys))
           (metric_funcs self))).
  { intros xs ys. induction (metric_funcs self) as [|m ms IH]; constructor; [|exact IH].
    by eexists _, _, _. }
  unfold update_metrics. intros Hrun.
  destruct ps as [xs|], ls as [ys|]; try (injection Hrun as <-; apply Hmets);
    (destruct out as [r|]; [|discriminate Hrun]); invert_run;
    (destruct (calculate_entropy self); invert_run;
     [destruct (Nat.eqb _ 0); invert_run|]);
    repeat constructor; by eexists _, _, _.
Qed.

(** Events that only report are invisible to the readers of the trace. *)
Lemma reports_unread tr :
  Forall (fun e => is_report e = true) tr ->
  count_events is_zero_grad tr = 0 /\ count_events is_backward tr = 0 /\
  optimizer_steps tr = 0 /\ train_writer_steps tr = [] /\
  count_events is_scheduler_step tr = 0.
Proof.
  induction 1 as [|e tr He _ (IH1 & IH2 & IH3 & IH4 & IH5)]; [done|].
  destruct e; try discriminate He; done.
Qed.

Lemma updates_report (p : phase) tr :
  Forall (fun e => exists name value n, e = MetricsUpdate p name value n) tr ->
  Forall (fun e => is_report e = true) tr.
Proof.
  intros Hall. eapply Forall_impl; [exact Hall|]. by intros e (name & value & n & ->).
Qed.

(** The events of one iteration of the training loop that completes. *)
Lemma train_step_trace self (epoch : Z) (batch_idx : nat) (batch_dict : tensor_dict T) s s' :
  train_step tensor_len tolist argmax_tolist self epoch batch_idx batch_dict s = inr s' ->
  exists (loss : tensor T) (reports : list (event T)),
    trace s' = trace s ++
      ZeroGrad :: Backward loss :: OptimizerStep ::
      WriterSetStep ((epoch - 1) * Z.of_nat (len_epoch self) + Z.of_nat batch_idx) "train" ::
      reports /\
    Forall (fun e => is_report e = true) reports.
Proof.
  unfold train_step. intros Hrun. invert_run.
  destruct (Nat.eqb (log_step self) 0); invert_run.
  match goal with
  | Hm : update_metrics _ _ _ _ _ _ = inr ?evs |- _ =>
      apply update_metrics_events, updates_report in Hm; rename Hm into Hevs
  end.
  destruct (Nat.eqb (batch_idx mod log_step self) 0); cbn [trace emit];
    rewrite <- !app_assoc; cbn [app]; eexists _, _; (split; [reflexivity|]);
    [apply Forall_app; split; [done|by repeat constructor]|done].
Qed.

(** The events of the training loop: one block per iteration. *)
Lemma train_batches_trace self (epoch : Z) (bs : list (tensor_dict T)) :
  forall (batch_idx : nat) s s',
    batch_idx <= len_epoch self ->
    train_batches tensor_len tolist argmax_tolist self epoch batch_idx bs s = inr s' ->
    let k := Nat.min (length bs) (S (len_epoch self - batch_idx)) in
    exists tail : list (event T),
      trace s' = trace s ++ tail /\
      count_events is_zero_grad tail = k /\
      count_events is_backward tail = k /\
      optimizer_steps tail = k /\
      train_writer_steps tail =
      map (fun i => ((epoch - 1) * Z.of_nat (len_epoch self) + Z.of_nat i)%Z) (seq batch_idx k) /\
      count_events is_scheduler_step tail = 0.
Proof.
  induction bs as [|b bs IH]; intros batch_idx s s' Hle Hrun; cbn [train_batches] in Hrun.
  - invert_run. exists []. by rewrite app_nil_r.
  - apply bind_inr in Hrun as (s1 & Hstep & Hrun).
    apply train_step_trace in Hstep as (loss & reports & Htr & Hrep).
    destruct (reports_unread _ Hrep) as (R1 & R2 & R3 & R4 & R5).
    set (block := ZeroGrad :: Backward loss :: OptimizerStep ::
           WriterSetStep ((epoch - 1) * Z.of_nat (len_epoch self) + Z.of_nat batch_idx)
             "train" :: reports) in *.
    assert (Hblock : count_events is_zero_grad block = 1 /\
                     count_events is_backward block = 1 /\
                     optimizer_steps block = 1 /\
                     train_writer_steps block =
                     [((epoch - 1) * Z.of_nat (len_epoch self) + Z.of_nat batch_idx)%Z] /\
                     count_events is_scheduler_step block = 0).
    { change block with
        ([ZeroGrad; Backward loss; OptimizerStep;
          WriterSetStep ((epoch - 1) * Z.of_nat (len_epoch self) + Z.of_nat batch_idx)
            "train"] ++ reports).
      rewrite !count_events_app, optimizer_steps_app, train_writer_steps_app.
      rewrite R1, R2, R3, R4, R5. done. }
    destruct Hblock as (B1 & B2 & B3 & B4 & B5).
    destruct (Nat.eqb_spec batch_idx (len_epoch self)) as [->|Hne].
    + injection Hrun as <-. exists block. rewrite Nat.sub_diag. cbn [length].
      replace (Nat.min (S (length bs)) 1) with 1 by lia. done.
    + apply IH in Hrun as (tail & Htail & T1 & T2 & T3 & T4 & T5); [|lia].
      exists (block ++ tail). rewrite Htail, Htr, <- app_assoc.
      rewrite !count_events_app, optimizer_steps_app, train_writer_steps_app.
      rewrite B1, B2, B3, B4, B5, T1, T2, T3, T4, T5. cbn [length].
      replace (Nat.min (S (length bs)) (S (len_epoch self - batch_idx)))
        with (S (Nat.min (length bs) (S (len_epoch self - S batch_idx)))) by lia.
      done.
Qed.

(** The events of the loop of [evaluate]. *)
Lemma evaluate_batches_trace self (m : model_fn T) (epoch : Z) (n : nat)
    (bs : list (tensor_dict T)) :
  forall (batch_idx : nat) s s',
    evaluate_batches tensor_len tolist argmax_tolist self m epoch n batch_idx bs s = inr s' ->
    exists tail : list (event T),
      trace s' = trace s ++ tail /\ Forall (fun e => is_eval_event e = true) tail.
Proof.
  induction bs as [|b bs IH]; intros batch_idx s s' Hrun; cbn [evaluate_batches] in Hrun.
  - invert_run. exists []. by rewrite app_nil_r.
  - invert_run. apply IH in Hrun as (tail & Htail & Hall).
    match goal with
    | Hm : update_metrics _ _ _ _ _ _ = inr ?evs |- _ =>
        apply update_metrics_events in Hm; rename Hm into Hevs
    end.
    cbn [trace emit] in Htail. rewrite <- !app_assoc in Htail.
    eexists. split; [exact Htail|].
    apply Forall_app. split; [by repeat constructor|].
    apply Forall_app. split; [|done].
    eapply Forall_impl; [exact Hevs|]. by intros e (name & value & k & ->).
Qed.

(** The events of [evaluate]. *)
Lemma evaluate_added self (ld : loader T) (m : model_fn T) (epoch : Z) s s' :
  evaluate tensor_len tolist argmax_tolist self ld m epoch s = inr s' ->
  exists added : list (event T),
    trace s' = trace s ++ added /\
    Forall (fun e => is_eval_event e = true) added /\
    optimizer_steps added = 0 /\
    count_events is_zero_grad added = 0 /\
    count_events is_backward added = 0 /\
    count_events is_scheduler_step added = 0 /\
    train_writer_steps added = [].
Proof.
  unfold evaluate. intros Hrun.
  apply bind_inr in Hrun as (s1 & Hloop & Hrun).
  apply bind_inr in Hrun as (evs & Hevs & Hrun). injection Hrun as <-.
  apply evaluate_batches_trace in Hloop as (tail & Htail & Hall).
  apply update_metrics_events in Hevs.
  cbn [trace emit] in *. rewrite Htail, <- !app_assoc.
  assert (Hadded : Forall (fun e => is_eval_event e = true)
            ([ModelEval; MetricsReset Valid] ++ tail ++ evs ++ [AddHistograms])).
  { apply Forall_app. split; [by repeat constructor|].
    apply Forall_app. split; [done|]. apply Forall_app. split; [|by repeat constructor].
    eapply Forall_impl; [exact Hevs|]. by intros e (name & value & k & ->). }
  eexists. split; [reflexivity|]. split; [exact Hadded|].
  clear -Hadded. induction Hadded as [|e tr He _ (IH1 & IH2 & IH3 & IH4 & IH5)]; [done|].
  unfold optimizer_steps, count_events, train_writer_steps in *.
  destruct e as [| | | | | |step mode| | | |]; try discriminate He; try done.
  cbn [is_eval_event] in He. apply String.eqb_eq in He as ->. done.
Qed.

(** X15.  [evaluate] only evaluates: the calls it adds are [model.eval()],
    the reset and the updates of the validation metrics, [writer.set_step] in
    mode ["evaluate"] and the histograms.  It makes no call on the optimizer,
    the gradients, the scheduler or the training metrics, and what was
    recorded before it is kept. *)
Theorem evaluate_only_evaluates self (ld : loader T) (m : model_fn T) (epoch : Z) s s' :
  evaluate tensor_len tolist argmax_tolist self ld m epoch s = inr s' ->
  exists added : list (event T),
    trace s' = trace s ++ added /\
    Forall (fun e => is_eval_event e = true) added /\
    optimizer_steps added = 0 /\
    count_events is_zero_grad added = 0 /\
    count_events is_backward added = 0 /\
    count_events is_scheduler_step added = 0.
Proof.
  intros Hrun. apply evaluate_added in Hrun as (added & Htr & Hall & H1 & H2 & H3 & H4 & _).
  by exists added.
Qed.

(** What the readers see in the trace of an epoch that completes. *)
Lemma train_epoch_readers self (epoch : Z) s' :
  _train_epoch tensor_len tolist argmax_tolist self epoch = inr s' ->
  let k := Nat.min (length (batches (train_loader self))) (S (len_epoch self)) in
  count_events is_zero_grad (trace s') = k /\
  count_events is_backward (trace s') = k /\
  optimizer_steps (trace s') = k /\
  count_events is_scheduler_step (trace s') = (if has_lr_scheduler self then 1 else 0) /\
  train_writer_steps (trace s') =
  map (fun i => ((epoch - 1) * Z.of_nat (len_epoch self) + Z.of_nat i)%Z) (seq 0 k).
Proof.
  intros Hrun k. unfold _train_epoch in Hrun.
  apply bind_inr in Hrun as (s1 & Hloop & Hrun).
  apply bind_inr in Hrun as (evs & Hevs & Hrun).
  apply bind_inr in Hrun as (s2 & Hval & Hrun).
  apply train_batches_trace in Hloop as (tail & Htail & T1 & T2 & T3 & T4 & T5); [|lia].
  rewrite Nat.sub_0_r in T1, T2, T3, T4. fold k in T1, T2, T3, T4.
  cbn [trace] in Htail.
  apply update_metrics_events, updates_report in Hevs.
  destruct (reports_unread _ Hevs) as (R1 & R2 & R3 & R4 & R5).
  assert (Hs2 : exists added,
    trace s2 = [ModelTrain; MetricsReset Train] ++ tail ++ evs ++ added /\
    optimizer_steps added = 0 /\ count_events is_zero_grad added = 0 /\
    count_events is_backward added = 0 /\ count_events is_scheduler_step added = 0 /\
    train_writer_steps added = []).
  { destruct (do_validation self).
    - destruct (valid_loader self) as [ld|]; [|discriminate Hval].
      apply bind_inr in Hval as (v & Hv & Hval). injection Hval as <-.
      apply evaluate_added in Hv as (added & Hadd & _ & A1 & A2 & A3 & A4 & A5).
      exists added. cbn [trace emit] in *. rewrite Hadd, Htail, <- !app_assoc. done.
    - injection Hval as <-. exists []. cbn [trace emit]. rewrite Htail, <- !app_assoc.
      by rewrite app_nil_r. }
  destruct Hs2 as (added & Hs2 & A1 & A2 & A3 & A4 & A5).
  injection Hrun as <-.
  destruct (has_lr_scheduler self); cbn [trace emit]; rewrite Hs2;
    rewrite ?count_events_app, ?optimizer_steps_app, ?train_writer_steps_app;
    rewrite T1, T2, T3, T4, T5, R1, R2, R3, R4, R5, A1, A2, A3, A4, A5;
    cbn; rewrite ?app_nil_r; repeat split; lia.
Qed.

(** X16.  In an epoch that completes, every optimizer step comes with one
    [zero_grad] and one [backward]; when the loader yields no more batches
    than [len_epoch], there is one step per batch. *)
Theorem train_epoch_balanced_steps self (epoch : Z) s' :
  _train_epoch tensor_len tolist argmax_tolist self epoch = inr s' ->
  count_events is_zero_grad (trace s') = optimizer_steps (trace s') /\
  count_events is_backward (trace s') = optimizer_steps (trace s') /\
  (length (batches (train_loader self)) <= len_epoch self ->
   optimizer_steps (trace s') = length (batches (train_loader self))).
Proof.
  intros Hrun. destruct (train_epoch_readers _ _ _ Hrun) as (H1 & H2 & H3 & _).
  rewrite H1, H2, H3. split; [done|]. split; [done|]. lia.
Qed.

(** X17.  The steps given to the writer while training are
    [(epoch - 1) * len_epoch + batch_idx] for the successive batches, from
    [batch_idx = 0] on. *)
Theorem train_epoch_writer_steps self (epoch : Z) s' :
  _train_epoch tensor_len tolist argmax_tolist self epoch = inr s' ->
  train_writer_steps (trace s') =
  map (fun i => ((epoch - 1) * Z.of_nat (len_epoch self) + Z.of_nat i)%Z)
      (seq 0 (Nat.min (length (batches (train_loader self))) (S (len_epoch self)))).
Proof. intros Hrun. by destruct (train_epoch_readers _ _ _ Hrun) as (_ & _ & _ & _ & H5). Qed.

(** X18.  The learning-rate scheduler is stepped once per epoch when there
    is one, and never otherwise, whatever the number of batches. *)
Theorem train_epoch_scheduler_steps self (epoch : Z) s' :
  _train_epoch tensor_len tolist argmax_tolist self epoch = inr s' ->
  count_events is_scheduler_step (trace s') = (if has_lr_scheduler self then 1 else 0).
Proof. intros Hrun. by destruct (train_epoch_readers _ _ _ Hrun) as (_ & _ & _ & H4 & _). Qed.
End EpochTraceFacts.

Section TopicRestFacts.
Context {T : Type} `{Scalar T}.
Implicit Types (arrs : arrays T) (D : ndarray T) (word_dict : list (string * nat)).
Implicit Types (topic_dists : list (string * nat)) (entries : list dir_entry).

(** *** reverse_dict *)

Lemma reverse_dict_snoc word_dict (k : string) (v : nat) :
  reverse_dict (word_dict ++ [(k, v)]) = <[v := k]> (reverse_dict word_dict).
Proof. unfold reverse_dict. by rewrite foldl_snoc. Qed.

(** X19.  An index that [reverse_dict] names is the index of that word in
    [word_dict]; when no two words share an index, [reverse_dict] inverts
    [word_dict]: it maps the index of every word back to the word. *)
Theorem reverse_dict_inverts word_dict (k : string) (v : nat) :
  (reverse_dict word_dict !! v = Some k -> (k, v) ∈ word_dict) /\
  (NoDup (map snd word_dict) -> (k, v) ∈ word_dict -> reverse_dict word_dict !! v = Some k).
Proof.
  induction word_dict as [|[k0 v0] wd [IH1 IH2]] using rev_ind.
  - split; [unfold reverse_dict; cbn [foldl]; by rewrite lookup_empty|].
    intros _ Hin. by apply elem_of_nil in Hin.
  - rewrite reverse_dict_snoc. split.
    + intros Hv. apply elem_of_app. destruct (decide (v0 = v)) as [->|Hne].
      * rewrite lookup_insert_eq in Hv. injection Hv as ->. right. by apply list_elem_of_singleton.
      * rewrite lookup_insert_ne in Hv by done. left. by apply IH1.
    + rewrite map_app. cbn [map snd]. intros Hdup Hin.
      apply NoDup_app in Hdup as (Hwd & Hnot & _).
      apply elem_of_app in Hin as [Hin|Hin].
      * rewrite lookup_insert_ne; [by apply IH2|].
        intros ->. apply (Hnot v); [|by apply list_elem_of_singleton].
        apply list_elem_of_In, in_map_iff. exists (k, v). split; [done|].
        by apply list_elem_of_In.
      * apply list_elem_of_singleton in Hin. injection Hin as -> ->.
        by rewrite lookup_insert_eq.
Qed.

(** *** The variants *)

Lemma NoDup_dict_set {V} (d : list (string * V)) (k : string) (v : V) :
  NoDup (map fst d) -> NoDup (map fst (dict_set d k v)).
Proof.
  induction d as [|[k' x] d IH]; cbn [dict_set map fst]; intros Hdup.
  - repeat constructor. apply not_elem_of_nil.
  - apply NoDup_cons in Hdup as [Hnot Hdup].
    destruct (String.eqb_spec k' k) as [->|Hne]; cbn [map fst].
    + by apply NoDup_cons.
    + apply NoDup_cons. split; [|by apply IH].
      intros Hin. apply list_elem_of_In, in_map_iff in Hin as ([k1 x1] & Hk & Hin).
      cbn [fst] in Hk. subst k1. apply list_elem_of_In, elem_of_dict_set in Hin as [Hin|Hin].
      * apply Hnot. apply list_elem_of_In, in_map_iff. exists (k', x1).
        split; [done|]. by apply list_elem_of_In.
      * by injection Hin as -> _.
Qed.

Lemma length_dict_set {V} (d : list (string * V)) (k : string) (v : V) :
  length (dict_set d k v) <= S (length d).
Proof.
  induction d as [|[k' x] d IH]; cbn [dict_set length]; [lia|].
  destruct (String.eqb k' k); cbn [length]; lia.
Qed.

Lemma assoc_dict_set_is_Some {V} (d : list (string * V)) (k k0 : string) (v : V) :
  is_Some (assoc k0 d) -> is_Some (assoc k0 (dict_set d k v)).
Proof.
  induction d as [|[k' x] d IH]; cbn [dict_set assoc]; [by intros [? ?]|].
  destruct (String.eqb_spec k' k) as [->|Hne]; cbn [assoc];
    destruct (String.eqb k0 k0), (String.eqb _ k0); eauto.
Qed.

Lemma add_variants_shape word_dict (topic_dist : nat) entries :
  forall topic_dists arrs (r : list (string * nat) * arrays T),
    add_variants word_dict topic_dist entries topic_dists arrs = inr r ->
    (NoDup (map fst topic_dists) -> NoDup (map fst (fst r))) /\
    (forall key, is_Some (assoc key topic_dists) -> is_Some (assoc key (fst r))) /\
    length (fst r) <= length topic_dists + length (List.filter is_json entries) /\
    length (snd r) = length arrs + length (List.filter is_json entries).
Proof.
  induction entries as [|path rest IH]; intros topic_dists arrs r Hrun;
    cbn [add_variants] in Hrun.
  - injection Hrun as <-. cbn. repeat split; try done; lia.
  - cbn [List.filter]. destruct (is_json path) eqn:Hjson; unfold is_json in Hjson;
      rewrite Hjson in Hrun; cbn [negb] in Hrun.
    + apply bind_inr in Hrun as ([c arrs1] & Hcopy & Hrun).
      apply bind_inr in Hrun as (arrs2 & Hset & Hrun).
      unfold deepcopy in Hcopy. destruct (arrs !! topic_dist); [|discriminate Hcopy].
      injection Hcopy as <- <-. unfold setitem_columns in Hset.
      destruct (_ !! length arrs); [|discriminate Hset].
      destruct (forallb _ _); [|discriminate Hset]. injection Hset as <-.
      apply IH in Hrun as (Hdup & Hkeep & Hlen & Harr).
      unfold arrays in *. rewrite length_insert, length_app in Harr. cbn [length] in *.
      pose proof (length_dict_set topic_dists (replace (entry_name path) ".json" "")
                    (length arrs)).
      split; [intros Hnd; by apply Hdup, NoDup_dict_set|].
      split; [intros key Hkey; by apply Hkeep, assoc_dict_set_is_Some|].
      split; lia.
    + by apply IH in Hrun.
Qed.

(** X20.  The variants that [build_topic_dists] returns have distinct names
    and "original" is one of them; there are at most one more than there are
    [.json] files, and one array is allocated per [.json] file. *)
Theorem build_topic_dists_variants word_dict (topic_dist : nat) entries arrs
    (r : list (string * nat) * arrays T) :
  build_topic_dists word_dict topic_dist (Some entries) arrs = inr r ->
  NoDup (map fst (fst r)) /\
  is_Some (assoc "original" (fst r)) /\
  length (fst r) <= 1 + length (List.filter is_json entries) /\
  length (snd r) = length arrs + length (List.filter is_json entries).
Proof.
  intros Hrun. unfold build_topic_dists in Hrun.
  apply add_variants_shape in Hrun as (Hdup & Hkeep & Hlen & Harr).
  split; [apply Hdup; repeat constructor; apply not_elem_of_nil|].
  split; [apply Hkeep; by eexists|]. done.
Qed.

(** X21.  Directory entries whose name does not end in ".json" have no
    effect on the variants. *)
Theorem build_topic_dists_ignores_other_files word_dict (topic_dist : nat) entries arrs :
  build_topic_dists word_dict topic_dist (Some entries) arrs
  = build_topic_dists word_dict topic_dist (Some (List.filter is_json entries)) arrs.
Proof.
  unfold build_topic_dists. generalize [("original", topic_dist)]. revert arrs.
  induction entries as [|path rest IH]; intros arrs topic_dists; [reflexivity|].
  cbn [List.filter add_variants]. destruct (is_json path) eqn:Hjson; unfold is_json in Hjson;
    rewrite Hjson; cbn [negb add_variants].
  - rewrite Hjson. cbn [negb].
    destruct (deepcopy arrs topic_dist) as [e|[c arrs1]]; [reflexivity|]. cbn [bind].
    destruct (setitem_columns arrs1 c _) as [e|arrs2]; [reflexivity|]. cbn [bind].
    apply IH.
  - apply IH.
Qed.
Lemma add_variants_error word_dict (topic_dist : nat) entries :
  forall topic_dists arrs (e : exn),
    add_variants word_dict topic_dist entries topic_dists arrs = inl e -> e = IndexError.
Proof.
  induction entries as [|path rest IH]; intros topic_dists arrs e Hrun;
    cbn [add_variants] in Hrun; [discriminate Hrun|].
  destruct (endswith (entry_name path) ".json"); cbn [negb] in Hrun; [|by eapply IH].
  unfold deepcopy in Hrun. destruct (arrs !! topic_dist); [|by injection Hrun as <-].
  cbn beta iota delta [bind ret] in Hrun. unfold setitem_columns in Hrun.
  destruct (_ !! length arrs); [|by injection Hrun as <-].
  destruct (forallb _ _); [|by injection Hrun as <-].
  cbn beta iota delta [bind ret] in Hrun. by eapply IH.
Qed.

Lemma add_variants_in_range word_dict (topic_dist : nat) D entries :
  forall topic_dists arrs (r : list (string * nat) * arrays T),
    arrs !! topic_dist = Some D ->
    add_variants word_dict topic_dist entries topic_dists arrs = inr r ->
    forall path, path ∈ entries -> is_json path = true ->
      Forall (fun j => j < shape1 D) (removed_index word_dict (entry_json path)).
Proof.
  induction entries as [|path rest IH]; intros topic_dists arrs r HD Hrun p Hp Hjson.
  - by apply elem_of_nil in Hp.
  - cbn [add_variants] in Hrun. unfold arrays in *.
    destruct (endswith (entry_name path) ".json") eqn:Hpath; cbn [negb] in Hrun.
    + unfold deepcopy, arrays in Hrun. rewrite HD in Hrun.
      cbn beta iota delta [bind ret] in Hrun.
      unfold setitem_columns, arrays in Hrun. rewrite store_lookup_new in Hrun.
      destruct (forallb _ _) eqn:Hall; [|discriminate Hrun].
      cbn beta iota delta [bind ret] in Hrun. rewrite store_insert_new in Hrun.
      apply elem_of_cons in Hp as [->|Hp].
      * apply Forall_forall. intros j Hj. rewrite forallb_forall in Hall.
        apply Nat.ltb_lt, Hall. by apply list_elem_of_In.
      * eapply IH; [|exact Hrun|done|done]. by apply lookup_app_l_Some.
    + apply elem_of_cons in Hp as [->|Hp].
      * unfold is_json in Hjson. congruence.
      * by eapply IH.
Qed.

(** X22.  [build_topic_dists] returns exactly when, for every [.json] file,
    the index of every word that its whitelist leaves out is a column of the
    distribution; it raises [IndexError] otherwise. *)
Theorem build_topic_dists_returns_iff word_dict (topic_dist : nat) D entries arrs :
  arrs !! topic_dist = Some D ->
  ((exists r, build_topic_dists word_dict topic_dist (Some entries) arrs = inr r) <->
   forall path, path ∈ entries -> is_json path = true ->
     Forall (fun j => j < shape1 D) (removed_index word_dict (entry_json path))) /\
  (forall e, build_topic_dists word_dict topic_dist (Some entries) arrs = inl e ->
     e = IndexError).
Proof.
  intros HD. unfold build_topic_dists. split; [split|].
  - intros [r Hrun]. by eapply add_variants_in_range.
  - intros Hrange. by eapply add_variants_returns.
  - apply add_variants_error.
Qed.

Lemma removed_index_nil word_dict (post_word_dict : gmap string nat) :
  (forall word v, (word, v) ∈ word_dict -> is_Some (post_word_dict !! word)) ->
  removed_index word_dict post_word_dict = [].
Proof.
  intros Hall. unfold removed_index.
  induction word_dict as [|[word v] wd IH]; [reflexivity|]. cbn [List.filter fst].
  destruct (Hall word v) as [x ->]; [by apply elem_of_cons; left|].
  apply IH. intros w v' Hin. apply (Hall w v'). by apply elem_of_cons; right.
Qed.

Lemma zero_columns_nil D : zero_columns [] D = D.
Proof.
  destruct D as [n rs]. unfold zero_columns. cbn [shape1 rows foldl]. f_equal.
  induction rs as [|row rs IH]; [reflexivity|]. cbn [map]. by rewrite IH.
Qed.

(** X23.  When the whitelist of every [.json] file contains every word of
    the vocabulary, every variant has the weights of the original
    distribution. *)
Theorem build_topic_dists_full_whitelists word_dict (topic_dist : nat) D entries arrs
    (r : list (string * nat) * arrays T) :
  arrs !! topic_dist = Some D ->
  (forall path word v, path ∈ entries -> (word, v) ∈ word_dict ->
     is_Some (entry_json path !! word)) ->
  build_topic_dists word_dict topic_dist (Some entries) arrs = inr r ->
  forall key l, (key, l) ∈ fst r -> snd r !! l = Some D.
Proof.
  intros HD Hfull Hrun key l Hin. unfold build_topic_dists in Hrun.
  destruct (add_variants_frame word_dict topic_dist D entries _ _ _ HD Hrun)
    as (Hframe & Hnew & _).
  destruct (Hnew key l Hin) as [Hold|(_ & path & Hp & _ & Harr)].
  - apply list_elem_of_singleton in Hold. injection Hold as -> ->. by apply Hframe.
  - rewrite Harr, removed_index_nil, zero_columns_nil; [done|].
    intros word v Hw. by apply (Hfull path word v).
Qed.

(** *** slow_eval *)

Lemma foldl_dict_set_one_key {A V} (f : A -> V) (k : string) (ms : list A) (d : list (string * V)) :
  foldl (fun d m => dict_set d k (f m)) d ms =
  match last ms with
  | Some m => dict_set d k (f m)
  | None => d
  end.
Proof.
  revert d. induction ms as [|m ms IH]; intros d; [reflexivity|]. cbn [foldl].
  rewrite IH. destruct ms as [|m' ms]; [reflexivity|].
  change (last (m :: m' :: ms)) with (last (m' :: ms)).
  destruct (last (m' :: ms)) as [x|] eqn:Hlast; [|by apply last_None in Hlast].
  clear. induction d as [|[k' y] d IHd]; cbn [dict_set].
  - by rewrite String.eqb_refl.
  - destruct (String.eqb k' k) eqn:Hk; cbn [dict_set]; rewrite Hk; [done|]. by rewrite IHd.
Qed.

(** X24.  With [slow_eval], the scores of a variant are one entry, named
    [<variant>_m], which holds the coherence computed for the last item that
    iterating [coherence_method] yields; when the method is left at its
    default, the string "c_npmi", that item is its last character. *)
Theorem slow_eval_keeps_last_method (co : collaborators T) (cfg : eval_config) word_dict
    arrs (key : string) (dist : nat) (a : ndarray T) (topic_result : list (string * T))
    (topic_scores : option (list (string * list T)))
    (r : list (string * T) * option (list (string * list T))) :
  arrs !! dist = Some a ->
  py_in "slow_eval" (topic_evaluation_method cfg) = inr true ->
  evaluate_variant co cfg word_dict arrs key dist topic_result topic_scores = inr r ->
  let top_n := config_get (top_n_cfg cfg) 10%Z in
  let topic_list := get_topic_list co a top_n (reverse_dict word_dict) in
  snd r = Some (match last (py_iter (config_get (coherence_method cfg) (PyStr "c_npmi"))) with
                | Some m => [(String.append key "_m", compute_coherence co topic_list m top_n)]
                | None => []
                end) /\
  last (py_iter (config_get None (PyStr "c_npmi"))) = Some "i".
Proof.
  intros Ha Hslow Hrun top_n topic_list. split; [|reflexivity].
  unfold evaluate_variant in Hrun. unfold arrays in *. rewrite Ha in Hrun.
  cbn [bind ret] in Hrun.
  apply bind_inr in Hrun as (project_root & _ & Hrun).
  apply bind_inr in Hrun as (fast & _ & Hrun).
  apply bind_inr in Hrun as (scores & _ & Hrun).
  rewrite Hslow in Hrun. cbn [bind ret] in Hrun.
  apply bind_inr in Hrun as (w2v & _ & Hrun).
  apply bind_inr in Hrun as (tr & _ & Hrun). injection Hrun as <-. cbn [snd].
  f_equal. rewrite foldl_dict_set_one_key. fold top_n. fold topic_list.
  by destruct (last _).
Qed.

Lemma get_project_root_outside (cwd : list string) :
  "explainable_nrs" ∉ cwd ->
  get_project_root None cwd = inl (ValueError "tuple.index(x): x not in tuple").
Proof.
  intros Hnot. unfold get_project_root. cbn [config_get].
  rewrite py_index_absent; [done|].
  apply not_elem_of_cons. split; [discriminate|exact Hnot].
Qed.

(** X27.  In a working directory with no component named "explainable_nrs",
    [topic_evaluation] returns no report, whatever is configured: the default
    of [ref_data_path] calls [get_project_root()] in the first iteration of
    the loop over the variants.  It raises the [ValueError] of [tuple.index],
    unless building the variants has raised [IndexError] before. *)
Theorem topic_evaluation_outside_project (co : collaborators T) (cfg : eval_config)
    word_dict (topic_dist : ndarray T) :
  "explainable_nrs" ∉ getcwd co ->
  (exists e : exn,
     topic_evaluation co cfg word_dict topic_dist = inl e /\
     (e = IndexError \/ e = ValueError "tuple.index(x): x not in tuple")) /\
  (post_word_dict_dir cfg = None ->
   topic_evaluation co cfg word_dict topic_dist
   = inl (ValueError "tuple.index(x): x not in tuple")).
Proof.
  intros Hout. pose proof (get_project_root_outside _ Hout) as Hroot. split.
  - unfold topic_evaluation.
    destruct (build_topic_dists word_dict 0 (post_word_dict_dir cfg) [topic_dist])
      as [e|[topic_dists arrs]] eqn:Hb; cbn [bind].
    + exists e. split; [reflexivity|]. left.
      unfold build_topic_dists in Hb. destruct (post_word_dict_dir cfg); [|discriminate Hb].
      by eapply add_variants_error.
    + assert (Horig : is_Some (assoc "original" topic_dists)).
      { unfold build_topic_dists in Hb. destruct (post_word_dict_dir cfg).
        - apply add_variants_shape in Hb as (_ & Hkeep & _). cbn [fst] in Hkeep.
          apply Hkeep. by eexists.
        - injection Hb as <- <-. by eexists. }
      destruct topic_dists as [|[key l] rest]; [by destruct Horig|].
      cbn [fst snd evaluate_variants]. unfold evaluate_variant at 1.
      destruct (arrs !! l) as [a|]; cbn [bind ret].
      * rewrite Hroot. cbn [bind]. eexists. split; [reflexivity|by right].
      * eexists. split; [reflexivity|by left].
  - intros Hdir. unfold topic_evaluation, build_topic_dists. rewrite Hdir.
    cbn [bind ret fst snd evaluate_variants]. unfold evaluate_variant.
    cbn [lookup list_lookup bind ret]. rewrite Hroot. reflexivity.
Qed.
End TopicRestFacts.

(** *** w2v_sim: when it returns *)

Section SimilarityReturns.
Context {T : Type} `{Scalar T}.
Implicit Types (co : collaborators T) (word_dict : list (string * nat)).

Lemma take_rows_inv (E : list (list T)) (i : list nat) (X : list (list T)) :
  take_rows E i = inr X -> length X = length i /\ Forall (fun j => j < length E) i.
Proof.
  revert X. induction i as [|j i IH]; intros X Hrun; cbn [take_rows] in Hrun.
  - by injection Hrun as <-.
  - destruct (E !! j) as [row|] eqn:Hj; [|discriminate Hrun].
    apply bind_inr in Hrun as (rest & Hrest & Hrun). injection Hrun as <-.
    apply IH in Hrest as [Hlen Hall]. simpl. split; [congruence|].
    constructor; [by eapply lookup_lt_Some|done].
Qed.

Lemma take_rows_returns (E : list (list T)) (i : list nat) :
  Forall (fun j => j < length E) i -> exists X, take_rows E i = inr X /\ length X = length i.
Proof.
  induction 1 as [|j i Hj _ (X & HX & Hlen)]; cbn [take_rows].
  - by exists [].
  - destruct (lookup_lt_is_Some_2 E j Hj) as [row ->]. rewrite HX. cbn [bind ret].
    exists (row :: X). simpl. split; [reflexivity|congruence].
Qed.

Lemma word_indices_inv word_dict (topic : list string) (idx : list nat) :
  for_each (getitem word_dict) topic = inr idx ->
  length idx = length topic /\
  Forall2 (fun word v => assoc word word_dict = Some v) topic idx.
Proof.
  intros Hrun. apply for_each_inr in Hrun. split; [by apply Forall2_length in Hrun|].
  eapply Forall2_impl; [exact Hrun|]. intros word v Hw. by apply getitem_inr.
Qed.

Lemma similarities_inv co word_dict (topic_list : list (list string)) :
  forall (topic_index : list (list nat)) (sims : list T),
    for_each (for_each (getitem word_dict)) topic_list = inr topic_index ->
    for_each (fun i => do X <- take_rows (embeddings co) i;
                       do K <- cosine_similarity co X;
                       ret (np_sum (np_triu K 1))) topic_index = inr sims ->
    Forall (readable_topic co word_dict) topic_list.
Proof.
  induction topic_list as [|topic rest IH]; intros topic_index sims Hidx Hsims;
    [constructor|].
  cbn [for_each] in Hidx. apply bind_inr in Hidx as (idx & Htopic & Hidx).
  apply bind_inr in Hidx as (ti & Hrest & Hidx). injection Hidx as <-.
  cbn [for_each] in Hsims. apply bind_inr in Hsims as (y & Hy & Hsims).
  apply bind_inr in Hsims as (ys & Hys & _).
  constructor; [|by eapply IH].
  apply bind_inr in Hy as (X & HX & Hy). apply bind_inr in Hy as (K & HK & _).
  apply take_rows_inv in HX as [HlenX Hrange].
  apply word_indices_inv in Htopic as [Hlen Hwords].
  split.
  - intros ->. cbn [length] in Hlen. destruct idx; [|discriminate Hlen].
    destruct X; [discriminate HK|discriminate HlenX].
  - apply Forall_forall. intros word Hword.
    apply list_elem_of_lookup in Hword as [n Hn].
    destruct (Forall2_lookup_l _ _ _ _ _ Hwords Hn) as (v & Hv & Hw).
    exists v. split; [done|]. rewrite Forall_forall in Hrange. apply Hrange.
    by eapply list_elem_of_lookup_2.
Qed.

Lemma similarities_return co word_dict (topic_list : list (list string)) :
  Forall (readable_topic co word_dict) topic_list ->
  exists (topic_index : list (list nat)) (sims : list T),
    for_each (for_each (getitem word_dict)) topic_list = inr topic_index /\
    for_each (fun i => do X <- take_rows (embeddings co) i;
                       do K <- cosine_similarity co X;
                       ret (np_sum (np_triu K 1))) topic_index = inr sims /\
    length topic_index = length topic_list.
Proof.
  induction 1 as [|topic rest [Hne Hwords] _ (ti & sims & Hti & Hsims & Hlen)].
  - by exists [], [].
  - assert (Hidx : exists idx, for_each (getitem word_dict) topic = inr idx /\
                     length idx = length topic /\
                     Forall (fun j => j < length (embeddings co)) idx).
    { clear -Hwords. induction Hwords as [|word ws (v & Hv & Hlt) _ (idx & Hidx & Hlen & Hall)].
      - by exists [].
      - exists (v :: idx). cbn [for_each]. apply getitem_inr in Hv. rewrite Hv, Hidx.
        cbn [bind ret length]. split; [done|]. split; [by rewrite Hlen|by constructor]. }
    destruct Hidx as (idx & Hidx & Hlenidx & Hrange).
    destruct (take_rows_returns _ _ Hrange) as (X & HX & HlenX).
    assert (HXne : X <> []).
    { intros ->. cbn [length] in HlenX. destruct idx; [|discriminate HlenX].
      cbn [length] in Hlenidx. by destruct topic. }
    exists (idx :: ti). eexists. cbn [for_each]. rewrite Hidx, Hti. cbn [bind ret].
    rewrite HX. cbn [bind]. destruct X as [|x X]; [done|].
    cbn [cosine_similarity bind ret]. rewrite Hsims. cbn [bind ret length].
    split; [done|]. split; [reflexivity|]. by rewrite Hlen.
Qed.

(** X25.  [w2v_sim] returns exactly when every topic has a word, every word
    of a topic is in [word_dict] with an index that is a row of the embedding
    matrix, and the divisor is not zero for an empty list of topics.
    Otherwise it raises. *)
Theorem w2v_sim_returns_iff co word_dict (top_n : Z) (topic_list : list (list string)) :
  (exists sim, w2v_sim co word_dict top_n topic_list = inr sim) <->
  Forall (readable_topic co word_dict) topic_list /\
  (topic_list = [] -> (head_num co * top_n * (top_n - 1))%Z <> 0%Z).
Proof.
  unfold w2v_sim. split.
  - intros [sim Hrun].
    apply bind_inr in Hrun as (topic_index & Hidx & Hrun).
    apply bind_inr in Hrun as (sims & Hsims & Hrun).
    split; [by eapply similarities_inv|].
    intros ->. cbn [for_each] in Hidx. injection Hidx as <-.
    destruct (Z.eqb_spec (head_num co * top_n * (top_n - 1)) 0); [discriminate Hrun|done].
  - intros [Hall Hcount].
    destruct (similarities_return _ _ _ Hall) as (ti & sims & Hti & Hsims & Hlen).
    rewrite Hti. cbn [bind]. rewrite Hsims. cbn [bind].
    destruct ti as [|i ti]; [|by eexists].
    destruct topic_list; [|discriminate Hlen].
    destruct (Z.eqb_spec (head_num co * top_n * (top_n - 1)) 0) as [Hz|_]; [|by eexists].
    by destruct (Hcount eq_refl).
Qed.
End SimilarityReturns.

(** ** Concrete runs *)

Lemma run_model_returns_iff_witness :
  is_Some (assoc "predicted" (model_output Fixture.self Fixture.batch None true)) /\
  is_Some (assoc "label" (load_batch_data (dist_initialized Fixture.self) Fixture.batch
                            (self_device Fixture.self) true)) /\
  (entropy_constraint Fixture.self || calculate_entropy Fixture.self = true ->
     is_Some (assoc "entropy" (model_output Fixture.self Fixture.batch None true))) /\
  (calculate_entropy Fixture.self = true ->
     is_Some (assoc "attention" (model_output Fixture.self Fixture.batch None true))).
Proof.
  apply (proj1 (run_model_returns_iff Fixture.self Fixture.batch None true [])).
  eexists. vm_compute. reflexivity.
Defined.

(** Validation over the two batches of the loader. *)
Lemma evaluate_only_evaluates_witness :
  exists s' : epoch_state Z,
    evaluate Fixture.tensor_len Fixture.tolist Fixture.argmax_tolist FixtureRest.self_full
      Fixture.data_train Fixture.model 2%Z FixtureRest.start = inr s' /\
    exists added : list (event Z),
      trace s' = trace FixtureRest.start ++ added /\
      Forall (fun e => is_eval_event e = true) added /\
      optimizer_steps added = 0 /\
      count_events is_zero_grad added = 0 /\
      count_events is_backward added = 0 /\
      count_events is_scheduler_step added = 0.
Proof.
  eexists. split; [vm_compute; reflexivity|].
  apply (evaluate_only_evaluates Fixture.tensor_len Fixture.tolist Fixture.argmax_tolist
           FixtureRest.self_full Fixture.data_train Fixture.model 2%Z FixtureRest.start).
  vm_compute. reflexivity.
Defined.

(** Two batches, [len_epoch] 2: two steps, each with its [zero_grad] and
    [backward]. *)
Lemma train_epoch_balanced_steps_witness :
  exists s' : epoch_state Z,
    _train_epoch Fixture.tensor_len Fixture.tolist Fixture.argmax_tolist
      FixtureRest.self_full 2%Z = inr s' /\
    count_events is_zero_grad (trace s') = optimizer_steps (trace s') /\
    count_events is_backward (trace s') = optimizer_steps (trace s') /\
    optimizer_steps (trace s') = 2.
Proof.
  eexists. split; [vm_compute; reflexivity|].
  edestruct (train_epoch_balanced_steps Fixture.tensor_len Fixture.tolist
               Fixture.argmax_tolist FixtureRest.self_full 2%Z)
    as (Hzero & Hback & Hsteps); [vm_compute; reflexivity|].
  split; [exact Hzero|]. split; [exact Hback|].
  rewrite Hsteps; [reflexivity|vm_compute; lia].
Defined.

(** The second epoch of a loader of length 2 writes the steps 2 and 3; with
    the loader that yields three batches, 2, 3 and 4. *)
Lemma train_epoch_writer_steps_witness :
  exists s' : epoch_state Z,
    _train_epoch Fixture.tensor_len Fixture.tolist Fixture.argmax_tolist
      Fixture.self 2%Z = inr s' /\
    train_writer_steps (trace s') = [2; 3; 4]%Z.
Proof.
  eexists. split; [vm_compute; reflexivity|].
  apply (train_epoch_writer_steps Fixture.tensor_len Fixture.tolist Fixture.argmax_tolist
           Fixture.self 2%Z).
  vm_compute. reflexivity.
Defined.

Lemma train_epoch_scheduler_steps_witness :
  exists s' : epoch_state Z,
    _train_epoch Fixture.tensor_len Fixture.tolist Fixture.argmax_tolist
      FixtureRest.self_full 2%Z = inr s' /\
    count_events is_scheduler_step (trace s') = 1.
Proof.
  eexists. split; [vm_compute; reflexivity|].
  apply (train_epoch_scheduler_steps Fixture.tensor_len Fixture.tolist Fixture.argmax_tolist
           FixtureRest.self_full 2%Z).
  vm_compute. reflexivity.
Defined.

Lemma reverse_dict_inverts_witness :
  reverse_dict Fixture.word_dict !! 1 = Some "pear".
Proof.
  apply (proj2 (reverse_dict_inverts Fixture.word_dict "pear" 1)).
  - apply (bool_decide_unpack _). vm_compute. exact I.
  - vm_compute. apply elem_of_cons. right. apply elem_of_cons. by left.
Defined.

(** One whitelist file and one other file: two variants, one new array. *)
Lemma build_topic_dists_variants_witness :
  exists r : list (string * nat) * arrays Z,
    build_topic_dists Fixture.word_dict 0
      (Some [Fixture.whitelist "fruit.json"; Fixture.whitelist "notes.txt"])
      [Fixture.topic_dist] = inr r /\
    NoDup (map fst (fst r)) /\
    is_Some (assoc "original" (fst r)) /\
    length (fst r) <= 1 + 1 /\
    length (snd r) = 1 + 1.
Proof.
  eexists. split; [vm_compute; reflexivity|].
  apply (build_topic_dists_variants Fixture.word_dict 0
           [Fixture.whitelist "fruit.json"; Fixture.whitelist "notes.txt"]
           [Fixture.topic_dist]).
  vm_compute. reflexivity.
Defined.

(** The whitelist leaves out "apple", whose index 0 is a column of the
    distribution of two columns. *)
Lemma build_topic_dists_returns_iff_witness :
  ((exists r, build_topic_dists Fixture.word_dict 0 (Some [Fixture.whitelist "fruit.json"])
                [FixtureRest.narrow_dist] = inr r) <->
   forall path, path ∈ [Fixture.whitelist "fruit.json"] -> is_json path = true ->
     Forall (fun j => j < shape1 FixtureRest.narrow_dist)
       (removed_index Fixture.word_dict (entry_json path))) /\
  (forall e, build_topic_dists Fixture.word_dict 0 (Some [Fixture.whitelist "fruit.json"])
               [FixtureRest.narrow_dist] = inl e -> e = IndexError).
Proof.
  apply (build_topic_dists_returns_iff Fixture.word_dict 0 FixtureRest.narrow_dist
           [Fixture.whitelist "fruit.json"] [FixtureRest.narrow_dist]).
  reflexivity.
Defined.

(** A whitelist with the three words of the vocabulary. *)
Lemma build_topic_dists_full_whitelists_witness :
  exists r : list (string * nat) * arrays Z,
    build_topic_dists Fixture.word_dict 0 (Some [FixtureRest.full_whitelist])
      [Fixture.topic_dist] = inr r /\
    forall key l, (key, l) ∈ fst r -> snd r !! l = Some Fixture.topic_dist.
Proof.
  eexists. split; [vm_compute; reflexivity|].
  apply (build_topic_dists_full_whitelists Fixture.word_dict 0 Fixture.topic_dist
           [FixtureRest.full_whitelist] [Fixture.topic_dist]).
  - reflexivity.
  - intros path word v Hpath Hword.
    apply list_elem_of_singleton in Hpath as ->.
    repeat (apply elem_of_cons in Hword as [[= -> ->]|Hword];
            [eexists; vm_compute; reflexivity|]).
    by apply elem_of_nil in Hword.
  - vm_compute. reflexivity.
Defined.

(** The default method: the score is the coherence for "i", not for
    "c_npmi". *)
Lemma slow_eval_keeps_last_method_witness :
  exists r : list (string * Z) * option (list (string * list Z)),
    evaluate_variant FixtureRest.co_slow (Fixture.eval_cfg (Some (PyStr "slow_eval")) None)
      Fixture.word_dict [Fixture.topic_dist] "original" 0 [] None = inr r /\
    snd r = Some [("original_m", [0%Z])].
Proof.
  eexists. split; [vm_compute; reflexivity|].
  apply (slow_eval_keeps_last_method FixtureRest.co_slow
           (Fixture.eval_cfg (Some (PyStr "slow_eval")) None)
           Fixture.word_dict [Fixture.topic_dist] "original" 0 Fixture.topic_dist [] None).
  - reflexivity.
  - reflexivity.
  - vm_compute. reflexivity.
Defined.

(** A working directory outside the project. *)
Lemma topic_evaluation_outside_project_witness :
  (exists e : exn,
     topic_evaluation FixtureRest.co_elsewhere
       (Fixture.eval_cfg (Some (PyList ["w2v_sim"])) None)
       Fixture.word_dict Fixture.topic_dist = inl e /\
     (e = IndexError \/ e = ValueError "tuple.index(x): x not in tuple")) /\
  topic_evaluation FixtureRest.co_elsewhere
    (Fixture.eval_cfg (Some (PyList ["w2v_sim"])) None)
    Fixture.word_dict Fixture.topic_dist
  = inl (ValueError "tuple.index(x): x not in tuple").
Proof.
  destruct (topic_evaluation_outside_project FixtureRest.co_elsewhere
              (Fixture.eval_cfg (Some (PyList ["w2v_sim"])) None)
              Fixture.word_dict Fixture.topic_dist) as [Hraise Hvalue].
  - vm_compute. intros Hin.
    repeat (apply elem_of_cons in Hin as [Hin|Hin]; [discriminate Hin|]).
    by apply elem_of_nil in Hin.
  - split; [exact Hraise|]. apply Hvalue. reflexivity.
Defined.

(** A topic of three known words is read. *)
Lemma w2v_sim_returns_iff_witness :
  Forall (readable_topic Fixture.co Fixture.word_dict) [["apple"; "pear"; "plum"]] /\
  ([["apple"; "pear"; "plum"]] = [] -> (head_num Fixture.co * 3 * (3 - 1))%Z <> 0%Z).
Proof.
  apply (proj1 (w2v_sim_returns_iff Fixture.co Fixture.word_dict 3%Z
                  [["apple"; "pear"; "plum"]])).
  eexists. vm_compute. reflexivity.
Defined.

End NCTrainerRestFacts.
